(** * Faust to RNBO patch generator ([architecture/max-msp/rnbo.py])

    A shallow embedding of the graph-construction functions of [rnbo.py]
    and the properties of the patch they build.

    Conventions of the embedding.
    - Python integers are [Z]; a JSON number is a [Number] (an [int], or
      a [float] carried by its Python [repr], which is what the f-strings
      of the source print).  The value of a float operation is not
      computed: the source hands the numbers of a parameter to py2max
      and to its f-strings, and computes with them in one division only,
      whose quotient is dropped; of that division the embedding keeps
      whether it raises, and what.
    - The py2max objects ([Patcher], [Box], patch lines) are an external
      library.  A [Patcher] is modelled by the boxes and lines added to
      it, in order; a [Box] by the arguments it was created with.  Layout
      arguments ([patching_rect], [fontsize]) are left out.  Patchers live
      in a store and are designated by their address, since the source
      mutates the main patcher and the sub-patcher of each [rnbo~] object
      through several references.  The files that [save] and [saveas]
      write are recorded in the store; the writes are taken to succeed.
    - Python exceptions are the [Raise] results of the monad [M]. *)

From Stdlib Require Import ZArith List String Ascii Bool Lia DecimalString.
Import ListNotations.

Local Open Scope Z_scope.
Local Open Scope string_scope.
Local Open Scope list_scope.

(** ** Python values and helpers *)

Inductive PyError : Type :=
| UnboundLocalError (name : string)
| ZeroDivisionError
| OverflowError
| TypeError (msg : string)
| AttributeError (name : string).

Inductive Result (A : Type) : Type :=
| Ok (a : A)
| Raise (e : PyError).

Arguments Ok {A} a.
Arguments Raise {A} e.

(** [str(i)] for a Python [int]. *)
Definition str_int (z : Z) : string := NilZero.string_of_int (Z.to_int z).

(** A JSON number as loaded by [json.load]. *)
Inductive Number : Type :=
| NInt (z : Z)
| NFloat (repr : string).

(** [str(x)], as printed by [f"{x}"]. *)
Definition str_number (x : Number) : string :=
  match x with
  | NInt z => str_int z
  | NFloat r => r
  end.

Definition number_is_zero (x : Number) : bool :=
  match x with
  | NInt z => Z.eqb z 0
  | NFloat r => String.eqb r "0.0" || String.eqb r "-0.0"
  end.

(** [range(a, b)] *)
Definition py_range (a b : Z) : list Z :=
  map (fun k => a + Z.of_nat k) (seq 0 (Z.to_nat (b - a))).

(** [s.endswith(suffix)] *)
Definition endswith (s suffix : string) : bool :=
  let n := String.length s in
  let m := String.length suffix in
  Nat.leb m n && String.eqb (substring (n - m) m s) suffix.

(** [sep.join(l)] *)
Fixpoint join (sep : string) (l : list string) : string :=
  match l with
  | [] => ""
  | [x] => x
  | x :: rest => (x ++ sep ++ join sep rest)%string
  end.

(** [x in l] for a list (or the keys of a dict) of strings. *)
Definition str_in (x : string) (l : list string) : bool :=
  existsb (String.eqb x) l.

(** [s.rsplit(".", 1)[0]] *)
Fixpoint rsplit_dot_rev (r : list ascii) : option (list ascii) :=
  match r with
  | [] => None
  | c :: rest => if Ascii.eqb c "."%char then Some rest else rsplit_dot_rev rest
  end.

Definition rsplit_dot_head (s : string) : string :=
  match rsplit_dot_rev (rev (list_ascii_of_string s)) with
  | Some rest => string_of_list_ascii (rev rest)
  | None => s
  end.

(** ** Port planning: [generate_io_info] *)

Record IOEntry : Type := mkIOEntry {
  comment : string;
  index : Z;
  tag : string;
  type : string
}.

Record IOInfoDict : Type := mkIOInfoDict { IOInfo : list IOEntry }.

(** The body of [for i in range(1, n + 1): info.append(signal entry)].
    The loop variable [i] is a local of the enclosing function: it stays
    unbound ([None]) if no loop has run yet, and keeps its last value
    after a loop. *)
Definition signal_loop (pfx : string) (n : Z)
    (i : option Z) (info : list IOEntry) : option Z * list IOEntry :=
  fold_left
    (fun (st : option Z * list IOEntry) (k : Z) =>
       (Some k, snd st ++ [mkIOEntry "" k (pfx ++ str_int k) "signal"]))
    (py_range 1 (n + 1)) (i, info).

Definition generate_io_info (midi : bool) (num_inputs num_outputs : Z)
    : Result (Z * Z * IOInfoDict * IOInfoDict) :=
  let inletInfo : list IOEntry := [] in
  let outletInfo : list IOEntry := [] in
  let i : option Z := None in
  if midi then
    let inlets := Z.max 1 num_inputs + 1 in
    (* First inlets are signals *)
    let '(i, inletInfo) := signal_loop "in" num_inputs i inletInfo in
    (* Last inlet is MIDI *)
    let inletInfo :=
      inletInfo ++ [mkIOEntry "" inlets ("in" ++ str_int inlets) "midi"] in
    let outlets := Z.max 1 num_outputs + 3 in
    (* First outlets are signals *)
    let '(i, outletInfo) := signal_loop "out" num_outputs i outletInfo in
    (* Next outlet is MIDI: reads the loop variable [i] *)
    match i with
    | None => Raise (UnboundLocalError "i")
    | Some i =>
        let outletInfo :=
          outletInfo ++ [mkIOEntry "" i ("out" ++ str_int i) "midi"] in
        Ok (inlets, outlets, mkIOInfoDict inletInfo, mkIOInfoDict outletInfo)
    end
  else
    let inlets := Z.max 1 num_inputs in
    let '(i, inletInfo) := signal_loop "in" num_inputs i inletInfo in
    let outlets := Z.max 1 num_outputs + 2 in
    let '(i, outletInfo) := signal_loop "out" num_outputs i outletInfo in
    Ok (inlets, outlets, mkIOInfoDict inletInfo, mkIOInfoDict outletInfo).

(** ** The patch under construction (py2max's objects) *)

(** The [saved_object_attributes] of an [rnbo~] object. *)
Record RnboAttributes : Type := mkRnboAttributes {
  optimization : string;
  attr_title : string;
  dumpoutlet : Z;
  polyphony : option Z
}.

(** Keyword arguments of a box, by kind of object. *)
Inductive BoxConfig : Type :=
| NoConfig
| AttruiConfig (attr : string) (parameter_enable : Z)
    (minimum maximum : Number)
    (parameter_initial : string * Number) (parameter_initial_enable : Z)
| RnboConfig (title : string) (inletInfo outletInfo : IOInfoDict)
    (saved_object_attributes : RnboAttributes) (subpatcher_addr : nat).

(** The [Patcher] method that created the box. *)
Inductive BoxClass : Type :=
| Comment | Textbox | Message | CodeboxTilde | Rnbo.

Record Box : Type := mkBox {
  box_id : nat;
  box_class : BoxClass;
  box_text : string;
  box_numinlets : option Z;
  box_numoutlets : option Z;
  box_config : BoxConfig
}.

(** A patch line goes from an outlet of a box to an inlet of a box of the
    same patcher. *)
Record Patchline : Type := mkPatchline {
  source : nat * Z;
  destination : nat * Z
}.

Record Patcher : Type := mkPatcher {
  path : option string;
  boxes : list Box;
  lines : list Patchline
}.

Definition empty_patcher : Patcher := mkPatcher None [] [].

Record World : Type := mkWorld {
  patchers : list Patcher;
  log : list string;
  saved : list (string * Patcher)
}.

Definition empty_world : World := mkWorld [] [] [].

Definition get_patcher (p : nat) (w : World) : Patcher :=
  nth p (patchers w) empty_patcher.

Fixpoint store_patcher (p : nat) (x : Patcher) (l : list Patcher)
    : list Patcher :=
  match p, l with
  | O, [] => [x]
  | O, _ :: t => x :: t
  | S p', [] => empty_patcher :: store_patcher p' x []
  | S p', h :: t => h :: store_patcher p' x t
  end.

Definition set_patcher (p : nat) (x : Patcher) (w : World) : World :=
  mkWorld (store_patcher p x (patchers w)) (log w) (saved w).

(** ** The monad of the construction: state and exceptions *)

Definition M (A : Type) : Type := World -> Result (A * World).

Definition ret {A : Type} (a : A) : M A := fun w => Ok (a, w).

Definition bind {A B : Type} (m : M A) (f : A -> M B) : M B :=
  fun w =>
    match m w with
    | Ok (a, w') => f a w'
    | Raise e => Raise e
    end.

Definition raise {A : Type} (e : PyError) : M A := fun _ => Raise e.

Declare Scope py_scope.
Delimit Scope py_scope with py.
Notation "x <- c1 ;; c2" := (bind c1 (fun x => c2))
  (at level 61, c1 at next level, right associativity) : py_scope.
Notation "' pat <- c1 ;; c2" := (bind c1 (fun x => match x with pat => c2 end))
  (at level 61, pat pattern, c1 at next level, right associativity) : py_scope.
Notation "c1 ;; c2" := (bind c1 (fun _ => c2))
  (at level 61, right associativity) : py_scope.
Local Open Scope py_scope.

(** [for x in l: body(x)] *)
Fixpoint for_each {A : Type} (l : list A) (body : A -> M unit) : M unit :=
  match l with
  | [] => ret tt
  | x :: rest => body x ;; for_each rest body
  end.

(** [for x in l: locals = body(locals, x)], for a loop that assigns locals
    of the enclosing function. *)
Fixpoint for_each_acc {A S : Type} (l : list A) (body : S -> A -> M S)
    (s : S) : M S :=
  match l with
  | [] => ret s
  | x :: rest => s' <- body s x ;; for_each_acc rest body s'
  end.

(** *** py2max's [Patcher] interface *)

(** The primitive updates of the store: a new patcher, a box or a line
    appended to the patcher at address [p]. *)
Definition alloc_patcher (path : option string) (w : World) : World :=
  set_patcher (List.length (patchers w)) (mkPatcher path [] []) w.

Definition push_box (p : nat) (b : Box) (w : World) : World :=
  let pt := get_patcher p w in
  set_patcher p (mkPatcher (path pt) (boxes pt ++ [b]) (lines pt)) w.

Definition push_line (p : nat) (l : Patchline) (w : World) : World :=
  let pt := get_patcher p w in
  set_patcher p (mkPatcher (path pt) (boxes pt) (lines pt ++ [l])) w.

(** The identifier given to the next box of a patcher. *)
Definition next_id (p : nat) (w : World) : nat :=
  S (List.length (boxes (get_patcher p w))).

(** [Patcher(path)] *)
Definition new_patcher (path : option string) : M nat :=
  fun w => Ok (List.length (patchers w), alloc_patcher path w).

Definition add_box (p : nat) (cls : BoxClass) (text : string)
    (numinlets numoutlets : option Z) (cfg : BoxConfig) : M Box :=
  fun w =>
    let b := mkBox (next_id p w) cls text numinlets numoutlets cfg in
    Ok (b, push_box p b w).

Definition add_textbox (p : nat) (text : string) : M Box :=
  add_box p Textbox text None None NoConfig.

Definition add_message (p : nat) (text : string) : M Box :=
  add_box p Message text None None NoConfig.

Definition add_comment (p : nat) (text : string) : M Box :=
  add_box p Comment text None None NoConfig.

Definition add_codebox_tilde (p : nat) (code : string) : M Box :=
  add_box p CodeboxTilde code None None NoConfig.

(** [patcher.add_line(src_obj, dst_obj, inlet=0, outlet=0)] *)
Definition add_line (p : nat) (src_obj dst_obj : Box) (inlet outlet : Z)
    : M unit :=
  fun w =>
    Ok (tt, push_line p
              (mkPatchline (box_id src_obj, outlet) (box_id dst_obj, inlet))
              w).

(** [patcher.add_rnbo(...)]: the [rnbo~] box owns a fresh sub-patcher. *)
Definition add_rnbo (p : nat) (inletInfo outletInfo : IOInfoDict)
    (title : string) (numinlets numoutlets : Z)
    (saved_object_attributes : RnboAttributes) : M Box :=
  sub <- new_patcher None ;;
  add_box p Rnbo "rnbo~" (Some numinlets) (Some numoutlets)
    (RnboConfig title inletInfo outletInfo saved_object_attributes sub).

(** [box.subpatcher] *)
Definition subpatcher (b : Box) : M nat :=
  match box_config b with
  | RnboConfig _ _ _ _ sub => ret sub
  | _ => raise (AttributeError "subpatcher")
  end.

(** [box.numinlets] and [box.numoutlets]; the source reads them on [rnbo~]
    boxes only, which are created with both. *)
Definition numinlets (b : Box) : Z :=
  match box_numinlets b with Some n => n | None => 0 end.

Definition numoutlets (b : Box) : Z :=
  match box_numoutlets b with Some n => n | None => 0 end.

(** [patcher.saveas(path)] and [patcher.save()]: the store records the
    file name and the state of the patcher that is written.  The file
    system is not part of the store: a write is taken to succeed, where
    in Python an unwritable path raises [OSError]. *)
Definition push_saved (p : nat) (file : string) (w : World) : World :=
  mkWorld (patchers w) (log w) (saved w ++ [(file, get_patcher p w)]).

Definition saveas (p : nat) (file : string) : M unit :=
  fun w => Ok (tt, push_saved p file w).

Definition save (p : nat) : M unit :=
  fun w =>
    match path (get_patcher p w) with
    | Some file => saveas p file w
    | None => Raise (TypeError "path")
    end.

(** [logging.error(msg)] *)
Definition push_log (msg : string) (w : World) : World :=
  mkWorld (patchers w) (log w ++ [msg]) (saved w).

Definition logging_error (msg : string) : M unit :=
  fun w => Ok (tt, push_log msg w).

(** Lifting of a computation that only raises or returns. *)
Definition lift {A : Type} (r : Result A) : M A :=
  fun w => match r with Ok a => Ok (a, w) | Raise e => Raise e end.

(** ** The functions of [rnbo.py] *)

(** An entry of the list returned by [extract_items_info]: every key is
    always present. *)
Record Item : Type := mkItem {
  item_shortname : string;
  item_type : string;
  item_init : Number;
  item_min : Number;
  item_max : Number;
  item_step : Number;
  item_midi : list string
}.

Definition build_label (item_type shortname : string) (test : bool) : string :=
  if test then "RB_" ++ item_type ++ "_" ++ shortname else shortname.

Definition add_polyphony_control (sub_patch : nat)
    (set_param_pitch set_param_gain set_param_gate : Box)
    (is_freq is_gain : bool) : M unit :=
  (* Add MIDI notein *)
  note_in <- add_textbox sub_patch "notein" ;;
  (* Pitch can be controlled by frequency or MIDI key *)
  (if is_freq then
     mtof <- add_textbox sub_patch "mtof" ;;
     add_line sub_patch note_in mtof 0 0 ;;
     add_line sub_patch mtof set_param_pitch 0 0
   else
     add_line sub_patch note_in set_param_pitch 0 0) ;;
  (* Gain can be controlled by gain or MIDI velocity *)
  (if is_gain then
     scale_gain <- add_textbox sub_patch "scale 0 127 0 1" ;;
     add_line sub_patch note_in scale_gain 0 1 ;;
     add_line sub_patch scale_gain set_param_gain 0 0
   else
     add_line sub_patch note_in set_param_gain 0 1) ;;
  (* Velocity/gate patching *)
  gate_op <- add_textbox sub_patch "> 0" ;;
  add_line sub_patch note_in gate_op 0 1 ;;
  add_line sub_patch gate_op set_param_gate 0 0.

(** The Faust to RNBO syntax mapping: key, then the ["in"] and ["out"]
    object names. *)
Definition midi_mapping : list (string * (string * string)) :=
  [ ("ctrl", ("ctlin", "ctlout"));
    ("chanpress", ("touchin", "touchout"));
    ("keyon", ("notein", "noteout"));
    ("keyoff", ("notein", "noteout"));
    ("key", ("notein", "noteout"));
    ("pitchwheel", ("bendin @bendmode 1", "bendout @bendmode 1"));
    ("pgm", ("pgmin", "pgmout")) ].

Fixpoint dict_get {V : Type} (k : string) (d : list (string * V)) : option V :=
  match d with
  | [] => None
  | (k', v) :: rest => if String.eqb k k' then Some v else dict_get k rest
  end.

Definition add_midi_control (item : Item) (sub_patch : nat)
    (set_param codebox : Box) : M bool :=
  match item_midi item with
  | [] => ret false
  | midi_type :: midi_rest =>
      match dict_get midi_type midi_mapping with
      | None =>
          logging_error
            ("MIDI control type '" ++ midi_type ++ "' not supported") ;;
          ret false
      | Some (name_in, name_out) =>
          let midi_args := join " " midi_rest in
          midi_in <- add_textbox sub_patch (name_in ++ " " ++ midi_args) ;;
          midi_out <- add_textbox sub_patch (name_out ++ " " ++ midi_args) ;;
          let min_s := str_number (item_min item) in
          let max_s := str_number (item_max item) in
          let '(scaling_in, scaling_out) :=
            if String.eqb midi_type "pitchwheel" then
              ("scale -1 1 " ++ min_s ++ " " ++ max_s,
               "scale " ++ min_s ++ " " ++ max_s ++ " -1 -1")%string
            else
              ("scale 0 127 " ++ min_s ++ " " ++ max_s,
               "scale " ++ min_s ++ " " ++ max_s ++ " 0 127")%string in
          scaling_in_box <- add_textbox sub_patch scaling_in ;;
          scaling_out_box <- add_textbox sub_patch scaling_out ;;
          (* Connect the input objects *)
          add_line sub_patch midi_in scaling_in_box 0 0 ;;
          add_line sub_patch scaling_in_box set_param 0 0 ;;
          (* Connect the output objects *)
          add_line sub_patch codebox scaling_out_box 0 0 ;;
          add_line sub_patch scaling_out_box midi_out 0 0 ;;
          ret true
      end
  end.

(** The locals of [add_rnbo_object] assigned by its loop on the items. *)
Record PolyLocals : Type := mkPolyLocals {
  set_param_pitch : option Box;
  set_param_gain : option Box;
  set_param_gate : option Box;
  is_freq : bool;
  is_gain : bool
}.

(** The [if ... elif ...] on the suffix of the shortname. *)
Definition analyze_shortname (shortname : string) (set_param : Box)
    (loc : PolyLocals) : PolyLocals :=
  if endswith shortname "freq" then
    mkPolyLocals (Some set_param) (set_param_gain loc) (set_param_gate loc)
      true (is_gain loc)
  else if endswith shortname "key" then
    mkPolyLocals (Some set_param) (set_param_gain loc) (set_param_gate loc)
      false (is_gain loc)
  else if endswith shortname "gain" then
    mkPolyLocals (set_param_pitch loc) (Some set_param) (set_param_gate loc)
      (is_freq loc) true
  else if endswith shortname "velocity" then
    mkPolyLocals (set_param_pitch loc) (Some set_param) (set_param_gate loc)
      (is_freq loc) false
  else if endswith shortname "gate" then
    mkPolyLocals (set_param_pitch loc) (set_param_gain loc) (Some set_param)
      (is_freq loc) (is_gain loc)
  else loc.

(** The integers from which the conversion to a [float] raises
    [OverflowError]: those that round to [2**1024], the first being half
    a unit in the last place above the largest float. *)
Definition float_bound : Z := 2 ^ 1024 - 2 ^ 970.

(** [float(z)] returns. *)
Definition int_fits_float (z : Z) : bool := Z.ltb (Z.abs z) float_bound.

(** The value of [max_value - min_value], as far as the division that
    follows depends on it: an [int], or some [float]. *)
Inductive Difference : Type :=
| DInt (z : Z)
| DFloat.

(** [max_value - min_value].  Between two ints the subtraction is exact;
    with a float operand the int operand is converted first, and two
    floats never raise (the result may be [inf] or [nan]). *)
Definition number_sub (a b : Number) : Result Difference :=
  match a, b with
  | NInt x, NInt y => Ok (DInt (x - y))
  | NInt x, NFloat _ =>
      if int_fits_float x then Ok DFloat else Raise OverflowError
  | NFloat _, NInt y =>
      if int_fits_float y then Ok DFloat else Raise OverflowError
  | NFloat _, NFloat _ => Ok DFloat
  end.

(** [d / step], the quotient dropped.  Between two ints a zero divisor is
    tested first, and the correctly rounded quotient overflows from
    [float_bound] on; with a float operand the int operand is converted
    first, and then the divisor is tested. *)
Definition true_div (d : Difference) (step : Number) : Result unit :=
  match d, step with
  | DInt a, NInt b =>
      if Z.eqb b 0 then Raise ZeroDivisionError
      else if Z.leb (float_bound * Z.abs b) (Z.abs a) then Raise OverflowError
      else Ok tt
  | DInt a, NFloat _ =>
      if negb (int_fits_float a) then Raise OverflowError
      else if number_is_zero step then Raise ZeroDivisionError
      else Ok tt
  | DFloat, NInt b =>
      if negb (int_fits_float b) then Raise OverflowError
      else if Z.eqb b 0 then Raise ZeroDivisionError
      else Ok tt
  | DFloat, NFloat _ =>
      if number_is_zero step then Raise ZeroDivisionError else Ok tt
  end.

(** [(max_value - min_value) / item["step"]]: the quotient is not used,
    the computation may raise. *)
Definition steps_value (max_value min_value step : Number) : Result unit :=
  match number_sub max_value min_value with
  | Ok d => true_div d step
  | Raise e => Raise e
  end.

(** The body of the loop of [add_rnbo_object] on [items_info_list]. *)
Definition item_loop_body (patcher sub_patch : nat) (rnbo codebox : Box)
    (midi : bool) (nvoices : Z) (test : bool)
    (loc : PolyLocals) (item : Item) : M PolyLocals :=
  let shortname := item_shortname item in
  let item_type := item_type item in
  let label := build_label item_type shortname test in
  (* Add a global 'set' param object *)
  set_param <- add_textbox sub_patch ("set " ++ label) ;;
  param <-
    (if str_in item_type ["button"; "checkbox"] then
       toggle <- add_textbox patcher "toggle" ;;
       param_wrap <- add_box patcher Textbox "attrui" None None
         (AttruiConfig label 1 (NInt 0) (NInt 1) (label, NInt 0) 1) ;;
       add_line patcher toggle param_wrap 0 0 ;;
       add_line patcher param_wrap rnbo 0 0 ;;
       add_textbox sub_patch ("param " ++ label ++ " 0 @min 0 @max 1")
     else
       let min_value := item_min item in
       let max_value := item_max item in
       let init_value := item_init item in
       lift (steps_value max_value min_value (item_step item)) ;;
       param_wrap <- add_box patcher Textbox "attrui" None None
         (AttruiConfig label 1 min_value max_value (label, init_value) 1) ;;
       add_line patcher param_wrap rnbo 0 0 ;;
       add_textbox sub_patch
         ("param " ++ label ++ " " ++ str_number init_value
          ++ " @min " ++ str_number min_value
          ++ " @max " ++ str_number max_value)) ;;
  (* Connect the parameter control to the 'set' param object *)
  add_line sub_patch param set_param 0 0 ;;
  (* Connect the 'set' param object to the codebox *)
  add_line sub_patch set_param codebox 0 0 ;;
  (* Analyze the parameter shortname for polyphony handing *)
  let loc :=
    if midi && Z.ltb 0 nvoices then analyze_shortname shortname set_param loc
    else loc in
  (* Possibly add MIDI input/output control *)
  (if midi then
     _ <- add_midi_control item sub_patch set_param codebox ;; ret tt
   else ret tt) ;;
  ret loc.

Definition add_rnbo_object (patcher : nat) (dsp_name codebox_code : string)
    (items_info_list : list Item) (midi : bool) (nvoices : Z) (test : bool)
    (num_inputs num_outputs : Z) : M Box :=
  let rnbo_attributes :=
    mkRnboAttributes "O3" dsp_name 1
      (* the polyphony attribute only if midi is True and nvoices > 0 *)
      (if midi && Z.ltb 0 nvoices then Some nvoices else None) in
  (* Prepare the inlet and outlet information *)
  '(inlets, outlets, inletInfo, outletInfo) <-
    lift (generate_io_info midi num_inputs num_outputs) ;;
  (* Create the rnbo~ object *)
  rnbo <- add_rnbo patcher inletInfo outletInfo dsp_name inlets outlets
            rnbo_attributes ;;
  (* Create the codebox subpatcher *)
  sub_patch <- subpatcher rnbo ;;
  codebox <- add_codebox_tilde sub_patch codebox_code ;;
  (* Workaround for C++ generation bug when no audio inputs *)
  (if Z.eqb num_inputs 0 then
     in1 <- add_textbox sub_patch "in~ 1" ;;
     add_line sub_patch in1 codebox 0 0
   else ret tt) ;;
  (* inputs *)
  for_each (py_range 0 num_inputs) (fun i =>
    input_box <- add_textbox sub_patch ("in~ " ++ str_int (i + 1)) ;;
    add_line sub_patch input_box codebox i 0) ;;
  (* outputs *)
  for_each (py_range 0 num_outputs) (fun i =>
    output_box <- add_textbox sub_patch ("out~ " ++ str_int (i + 1)) ;;
    add_line sub_patch codebox output_box 0 i) ;;
  (* parameter controls, analysis for polyphony *)
  loc <- for_each_acc items_info_list
           (item_loop_body patcher sub_patch rnbo codebox midi nvoices test)
           (mkPolyLocals None None None false false) ;;
  (* possibly add polyphony control *)
  (if midi && Z.ltb 0 nvoices then
     match set_param_pitch loc, set_param_gain loc, set_param_gate loc with
     | Some pitch, Some gain, Some gate =>
         add_polyphony_control sub_patch pitch gain gate
           (is_freq loc) (is_gain loc)
     | _, _, _ => ret tt
     end
   else ret tt) ;;
  ret rnbo.

Definition connect_dsp_effect (patcher : nat) (dsp_rnbo effect_rnbo : Box)
    (dsp_num_outputs effect_num_inputs : Z) : M unit :=
  match dsp_num_outputs, effect_num_inputs with
  | 1%Z, 1%Z =>
      add_line patcher dsp_rnbo effect_rnbo 0 0
  | 1%Z, 2%Z =>
      add_line patcher dsp_rnbo effect_rnbo 0 0 ;;
      add_line patcher dsp_rnbo effect_rnbo 1 0
  | 2%Z, 1%Z =>
      add_line patcher dsp_rnbo effect_rnbo 0 0 ;;
      add_line patcher dsp_rnbo effect_rnbo 0 1
  | 2%Z, 2%Z =>
      add_line patcher dsp_rnbo effect_rnbo 0 0 ;;
      add_line patcher dsp_rnbo effect_rnbo 1 1
  | _, _ => ret tt
  end.

Definition add_compile_test (patcher : nat) (rnbo : Box)
    (export_path cpp_filename : string) : M unit :=
  load_bang <- add_textbox patcher "loadbang" ;;
  dump_target_config <-
    add_message patcher "dumptargetconfig cpp-export cpp-code-export" ;;
  tb <- add_textbox patcher "t b b s" ;;
  set_path <-
    add_message patcher
      ("set output_path " ++ export_path ++ ", set export_name "
       ++ cpp_filename) ;;
  dict1 <- add_textbox patcher "dict" ;;
  route_dict <- add_textbox patcher "route dictionary" ;;
  export <- add_message patcher "export cpp-export cpp-code-export $1" ;;
  route <- add_textbox patcher "route targetconfig" ;;
  (* internal routing *)
  add_line patcher load_bang dump_target_config 0 0 ;;
  add_line patcher dump_target_config rnbo 0 0 ;;
  add_line patcher tb dict1 0 0 ;;
  add_line patcher tb set_path 0 1 ;;
  add_line patcher tb dict1 1 2 ;;
  add_line patcher set_path dict1 0 0 ;;
  add_line patcher dict1 route_dict 0 0 ;;
  add_line patcher route_dict export 0 0 ;;
  add_line patcher route tb 0 0 ;;
  (* routing with rnbo object *)
  add_line patcher export rnbo 0 0 ;;
  (* Right most outlet of rnbo is dump outlet *)
  add_line patcher rnbo route 0 (numoutlets rnbo - 1).

(** [" ".join(str(i + 1) for i in range(n))] *)
Definition channel_numbers (n : Z) : string :=
  join " " (map (fun i => str_int (i + 1)) (py_range 0 n)).

Definition create_audio_output (patcher : nat) (rnbo : Box)
    (num_outputs : Z) : M unit :=
  toggle <- add_textbox patcher "toggle" ;;
  let dac_str := ("dac~ " ++ channel_numbers num_outputs)%string in
  audio_out <- add_box patcher Textbox dac_str (Some num_outputs) None
                 NoConfig ;;
  add_line patcher toggle audio_out 0 0 ;;
  for_each (py_range 0 num_outputs) (fun i =>
    add_line patcher rnbo audio_out i i).

Definition create_audio_input (patcher : nat) (rnbo : Box)
    (num_inputs : Z) : M unit :=
  let adc_str := ("adc~ " ++ channel_numbers num_inputs)%string in
  audio_in <- add_box patcher Textbox adc_str None (Some num_inputs)
                NoConfig ;;
  for_each (py_range 0 num_inputs) (fun i =>
    add_line patcher audio_in rnbo i i).

Definition connect_midi (patcher : nat) (rnbo midi_in midi_out : Box)
    : M unit :=
  (* MIDI inlet is the right-most inlet, numbering starts at 0 *)
  let inlet_index := numinlets rnbo - 1 in
  (* MIDI outlet is the third from the right-most outlet *)
  let outlet_index := numoutlets rnbo - 3 in
  add_line patcher midi_in rnbo inlet_index 0 ;;
  add_line patcher rnbo midi_out 0 outlet_index.

(** Truth value of an [Optional[str]]. *)
Definition truthy_str (s : option string) : option string :=
  match s with
  | Some "" => None
  | other => other
  end.

(** Reading a local that is assigned under a condition. *)
Definition read_local {A : Type} (name : string) (v : option A) : M A :=
  match v with
  | Some a => ret a
  | None => raise (UnboundLocalError name)
  end.

Definition create_rnbo_patch (dsp_name maxpat_path export_path
    cpp_filename dsp_codebox_code : string)
    (dsp_items_info_list : list Item) (dsp_num_inputs dsp_num_outputs : Z)
    (midi : bool) (nvoices : Z)
    (effect_codebox_code : option string)
    (effect_items_info_list : option (list Item))
    (effect_num_inputs effect_num_outputs : Z)
    (compile test subpatcher_flag : bool) : M unit :=
  (* Create the patcher *)
  patcher <- new_patcher (Some maxpat_path) ;;
  add_comment patcher "Faust generated RNBO patch, Copyright (c) 2023 Grame" ;;
  (* Create the DSP rnbo~ object *)
  dsp_rnbo <- add_rnbo_object patcher dsp_name dsp_codebox_code
                dsp_items_info_list midi nvoices test
                dsp_num_inputs dsp_num_outputs ;;
  (* Possibly add MIDI input/output control in the global patcher *)
  midi_io <-
    (if midi then
       midi_in <- add_textbox patcher "midiin" ;;
       midi_out <- add_textbox patcher "midiout" ;;
       connect_midi patcher dsp_rnbo midi_in midi_out ;;
       ret (Some (midi_in, midi_out))
     else ret None) ;;
  (* Save subpatcher as an abstraction *)
  (if subpatcher_flag then
     sub <- subpatcher dsp_rnbo ;;
     saveas sub (rsplit_dot_head maxpat_path ++ "." ++ "rnbopat")
   else ret tt) ;;
  (* Possibly create and connect the effect rnbo~ object *)
  effect <-
    match truthy_str effect_codebox_code with
    | Some effect_code =>
        (* on [None], [add_rnbo_object] plans the ports, and raises when
           its loop starts to iterate *)
        effect_items <-
          match effect_items_info_list with
          | Some l => ret l
          | None =>
              lift (generate_io_info midi effect_num_inputs
                      effect_num_outputs) ;;
              raise (TypeError "'NoneType' object is not iterable")
          end ;;
        effect_rnbo <- add_rnbo_object patcher "Effect" effect_code
                         effect_items midi (-1) false
                         effect_num_inputs effect_num_outputs ;;
        (* Connect the DSP and effect rnbo~ objects *)
        connect_dsp_effect patcher dsp_rnbo effect_rnbo
          dsp_num_outputs effect_num_inputs ;;
        (if subpatcher_flag then
           sub <- subpatcher effect_rnbo ;;
           saveas sub (rsplit_dot_head maxpat_path ++ "_effect." ++ "rnbopat")
         else ret tt) ;;
        (* Connect the effect rnbo~ object to the midiin/midiout objects *)
        (if midi then
           '(midi_in, midi_out) <- read_local "midi_in" midi_io ;;
           connect_midi patcher effect_rnbo midi_in midi_out
         else ret tt) ;;
        ret (Some effect_rnbo)
    | None => ret None
    end ;;
  (* Add loadbang and 'compile C++ and export' machinery *)
  (if compile then add_compile_test patcher dsp_rnbo export_path cpp_filename
   else ret tt) ;;
  (* Connect the appropriate rnbo~ object to audio_out *)
  match truthy_str effect_codebox_code with
  | Some _ =>
      effect_rnbo <- read_local "effect_rnbo" effect ;;
      create_audio_output patcher effect_rnbo effect_num_outputs
  | None =>
      create_audio_output patcher dsp_rnbo dsp_num_outputs
  end ;;
  (* Possibly create the audio driver input *)
  (if Z.ltb 0 dsp_num_inputs then
     create_audio_input patcher dsp_rnbo dsp_num_inputs
   else ret tt) ;;
  (* And finally save the patch *)
  save patcher.

(** What [load_files_create_rnbo_patch] reads from a JSON file:
    [extract_items_info(json_data)], [json_data.get("inputs", 0)],
    [json_data.get("outputs", 0)] and [get_midi_and_nvoices(json_data)]. *)
Record JsonData : Type := mkJsonData {
  json_items : list Item;
  json_inputs : Z;
  json_outputs : Z;
  json_options : option bool * option Z
}.

(** [nvoices > 0] where [nvoices] may be [None]. *)
Definition gt_zero (nvoices : option Z) : Result bool :=
  match nvoices with
  | Some n => Ok (Z.ltb 0 n)
  | None =>
      Raise (TypeError
        "'>' not supported between instances of 'NoneType' and 'int'")
  end.

(** [options[1] if options[1] else -1] *)
Definition options_nvoices (o : option Z) : Z :=
  match o with
  | Some n => if Z.eqb n 0 then (-1) else n
  | None => (-1)
  end.

(** Truth value of [midi or options[0]]. *)
Definition midi_or (midi : bool) (o : option bool) : bool :=
  if midi then true else match o with Some b => b | None => false end.

(** The voice count passed by the branch with an effect:
    [nvoices if nvoices > 0 else options[1] if options[1] else -1] *)
Definition effect_branch_nvoices (nvoices : option Z) (o : option Z)
    : Result Z :=
  match gt_zero nvoices, nvoices with
  | Raise e, _ => Raise e
  | Ok true, Some n => Ok n
  | Ok _, _ => Ok (options_nvoices o)
  end.

(** The voice count passed by the branch without effect:
    [nvoices if nvoices is not None and nvoices > 0 else ...] *)
Definition no_effect_branch_nvoices (nvoices : option Z) (o : option Z)
    : Result Z :=
  match nvoices with
  | Some n =>
      match gt_zero nvoices with
      | Raise e => Raise e
      | Ok true => Ok n
      | Ok false => Ok (options_nvoices o)
      end
  | None => Ok (options_nvoices o)
  end.

(** The files are given by their contents: the text of a codebox file and
    the data read from a JSON file; [None] stands for a path that is
    [None]. *)
Definition load_files_create_rnbo_patch (dsp_name : string)
    (dsp_codebox_file : string) (dsp_json_file : JsonData)
    (effect_codebox_file : option string)
    (effect_json_file : option JsonData)
    (maxpat_path export_path cpp_filename : string)
    (midi : bool) (nvoices : option Z)
    (compile test subpatcher_flag : bool) : M unit :=
  let dsp_codebox_code := dsp_codebox_file in
  let dsp_items_info_list := json_items dsp_json_file in
  let dsp_num_inputs := json_inputs dsp_json_file in
  let dsp_num_outputs := json_outputs dsp_json_file in
  let options := json_options dsp_json_file in
  match effect_codebox_file, effect_json_file with
  | Some effect_codebox_code, Some json_data =>
      let effect_items_info_list := json_items json_data in
      let effect_num_inputs := json_inputs json_data in
      let effect_num_outputs := json_outputs json_data in
      nv <- lift (effect_branch_nvoices nvoices (snd options)) ;;
      create_rnbo_patch dsp_name maxpat_path export_path cpp_filename
        dsp_codebox_code dsp_items_info_list dsp_num_inputs dsp_num_outputs
        (midi_or midi (fst options)) nv
        (Some effect_codebox_code) (Some effect_items_info_list)
        effect_num_inputs effect_num_outputs
        compile test subpatcher_flag
  | _, _ =>
      nv <- lift (no_effect_branch_nvoices nvoices (snd options)) ;;
      create_rnbo_patch dsp_name maxpat_path export_path cpp_filename
        dsp_codebox_code dsp_items_info_list dsp_num_inputs dsp_num_outputs
        (midi_or midi (fst options)) nv
        None None (-1) (-1)
        compile test subpatcher_flag
  end.

(** ** Observations of the store *)

Definition boxes_at (p : nat) (w : World) : list Box :=
  boxes (get_patcher p w).

Definition lines_at (p : nat) (w : World) : list Patchline :=
  lines (get_patcher p w).

Definition path_at (p : nat) (w : World) : option string :=
  path (get_patcher p w).

Definition num_patchers (w : World) : nat := List.length (patchers w).

(** The channel adaptation table between the DSP and the effect, as the
    specification gives it: the (outlet of the DSP, inlet of the effect)
    pairs to connect; no edge for any other pair of channel counts. *)
Definition adaptation_edges (dsp_out fx_in : Z) : list (Z * Z) :=
  if Z.eqb dsp_out 1 && Z.eqb fx_in 1 then [(0, 0)]
  else if Z.eqb dsp_out 1 && Z.eqb fx_in 2 then [(0, 0); (0, 1)]
  else if Z.eqb dsp_out 2 && Z.eqb fx_in 1 then [(0, 0); (1, 0)]
  else if Z.eqb dsp_out 2 && Z.eqb fx_in 2 then [(0, 0); (1, 1)]
  else [].

(** The line from outlet [o] of [src] to inlet [i] of [dst]. *)
Definition line_of (src : Box) (o : Z) (dst : Box) (i : Z) : Patchline :=
  mkPatchline (box_id src, o) (box_id dst, i).

(** The MIDI control classes of [midi_mapping]. *)
Definition supported_midi_types : list string :=
  ["ctrl"; "chanpress"; "keyon"; "keyoff"; "key"; "pitchwheel"; "pgm"].

(** The message logged for a MIDI control class that is not supported. *)
Definition unsupported_message (midi_type : string) : string :=
  "MIDI control type '" ++ midi_type ++ "' not supported".


(** [(max - min) / step] can be computed. *)
Definition steps_ok (max_value min_value step : Number) : bool :=
  match steps_value max_value min_value step with
  | Ok _ => true
  | Raise _ => false
  end.

(** The control wiring of the parameter does not raise: it is a button or
    a checkbox, or a slider or numeric entry whose number of steps can be
    computed. *)
Definition item_wiring_ok (item : Item) : bool :=
  str_in (item_type item) ["button"; "checkbox"]
  || steps_ok (item_max item) (item_min item) (item_step item).

(** The outer control of a parameter: an [attrui] box bound to a label. *)
Definition is_attrui_for (label : string) (b : Box) : Prop :=
  box_text b = "attrui" /\
  exists mn mx ini, box_config b = AttruiConfig label 1 mn mx (label, ini) 1.

(** The outer controls of the parameters in the main patcher. *)
Definition is_control_box (b : Box) : Prop :=
  box_class b = Textbox /\ (box_text b = "toggle" \/ box_text b = "attrui").

(** The nodes that only the polyphony sub-graph contains: the note
    input, the key to frequency conversion and the gate comparison. *)
Definition is_polyphony_box (b : Box) : Prop :=
  box_class b = Textbox /\
  (box_text b = "notein" \/ box_text b = "mtof" \/ box_text b = "> 0").

(** The role of a parameter for polyphony, by the suffix of its
    shortname. *)
Definition is_pitch_item (item : Item) : bool :=
  endswith (item_shortname item) "freq" || endswith (item_shortname item) "key".

Definition is_gain_item (item : Item) : bool :=
  endswith (item_shortname item) "gain"
  || endswith (item_shortname item) "velocity".

Definition is_gate_item (item : Item) : bool :=
  endswith (item_shortname item) "gate".

(** The last item of a list that satisfies [f]. *)
Definition last_item (f : Item -> bool) (items : list Item) : option Item :=
  find f (rev items).

(** [w'] is [w] with the boxes [bs] and the lines [ls] added to the
    patcher [p], and possibly more in the log. *)
Definition extends_at (p : nat) (bs : list Box) (ls : list Patchline)
    (w w' : World) : Prop :=
  boxes_at p w' = boxes_at p w ++ bs
  /\ lines_at p w' = lines_at p w ++ ls
  /\ (forall q, q <> p ->
        boxes_at q w' = boxes_at q w /\ lines_at q w' = lines_at q w)
  /\ (forall q, path_at q w' = path_at q w)
  /\ ((p < num_patchers w)%nat -> num_patchers w' = num_patchers w).

(** What handling one parameter adds, from the world [w] to [w']: in the
    sub-patch the relay [set_param], the [param] node, their lines, then
    the MIDI control if any; in the patcher the outer control. *)
Definition item_wired (patcher sub_patch : nat) (rnbo codebox : Box)
    (label : string) (set_param : Box) (w w' : World) : Prop :=
  exists param sb sl ctrl cl param_wrap,
    boxes_at sub_patch w' = boxes_at sub_patch w ++ set_param :: param :: sb
    /\ lines_at sub_patch w' =
         lines_at sub_patch w ++
         line_of param 0 set_param 0 :: line_of set_param 0 codebox 0 :: sl
    /\ set_param =
         mkBox (next_id sub_patch w) Textbox ("set " ++ label) None None
           NoConfig
    /\ box_class param = Textbox
    /\ prefix ("param " ++ label ++ " ") (box_text param) = true
    /\ ~ is_polyphony_box param
    /\ Forall (fun b => ~ is_polyphony_box b) sb
    /\ boxes_at patcher w' = boxes_at patcher w ++ ctrl
    /\ Forall is_control_box ctrl
    /\ lines_at patcher w' = lines_at patcher w ++ cl
    /\ In param_wrap ctrl
    /\ is_attrui_for label param_wrap
    /\ In (line_of param_wrap 0 rnbo 0) cl
    /\ (forall q, path_at q w' = path_at q w)
    /\ num_patchers w' = num_patchers w.

(** The pitch path goes through the key to frequency conversion when the
    last pitch parameter is a frequency; the gain path goes through the
    velocity rescaling when the last gain parameter is a gain. *)
Definition freq_mode (items : list Item) : bool :=
  match last_item is_pitch_item items with
  | Some it => endswith (item_shortname it) "freq"
  | None => false
  end.

Definition gain_mode (items : list Item) : bool :=
  match last_item is_gain_item items with
  | Some it => endswith (item_shortname it) "gain"
  | None => false
  end.

Definition item_label (test : bool) (item : Item) : string :=
  build_label (item_type item) (item_shortname item) test.

(** The local [o] holds the relay of the item [last], if any. *)
Definition relay_for (sub_patch : nat) (test : bool) (o : option Box)
    (last : option Item) (w : World) : Prop :=
  match last with
  | None => o = None
  | Some it =>
      exists b, o = Some b /\ In b (boxes_at sub_patch w)
                /\ box_text b = ("set " ++ item_label test it)%string
  end.

Definition roles_inv (sub_patch : nat) (test : bool) (done : list Item)
    (loc : PolyLocals) (w : World) : Prop :=
  relay_for sub_patch test (set_param_pitch loc)
    (last_item is_pitch_item done) w
  /\ relay_for sub_patch test (set_param_gain loc)
       (last_item is_gain_item done) w
  /\ relay_for sub_patch test (set_param_gate loc)
       (last_item is_gate_item done) w
  /\ is_freq loc = freq_mode done
  /\ is_gain loc = gain_mode done.

(** The control wiring of the parameter labelled [label] is in the
    patch: relay and [param] node in the sub-patch, outer control in the
    patcher. *)
Definition wiring_present (patcher sub_patch : nat) (rnbo codebox : Box)
    (label : string) (w : World) : Prop :=
  exists set_param param param_wrap,
    In set_param (boxes_at sub_patch w)
    /\ box_text set_param = ("set " ++ label)%string
    /\ In param (boxes_at sub_patch w)
    /\ prefix ("param " ++ label ++ " ") (box_text param) = true
    /\ In (line_of param 0 set_param 0) (lines_at sub_patch w)
    /\ In (line_of set_param 0 codebox 0) (lines_at sub_patch w)
    /\ In param_wrap (boxes_at patcher w)
    /\ is_attrui_for label param_wrap
    /\ In (line_of param_wrap 0 rnbo 0) (lines_at patcher w).

(** From [w0] to [w], inside the construction of a unit: controls added
    to the patcher, and boxes that are not polyphony nodes to the
    sub-patch. *)
Definition grown (patcher sub_patch : nat) (w0 w : World) : Prop :=
  num_patchers w = num_patchers w0
  /\ (forall q, path_at q w = path_at q w0)
  /\ (exists ctrl cl,
        boxes_at patcher w = boxes_at patcher w0 ++ ctrl
        /\ Forall is_control_box ctrl
        /\ lines_at patcher w = lines_at patcher w0 ++ cl)
  /\ (exists sb sl,
        boxes_at sub_patch w = boxes_at sub_patch w0 ++ sb
        /\ Forall (fun b => ~ is_polyphony_box b) sb
        /\ lines_at sub_patch w = lines_at sub_patch w0 ++ sl).

Definition is_textbox (text : string) (b : Box) : Prop :=
  box_class b = Textbox /\ box_text b = text.

(** The polyphony sub-graph, after the boxes [pre] and the lines
    [pre_lines] of the sub-patch: the note input, the pitch path (through
    [mtof] in frequency mode), the gain path (through the rescaling of
    the velocity in gain mode) and the gate path through [> 0]. *)
Definition polyphony_subgraph (sub_patch : nat) (pitch gain gate : Box)
    (fm gm : bool) (pre : list Box) (pre_lines : list Patchline)
    (w : World) : Prop :=
  exists note_in mtof scale_gain gate_op,
    is_textbox "notein" note_in
    /\ is_textbox "mtof" mtof
    /\ is_textbox "scale 0 127 0 1" scale_gain
    /\ is_textbox "> 0" gate_op
    /\ boxes_at sub_patch w =
         pre ++ note_in :: (if fm then [mtof] else [])
             ++ (if gm then [scale_gain] else []) ++ [gate_op]
    /\ lines_at sub_patch w =
         pre_lines
         ++ (if fm then [line_of note_in 0 mtof 0; line_of mtof 0 pitch 0]
             else [line_of note_in 0 pitch 0])
         ++ (if gm then [line_of note_in 1 scale_gain 0;
                         line_of scale_gain 0 gain 0]
             else [line_of note_in 1 gain 0])
         ++ [line_of note_in 1 gate_op 0; line_of gate_op 0 gate 0].

(** The relay of the item [it] is among the boxes [pre]. *)
Definition relay_in (test : bool) (it : Item) (relay : Box)
    (pre : list Box) : Prop :=
  In relay pre /\ box_text relay = ("set " ++ item_label test it)%string.

(** The polyphony of a unit: when the unit is MIDI-enabled with a
    positive voice count and a last pitch, gain and gate parameter exist,
    the sub-patch ends with the polyphony sub-graph wired to their
    relays; otherwise the sub-patch has no polyphony node. *)
Definition polyphony_outcome (sub_patch : nat) (items : list Item)
    (midi : bool) (nvoices : Z) (test : bool) (w : World) : Prop :=
  match (if midi && Z.ltb 0 nvoices
         then (last_item is_pitch_item items,
               last_item is_gain_item items,
               last_item is_gate_item items)
         else (None, None, None)) with
  | (Some ip, Some ig, Some it) =>
      exists pre pre_lines pitch gain gate,
        Forall (fun b => ~ is_polyphony_box b) pre
        /\ relay_in test ip pitch pre
        /\ relay_in test ig gain pre
        /\ relay_in test it gate pre
        /\ polyphony_subgraph sub_patch pitch gain gate
             (freq_mode items) (gain_mode items) pre pre_lines w
  | _ => Forall (fun b => ~ is_polyphony_box b) (boxes_at sub_patch w)
  end.

(** The unit built by [add_rnbo_object] from the world [w]: the [rnbo~]
    box returned, its sub-patcher at the next address of the store, and
    what the patcher and the sub-patch contain. *)
Definition unit_built (patcher : nat) (dsp_name codebox_code : string)
    (items : list Item) (midi : bool) (nvoices : Z) (test : bool)
    (num_inputs : Z) (inlets outlets : Z) (inletInfo outletInfo : IOInfoDict)
    (w : World) (rnbo : Box) (w' : World) : Prop :=
  let sub_patch := num_patchers w in
  let codebox := mkBox 1 CodeboxTilde codebox_code None None NoConfig in
  rnbo = mkBox (next_id patcher w) Rnbo "rnbo~" (Some inlets) (Some outlets)
           (RnboConfig dsp_name inletInfo outletInfo
              (mkRnboAttributes "O3" dsp_name 1
                 (if midi && Z.ltb 0 nvoices then Some nvoices else None))
              sub_patch)
  /\ num_patchers w' = S (num_patchers w)
  /\ (forall q, q <> sub_patch -> path_at q w' = path_at q w)
  /\ (exists ctrl cl,
        boxes_at patcher w' = boxes_at patcher w ++ rnbo :: ctrl
        /\ Forall is_control_box ctrl
        /\ lines_at patcher w' = lines_at patcher w ++ cl)
  /\ (exists rest, boxes_at sub_patch w' = codebox :: rest)
  /\ (num_inputs = 0 ->
      exists in1, In in1 (boxes_at sub_patch w')
                  /\ is_textbox "in~ 1" in1
                  /\ In (line_of in1 0 codebox 0) (lines_at sub_patch w'))
  /\ (forall it, In it items ->
        wiring_present patcher sub_patch rnbo codebox (item_label test it) w')
  /\ polyphony_outcome sub_patch items midi nvoices test w'.

(** ** Sample inputs *)

Definition sample_slider (shortname : string) (midi : list string) : Item :=
  mkItem shortname "hslider" (NFloat "0.5") (NInt 0) (NInt 1) (NFloat "0.01")
    midi.

Definition sample_button (shortname : string) : Item :=
  mkItem shortname "button" (NInt 0) (NInt 0) (NInt 1) (NInt 1) [].


(** The parameters of a polyphonic voice. *)
Definition voice_items : list Item :=
  [sample_slider "voice_freq" []; sample_slider "voice_gain" [];
   sample_button "voice_gate"].

(** The same, followed by a parameter whose shortname ends in [key]. *)
Definition voice_items_with_key : list Item :=
  voice_items ++ [sample_slider "note_key" []].

(** A store that holds the main patcher only, at address 0. *)
Definition main_only : World := alloc_patcher (Some "synth.maxpat") empty_world.

(** From [w] to [w'], the patcher [p] gets the boxes [bs] and the lines
    [ls]; the store may get new patchers. *)
Definition patcher_grows (p : nat) (bs : list Box) (ls : list Patchline)
    (w w' : World) : Prop :=
  boxes_at p w' = boxes_at p w ++ bs
  /\ lines_at p w' = lines_at p w ++ ls
  /\ path_at p w' = path_at p w
  /\ (num_patchers w <= num_patchers w')%nat.

(** The boxes of the export machinery. *)
Definition is_machinery (b : Box) : Prop :=
  box_class b = Message
  \/ (box_class b = Textbox
      /\ In (box_text b)
           ["loadbang"; "t b b s"; "dict"; "route dictionary";
            "route targetconfig"]).

(** The port plan of a unit is computed and its parameters can be wired. *)
Definition unit_inputs_ok (midi : bool) (num_inputs num_outputs : Z)
    (items : list Item) : Prop :=
  (exists plan, generate_io_info midi num_inputs num_outputs = Ok plan)
  /\ Forall (fun it => item_wiring_ok it = true) items.

(** The lines from the global MIDI nodes to a unit. *)
Definition midi_lines (midi_in midi_out rnbo : Box) : list Patchline :=
  [line_of midi_in 0 rnbo (numinlets rnbo - 1);
   line_of rnbo (numoutlets rnbo - 3) midi_out 0].

(** The part of the main patcher that comes from the effect, if any, and
    the last unit of the signal chain with its number of outputs. *)
Definition effect_part (main : nat) (midi : bool) (fx_code : option string)
    (fx_items : list Item) (fx_inputs fx_outputs dsp_outputs : Z)
    (dsp_rnbo midi_in midi_out : Box)
    (fx_boxes : list Box) (fx_lines : list Patchline)
    (last_rnbo : Box) (last_outputs : Z) : Prop :=
  match fx_code with
  | Some code =>
      exists effect_rnbo we0 we ctrl_e cl_e inlets outlets ii oi,
        (main < num_patchers we0)%nat
        /\ add_rnbo_object main "Effect" code fx_items midi (-1) false
             fx_inputs fx_outputs we0 = Ok (effect_rnbo, we)
        /\ generate_io_info midi fx_inputs fx_outputs
           = Ok (inlets, outlets, ii, oi)
        /\ unit_built main "Effect" code fx_items midi (-1) false
             fx_inputs inlets outlets ii oi we0 effect_rnbo we
        /\ fx_boxes = effect_rnbo :: ctrl_e
        /\ Forall is_control_box ctrl_e
        /\ fx_lines =
             cl_e
             ++ map (fun e => line_of dsp_rnbo (fst e) effect_rnbo (snd e))
                  (adaptation_edges dsp_outputs fx_inputs)
             ++ (if midi then midi_lines midi_in midi_out effect_rnbo
                 else [])
        /\ last_rnbo = effect_rnbo
        /\ last_outputs = fx_outputs
  | None =>
      fx_boxes = [] /\ fx_lines = []
      /\ last_rnbo = dsp_rnbo /\ last_outputs = dsp_outputs
  end.

(** The audio input terminal, created when the DSP has inputs, and wired
    to the DSP unit. *)
Definition audio_input_part (dsp_inputs : Z) (dsp_rnbo : Box)
    (adc_boxes : list Box) (adc_lines : list Patchline) : Prop :=
  if Z.ltb 0 dsp_inputs then
    exists adc,
      adc_boxes = [adc]
      /\ is_textbox ("adc~ " ++ channel_numbers dsp_inputs) adc
      /\ adc_lines =
           map (fun i => line_of adc i dsp_rnbo i) (py_range 0 dsp_inputs)
  else adc_boxes = [] /\ adc_lines = [].

(** The main patcher of the patch built by [create_rnbo_patch], in the
    final world [w']: the comment, the DSP unit and its controls, the
    MIDI nodes, the effect, the export machinery, the audio terminals. *)
Definition patch_built (main : nat) (dsp_name dsp_code : string)
    (dsp_items : list Item) (dsp_inputs dsp_outputs : Z) (midi : bool)
    (nvoices : Z) (test : bool) (fx_code : option string)
    (fx_items : list Item) (fx_inputs fx_outputs : Z) (compile : bool)
    (w' : World) : Prop :=
  exists comment_box dsp_rnbo wd0 wd ctrl_d cl_d midi_in midi_out
         fx_boxes fx_lines last_rnbo last_outputs cmp_boxes cmp_lines
         toggle dac adc_boxes adc_lines inlets outlets ii oi,
    (main < num_patchers wd0)%nat
    /\ add_rnbo_object main dsp_name dsp_code dsp_items midi nvoices test
         dsp_inputs dsp_outputs wd0 = Ok (dsp_rnbo, wd)
    /\ generate_io_info midi dsp_inputs dsp_outputs
       = Ok (inlets, outlets, ii, oi)
    /\ unit_built main dsp_name dsp_code dsp_items midi nvoices test
         dsp_inputs inlets outlets ii oi wd0 dsp_rnbo wd
    /\ boxes_at main w' =
         comment_box :: dsp_rnbo :: ctrl_d
         ++ (if midi then [midi_in; midi_out] else [])
         ++ fx_boxes ++ cmp_boxes ++ toggle :: dac :: adc_boxes
    /\ lines_at main w' =
         cl_d
         ++ (if midi then midi_lines midi_in midi_out dsp_rnbo else [])
         ++ fx_lines ++ cmp_lines
         ++ line_of toggle 0 dac 0
            :: map (fun i => line_of last_rnbo i dac i)
                 (py_range 0 last_outputs)
         ++ adc_lines
    /\ box_class comment_box = Comment
    /\ Forall is_control_box ctrl_d
    /\ is_textbox "midiin" midi_in
    /\ is_textbox "midiout" midi_out
    /\ effect_part main midi fx_code fx_items fx_inputs fx_outputs
         dsp_outputs dsp_rnbo midi_in midi_out fx_boxes fx_lines
         last_rnbo last_outputs
    /\ Forall is_machinery cmp_boxes
    /\ (compile = false -> cmp_boxes = [] /\ cmp_lines = [])
    /\ is_textbox "toggle" toggle
    /\ is_textbox ("dac~ " ++ channel_numbers last_outputs) dac
    /\ audio_input_part dsp_inputs dsp_rnbo adc_boxes adc_lines.

(** An audio input terminal. *)
Definition is_audio_input (b : Box) : Prop :=
  box_class b = Textbox /\ prefix "adc~ " (box_text b) = true.

(** A global MIDI node. *)
Definition is_midi_node (b : Box) : Prop :=
  is_textbox "midiin" b \/ is_textbox "midiout" b.

(** The [rnbo~] box of the unit titled [name]. *)
Definition is_unit (name : string) (b : Box) : Prop :=
  box_class b = Rnbo
  /\ exists ii oi sub,
       box_config b =
         RnboConfig name ii oi (mkRnboAttributes "O3" name 1 None) sub.

(** A patch with a MIDI-enabled DSP and an effect, both without
    parameters. *)
Definition midi_patch_with_effect : Result (unit * World) :=
  create_rnbo_patch "synth" "synth.maxpat" "export" "synth.cpp" "dsp code"
    [] 0 2 true 0 (Some "fx code") (Some []) 2 2 false false false
    empty_world.

(** A patch whose DSP has one audio input, followed by an effect. *)
Definition input_patch_with_effect : Result (unit * World) :=
  create_rnbo_patch "synth" "synth.maxpat" "export" "synth.cpp" "dsp code"
    [] 1 1 false 0 (Some "fx code") (Some []) 1 1 false false false
    empty_world.


(** ** Definitions for the properties of the single functions *)

(** The signal entries of the port metadata: one entry per channel,
    numbered from 1. *)
Definition signal_entries (pfx : string) (n : Z) : list IOEntry :=
  map (fun k => mkIOEntry "" k (pfx ++ str_int k) "signal")
      (py_range 1 (n + 1)).

(** The entry of a MIDI port. *)
Definition midi_entry (pfx : string) (k : Z) : IOEntry :=
  mkIOEntry "" k (pfx ++ str_int k) "midi".

(** A string without underscore, as the widget types of Faust are. *)
Definition no_underscore (s : string) : Prop :=
  ~ In "_"%char (list_ascii_of_string s).

(** A computation keeps the relation [R] between the world it starts from
    and the world it returns. *)
Definition keeps {A : Type} (R : World -> World -> Prop) (m : M A) : Prop :=
  forall w a w', m w = Ok (a, w') -> R w w'.

(** A relation that the construction steps keep: a preorder that holds
    across a box or a line added to a patcher that satisfies [frame_ok],
    and across the creation of a patcher; to show it from a world one may
    assume [frame_ok] of the address of the next patcher. *)
Class Frame (R : World -> World -> Prop) : Type := {
  frame_ok : nat -> Prop;
  frame_refl : forall w, R w w;
  frame_trans : forall w1 w2 w3, R w1 w2 -> R w2 w3 -> R w1 w3;
  frame_box : forall p b w, frame_ok p -> R w (push_box p b w);
  frame_line : forall p l w, frame_ok p -> R w (push_line p l w);
  frame_alloc : forall path w, R w (alloc_patcher path w);
  frame_fresh : forall w w', (frame_ok (num_patchers w) -> R w w') -> R w w'
}.

(** The relation holds across logging. *)
Class LogFrame (R : World -> World -> Prop) : Prop :=
  frame_log : forall msg w, R w (push_log msg w).

(** The relation holds across saving to a file. *)
Class SaveFrame (R : World -> World -> Prop) : Prop :=
  frame_saved : forall p f w, R w (push_saved p f w).

(** Nothing is written to a file. *)
Definition same_saved (w w' : World) : Prop := saved w' = saved w.

(** Nothing is logged. *)
Definition same_log (w w' : World) : Prop := log w' = log w.

(** The patchers keep their path, and their address stays valid. *)
Definition same_paths (w w' : World) : Prop :=
  forall p, (p < num_patchers w)%nat ->
    (p < num_patchers w')%nat /\ path_at p w' = path_at p w.

(** The first [n] patchers of the store are left as they are, and what
    was logged and saved stays; [n] is at most the size of the store. *)
Definition untouched (n : nat) (w w' : World) : Prop :=
  (n <= num_patchers w)%nat ->
  (n <= num_patchers w')%nat
  /\ (forall p, (p < n)%nat ->
        boxes_at p w' = boxes_at p w
        /\ lines_at p w' = lines_at p w
        /\ path_at p w' = path_at p w)
  /\ (exists l, log w' = log w ++ l)
  /\ (exists s, saved w' = saved w ++ s).

(** The error messages that handling a parameter logs. *)
Definition item_messages (midi : bool) (item : Item) : list string :=
  if midi then
    match item_midi item with
    | midi_type :: _ =>
        if str_in midi_type supported_midi_types then []
        else [unsupported_message midi_type]
    | [] => []
    end
  else [].

(** The error messages that building a unit logs. *)
Definition unit_messages (midi : bool) (items : list Item) : list string :=
  flat_map (item_messages midi) items.

(** A string without dot. *)
Definition no_dot (s : string) : Prop :=
  ~ In "."%char (list_ascii_of_string s).

(** The patchers only get more boxes and lines, after those they have. *)
Definition only_adds (w w' : World) : Prop :=
  forall p,
    (exists bs, boxes_at p w' = boxes_at p w ++ bs)
    /\ (exists ls, lines_at p w' = lines_at p w ++ ls).

(** The patcher [sub_patch] has a text box [text] with the line that
    [mk_line] makes of it. *)
Definition port_wired (sub_patch : nat) (text : string)
    (mk_line : Box -> Patchline) (w : World) : Prop :=
  exists b,
    In b (boxes_at sub_patch w)
    /\ is_textbox text b
    /\ In (mk_line b) (lines_at sub_patch w).

(** ** Sample runs *)

(** A volume slider bound to an unknown MIDI control class, and a gate. *)
Definition sample_items : list Item :=
  [sample_slider "vol" ["foo"; "1"]; sample_button "gate"].

(** The data read from the JSON file of a DSP with two outputs. *)
Definition sample_json : JsonData :=
  mkJsonData sample_items 0 2 (Some true, Some 4).

(** A MIDI-enabled patch with an effect, the export machinery and the
    sub-patcher files, built in a store that holds one patcher. *)
Definition sample_patch : Result (unit * World) :=
  create_rnbo_patch "synth" "out/synth.maxpat" "export" "synth.cpp"
    "dsp code" sample_items 0 2 true 4 (Some "fx code")
    (Some [sample_slider "mix" ["bar"]]) 2 2 true false true main_only.

(** A conversion without effect, in a store that holds one patcher. *)
Definition sample_conversion : Result (unit * World) :=
  load_files_create_rnbo_patch "synth" "dsp code" sample_json None None
    "out/synth.maxpat" "export" "synth.cpp" false None false false false
    main_only.

(** ** The JSON description of a DSP

    [json.load] gives the description as Python values: a JSON object is
    a [dict] (an association list with distinct keys, in the order of the
    file), an array a [list].  The functions below are defined on all
    JSON values, with the exceptions Python raises on values of the wrong
    kind.  Strings are sequences of characters with a code below 256, so
    that the decimal digits are [0] to [9]; [int] is applied to digit
    strings below the interpreter's limit on the length of decimal
    strings. *)

Local Unset Elimination Schemes.

Inductive Json : Type :=
| JNull
| JBool (b : bool)
| JNum (n : Number)
| JStr (s : string)
| JArr (l : list Json)
| JObj (d : list (string * Json)).

Local Set Elimination Schemes.

Inductive JsonError : Type :=
| JKeyError (key : string)
| JTypeError
| JAttributeError (name : string).

Inductive Outcome (A : Type) : Type :=
| Returns (a : A)
| Raises (e : JsonError).

Arguments Returns {A} a.
Arguments Raises {A} e.

Definition outcome_bind {A B : Type} (m : Outcome A) (f : A -> Outcome B)
    : Outcome B :=
  match m with
  | Returns a => f a
  | Raises e => Raises e
  end.

Declare Scope json_scope.
Delimit Scope json_scope with json.
Notation "x <- c1 ;; c2" := (outcome_bind c1 (fun x => c2))
  (at level 61, c1 at next level, right associativity) : json_scope.

(** [sub in s] for two strings. *)
Fixpoint contains (sub s : string) : bool :=
  prefix sub s
  || match s with
     | EmptyString => false
     | String _ s' => contains sub s'
     end.

Definition has_key (k : string) (d : list (string * Json)) : bool :=
  match dict_get k d with Some _ => true | None => false end.

Definition is_str (x : string) (v : Json) : bool :=
  match v with JStr s => String.eqb s x | _ => false end.

(** [x in c] for a string [x]: a key of a dict, a part of a string, an
    element of a list. *)
Definition py_in (x : string) (c : Json) : Outcome bool :=
  match c with
  | JObj d => Returns (has_key x d)
  | JStr s => Returns (contains x s)
  | JArr l => Returns (existsb (is_str x) l)
  | _ => Raises JTypeError
  end.

(** [c[k]] for a string [k] *)
Definition py_getitem (c : Json) (k : string) : Outcome Json :=
  match c with
  | JObj d =>
      match dict_get k d with
      | Some v => Returns v
      | None => Raises (JKeyError k)
      end
  | _ => Raises JTypeError
  end.

(** [c.get(k, default)] *)
Definition py_get (c : Json) (k : string) (default : Json) : Outcome Json :=
  match c with
  | JObj d =>
      Returns (match dict_get k d with Some v => v | None => default end)
  | _ => Raises (JAttributeError "get")
  end.

(** The values that [for x in c] goes through. *)
Definition py_iter (c : Json) : Outcome (list Json) :=
  match c with
  | JArr l => Returns l
  | JObj d => Returns (map (fun kv => JStr (fst kv)) d)
  | JStr s =>
      Returns (map (fun ch => JStr (String ch EmptyString))
                 (list_ascii_of_string s))
  | _ => Raises JTypeError
  end.

(** *** [get_midi_and_nvoices] *)

Definition is_digit (c : ascii) : bool :=
  (Nat.leb 48 (nat_of_ascii c) && Nat.leb (nat_of_ascii c) 57)%bool.

(** The longest prefix of digits, and what follows it. *)
Fixpoint take_digits (s : string) : string * string :=
  match s with
  | EmptyString => (EmptyString, EmptyString)
  | String c s' =>
      if is_digit c then
        let '(d, r) := take_digits s' in (String c d, r)
      else (EmptyString, s)
  end.

Fixpoint skip (n : nat) (s : string) : string :=
  match n, s with
  | O, _ => s
  | S n', String _ s' => skip n' s'
  | S _, EmptyString => EmptyString
  end.

(** A match of [\[nvoices:(\d+)\]] at the start of [s]: its group. *)
Definition match_nvoices (s : string) : option string :=
  if prefix "[nvoices:" s then
    match take_digits (skip 9 s) with
    | (String c d, String "]" _) => Some (String c d)
    | _ => None
    end
  else None.

(** [re.search(r"\[nvoices:(\d+)\]", s)]: the group of the leftmost
    match. *)
Fixpoint search_nvoices (s : string) : option string :=
  match match_nvoices s with
  | Some d => Some d
  | None =>
      match s with
      | EmptyString => None
      | String _ s' => search_nvoices s'
      end
  end.

(** [int(d)] for a string of digits. *)
Definition py_int (d : string) : Z :=
  fold_left (fun acc c => 10 * acc + (Z.of_nat (nat_of_ascii c) - 48))
    (list_ascii_of_string d) 0.

(** [re.search] on a value: a [TypeError] unless it is a string. *)
Definition re_search_nvoices (options : Json) : Outcome (option string) :=
  match options with
  | JStr s => Returns (search_nvoices s)
  | _ => Raises JTypeError
  end.

(** The loop on the global meta section, left at the first item with
    options. *)
Fixpoint meta_loop (global_meta : list Json)
    : Outcome (option bool * option Z) :=
  match global_meta with
  | [] => Returns (None, None)
  | meta_item :: rest =>
      (has_options <- py_in "options" meta_item ;;
       if has_options then
         options <- py_getitem meta_item "options" ;;
         midi_state <- py_in "[midi:on]" options ;;
         nvoices_match <- re_search_nvoices options ;;
         Returns (Some midi_state,
                  match nvoices_match with
                  | Some d => Some (py_int d)
                  | None => None
                  end)
       else meta_loop rest)%json
  end.

Definition get_midi_and_nvoices (json_data : Json)
    : Outcome (option bool * option Z) :=
  (global_meta <- py_getitem json_data "meta" ;;
   meta_items <- py_iter global_meta ;;
   meta_loop meta_items)%json.

(** *** [extract_items_info] *)

(** Python's white space, among the characters below 256. *)
Definition is_space (c : ascii) : bool :=
  let n := nat_of_ascii c in
  ((Nat.leb 9 n && Nat.leb n 13) || (Nat.leb 28 n && Nat.leb n 32)
   || Nat.eqb n 133 || Nat.eqb n 160)%bool.

(** [s.split()]: [cur] is the word being read. *)
Fixpoint split_from (cur : string) (s : string) : list string :=
  match s with
  | EmptyString =>
      match cur with EmptyString => [] | _ => [cur] end
  | String c s' =>
      if is_space c then
        match cur with
        | EmptyString => split_from EmptyString s'
        | _ => cur :: split_from EmptyString s'
        end
      else split_from (cur ++ String c EmptyString) s'
  end.

Definition py_split (s : string) : list string := split_from EmptyString s.

(** [v.split()] on a value *)
Definition split_value (v : Json) : Outcome (list string) :=
  match v with
  | JStr s => Returns (py_split s)
  | _ => Raises (JAttributeError "split")
  end.

(** An entry of the list that [extract_items_info] returns, with the
    values as they are in the JSON data. *)
Record RawItem : Type := mkRawItem {
  raw_shortname : Json;
  raw_type : Json;
  raw_init : Json;
  raw_min : Json;
  raw_max : Json;
  raw_step : Json;
  raw_midi : list string
}.

(** The loop on the meta section of an item. *)
Fixpoint midi_info_loop (metas : list Json) : Outcome (list string) :=
  match metas with
  | [] => Returns []
  | meta_item :: rest =>
      (has_midi <- py_in "midi" meta_item ;;
       tokens <-
         (if has_midi then
            v <- py_getitem meta_item "midi" ;; split_value v
          else Returns []) ;;
       more <- midi_info_loop rest ;;
       Returns (tokens ++ more))%json
  end.

Definition json_zero : Json := JNum (NInt 0).
Definition json_one : Json := JNum (NInt 1).

(** What the body of the loop of [extract_from_ui] appends for the item
    [d] itself. *)
Definition own_items (d : list (string * Json)) : Outcome (list RawItem) :=
  let item := JObj d in
  (shortname <- py_get item "shortname" (JStr "") ;;
   item_type <- py_get item "type" (JStr "") ;;
   metas <- py_get item "meta" (JArr []) ;;
   meta_items <- py_iter metas ;;
   midi_info <- midi_info_loop meta_items ;;
   if is_str "button" item_type || is_str "checkbox" item_type then
     Returns [mkRawItem shortname item_type json_zero json_zero json_one
                json_one midi_info]
   else if has_key "min" d && has_key "max" d && has_key "step" d then
     init <- py_get item "init" json_zero ;;
     min <- py_getitem item "min" ;;
     max <- py_getitem item "max" ;;
     step <- py_getitem item "step" ;;
     Returns [mkRawItem shortname item_type init min max step midi_info]
   else Returns [])%json.

(** [extract_from_ui]: the loop on a list of items, the items of each
    group after the group itself. *)
Fixpoint extract_from_ui (ui_items : Json) : Outcome (list RawItem) :=
  match ui_items with
  | JArr l =>
      (fix loop (l : list Json) : Outcome (list RawItem) :=
         match l with
         | [] => Returns []
         | item :: rest =>
             match item with
             | JObj d =>
                 (own <- own_items d ;;
                  sub <-
                    (fix find (d' : list (string * Json))
                         : Outcome (list RawItem) :=
                       match d' with
                       | [] => Returns []
                       | (k, v) :: r =>
                           if String.eqb "items" k then extract_from_ui v
                           else find r
                       end) d ;;
                  others <- loop rest ;;
                  Returns (own ++ sub ++ others))%json
             | _ => Raises (JAttributeError "get")
             end
         end) l
  | JObj [] => Returns []
  | JObj (_ :: _) => Raises (JAttributeError "get")
  | JStr EmptyString => Returns []
  | JStr (String _ _) => Raises (JAttributeError "get")
  | _ => Raises JTypeError
  end.

Definition extract_items_info (json_data : Json) : Outcome (list RawItem) :=
  (has_ui <- py_in "ui" json_data ;;
   if has_ui then
     ui_section <- py_getitem json_data "ui" ;;
     extract_from_ui ui_section
   else Returns [])%json.

(** What [load_files_create_rnbo_patch] reads from the JSON file of the
    DSP: the items, the numbers of inputs and outputs, the options. *)
Definition read_json (json_data : Json)
    : Outcome (list RawItem * Json * Json * (option bool * option Z)) :=
  (items_info_list <- extract_items_info json_data ;;
   num_inputs <- py_get json_data "inputs" json_zero ;;
   num_outputs <- py_get json_data "outputs" json_zero ;;
   options <- get_midi_and_nvoices json_data ;;
   Returns (items_info_list, num_inputs, num_outputs, options))%json.

(** The items whose values have the types of the Faust descriptions, as
    the construction functions take them. *)
Definition item_of_raw (r : RawItem) : option Item :=
  match raw_shortname r, raw_type r, raw_init r, raw_min r, raw_max r,
        raw_step r with
  | JStr shortname, JStr type, JNum init, JNum min, JNum max, JNum step =>
      Some (mkItem shortname type init min max step (raw_midi r))
  | _, _, _, _, _, _ => None
  end.

(** A meta item that is a dict without options. *)
Definition no_options (v : Json) : Prop :=
  exists d, v = JObj d /\ has_key "options" d = false.

(** A string of decimal digits. *)
Definition all_digits (s : string) : Prop :=
  forallb is_digit (list_ascii_of_string s) = true.

(** A string without opening bracket. *)
Definition no_bracket (s : string) : Prop :=
  ~ In "["%char (list_ascii_of_string s).

(** [options[1] if options[1] else -1] for the voice count read from the
    JSON file: a voice count of 0 counts as none. *)
Definition json_voice_count (json_nvoices : option Z) : Z :=
  match json_nvoices with
  | Some k => if Z.eqb k 0 then (-1) else k
  | None => (-1)
  end.

(** A word: not empty, and without white space. *)
Definition no_space (s : string) : Prop :=
  forallb (fun c => negb (is_space c)) (list_ascii_of_string s) = true.

Definition clean_token (s : string) : Prop := s <> "" /\ no_space s.

(** A button or a checkbox. *)
Definition is_switch (item_type : Json) : bool :=
  is_str "button" item_type || is_str "checkbox" item_type.

(** An entry as [extract_items_info] makes them: a button or a checkbox
    has the range of a switch, and the MIDI binding is a list of words. *)
Definition item_normal (r : RawItem) : Prop :=
  (is_switch (raw_type r) = true ->
   raw_init r = json_zero /\ raw_min r = json_zero
   /\ raw_max r = json_one /\ raw_step r = json_one)
  /\ Forall clean_token (raw_midi r).

(** [item.get(k, default)] on a dict *)
Definition get_or (k : string) (d : list (string * Json)) (default : Json)
    : Json :=
  match dict_get k d with Some v => v | None => default end.

(** * Properties *)

(** ** The store of patchers *)

Lemma nth_store_same (p : nat) (x : Patcher) (l : list Patcher) :
  nth p (store_patcher p x l) empty_patcher = x.
Proof.
  revert l; induction p as [|p IH]; intros [|h t]; simpl; auto.
Qed.

Lemma nth_store_other (p q : nat) (x : Patcher) (l : list Patcher) :
  q <> p ->
  nth q (store_patcher p x l) empty_patcher = nth q l empty_patcher.
Proof.
  revert q l; induction p as [|p IH]; intros [|q] [|h t] Hne; simpl;
    try congruence; auto;
    try (rewrite IH by congruence); destruct q; reflexivity.
Qed.

Lemma length_store (p : nat) (x : Patcher) (l : list Patcher) :
  List.length (store_patcher p x l) = Nat.max (S p) (List.length l).
Proof.
  revert l; induction p as [|p IH]; intros [|h t]; simpl; auto;
    rewrite IH; reflexivity.
Qed.

Lemma get_set_same (p : nat) (x : Patcher) (w : World) :
  get_patcher p (set_patcher p x w) = x.
Proof. apply nth_store_same. Qed.

Lemma get_set_other (p q : nat) (x : Patcher) (w : World) :
  q <> p -> get_patcher q (set_patcher p x w) = get_patcher q w.
Proof. apply nth_store_other. Qed.

(** Observations after each primitive update. *)

Lemma boxes_push_box (q p : nat) (b : Box) (w : World) :
  boxes_at q (push_box p b w) =
  if Nat.eqb q p then boxes_at q w ++ [b] else boxes_at q w.
Proof.
  unfold boxes_at, push_box.
  destruct (Nat.eqb_spec q p) as [->|Hne].
  - rewrite get_set_same. reflexivity.
  - rewrite get_set_other by assumption. reflexivity.
Qed.

Lemma lines_push_box (q p : nat) (b : Box) (w : World) :
  lines_at q (push_box p b w) = lines_at q w.
Proof.
  unfold lines_at, push_box.
  destruct (Nat.eq_dec q p) as [->|Hne].
  - rewrite get_set_same. reflexivity.
  - rewrite get_set_other by assumption. reflexivity.
Qed.

Lemma path_push_box (q p : nat) (b : Box) (w : World) :
  path_at q (push_box p b w) = path_at q w.
Proof.
  unfold path_at, push_box.
  destruct (Nat.eq_dec q p) as [->|Hne].
  - rewrite get_set_same. reflexivity.
  - rewrite get_set_other by assumption. reflexivity.
Qed.

Lemma boxes_push_line (q p : nat) (l : Patchline) (w : World) :
  boxes_at q (push_line p l w) = boxes_at q w.
Proof.
  unfold boxes_at, push_line.
  destruct (Nat.eq_dec q p) as [->|Hne].
  - rewrite get_set_same. reflexivity.
  - rewrite get_set_other by assumption. reflexivity.
Qed.

Lemma lines_push_line (q p : nat) (l : Patchline) (w : World) :
  lines_at q (push_line p l w) =
  if Nat.eqb q p then lines_at q w ++ [l] else lines_at q w.
Proof.
  unfold lines_at, push_line.
  destruct (Nat.eqb_spec q p) as [->|Hne].
  - rewrite get_set_same. reflexivity.
  - rewrite get_set_other by assumption. reflexivity.
Qed.

Lemma path_push_line (q p : nat) (l : Patchline) (w : World) :
  path_at q (push_line p l w) = path_at q w.
Proof.
  unfold path_at, push_line.
  destruct (Nat.eq_dec q p) as [->|Hne].
  - rewrite get_set_same. reflexivity.
  - rewrite get_set_other by assumption. reflexivity.
Qed.

Lemma get_alloc_other (q : nat) (path : option string) (w : World) :
  q <> num_patchers w -> get_patcher q (alloc_patcher path w) = get_patcher q w.
Proof. intros H. unfold alloc_patcher. apply get_set_other. exact H. Qed.

Lemma get_fresh (w : World) :
  get_patcher (num_patchers w) w = empty_patcher.
Proof.
  unfold get_patcher, num_patchers. apply nth_overflow. apply Nat.le_refl.
Qed.

Lemma boxes_alloc (q : nat) (path : option string) (w : World) :
  boxes_at q (alloc_patcher path w) = boxes_at q w.
Proof.
  unfold boxes_at.
  destruct (Nat.eq_dec q (num_patchers w)) as [->|Hne].
  - rewrite get_fresh. unfold alloc_patcher, num_patchers.
    rewrite get_set_same. reflexivity.
  - rewrite get_alloc_other by assumption. reflexivity.
Qed.

Lemma lines_alloc (q : nat) (path : option string) (w : World) :
  lines_at q (alloc_patcher path w) = lines_at q w.
Proof.
  unfold lines_at.
  destruct (Nat.eq_dec q (num_patchers w)) as [->|Hne].
  - rewrite get_fresh. unfold alloc_patcher, num_patchers.
    rewrite get_set_same. reflexivity.
  - rewrite get_alloc_other by assumption. reflexivity.
Qed.

Lemma path_alloc (q : nat) (path : option string) (w : World) :
  path_at q (alloc_patcher path w) =
  if Nat.eqb q (num_patchers w) then path else path_at q w.
Proof.
  unfold path_at.
  destruct (Nat.eqb_spec q (num_patchers w)) as [->|Hne].
  - unfold alloc_patcher, num_patchers. rewrite get_set_same. reflexivity.
  - rewrite get_alloc_other by assumption. reflexivity.
Qed.

Lemma num_alloc (path : option string) (w : World) :
  num_patchers (alloc_patcher path w) = S (num_patchers w).
Proof.
  unfold num_patchers, alloc_patcher, set_patcher. simpl.
  rewrite length_store. lia.
Qed.

Lemma num_push_box (p : nat) (b : Box) (w : World) :
  (p < num_patchers w)%nat -> num_patchers (push_box p b w) = num_patchers w.
Proof.
  intros H. unfold num_patchers, push_box, set_patcher in *. simpl.
  rewrite length_store. lia.
Qed.

Lemma num_push_line (p : nat) (l : Patchline) (w : World) :
  (p < num_patchers w)%nat -> num_patchers (push_line p l w) = num_patchers w.
Proof.
  intros H. unfold num_patchers, push_line, set_patcher in *. simpl.
  rewrite length_store. lia.
Qed.

Lemma boxes_push_log (q : nat) (msg : string) (w : World) :
  boxes_at q (push_log msg w) = boxes_at q w.
Proof. reflexivity. Qed.

Lemma lines_push_log (q : nat) (msg : string) (w : World) :
  lines_at q (push_log msg w) = lines_at q w.
Proof. reflexivity. Qed.

Lemma path_push_log (q : nat) (msg : string) (w : World) :
  path_at q (push_log msg w) = path_at q w.
Proof. reflexivity. Qed.

Lemma num_push_log (msg : string) (w : World) :
  num_patchers (push_log msg w) = num_patchers w.
Proof. reflexivity. Qed.

Lemma boxes_push_saved (q p : nat) (f : string) (w : World) :
  boxes_at q (push_saved p f w) = boxes_at q w.
Proof. reflexivity. Qed.

Lemma lines_push_saved (q p : nat) (f : string) (w : World) :
  lines_at q (push_saved p f w) = lines_at q w.
Proof. reflexivity. Qed.

Lemma path_push_saved (q p : nat) (f : string) (w : World) :
  path_at q (push_saved p f w) = path_at q w.
Proof. reflexivity. Qed.

Lemma num_push_saved (p : nat) (f : string) (w : World) :
  num_patchers (push_saved p f w) = num_patchers w.
Proof. reflexivity. Qed.

Lemma log_push_box (p : nat) (b : Box) (w : World) :
  log (push_box p b w) = log w.
Proof. reflexivity. Qed.

Lemma log_push_line (p : nat) (l : Patchline) (w : World) :
  log (push_line p l w) = log w.
Proof. reflexivity. Qed.

Lemma log_alloc (path : option string) (w : World) :
  log (alloc_patcher path w) = log w.
Proof. reflexivity. Qed.

Lemma next_id_boxes (p : nat) (w : World) :
  next_id p w = S (List.length (boxes_at p w)).
Proof. reflexivity. Qed.

Lemma boxes_push_box_same (p : nat) (b : Box) (w : World) :
  boxes_at p (push_box p b w) = boxes_at p w ++ [b].
Proof. rewrite boxes_push_box, Nat.eqb_refl. reflexivity. Qed.

Lemma boxes_push_box_other (q p : nat) (b : Box) (w : World) :
  Nat.eqb q p = false -> boxes_at q (push_box p b w) = boxes_at q w.
Proof. intros H. rewrite boxes_push_box, H. reflexivity. Qed.

Lemma lines_push_line_same (p : nat) (l : Patchline) (w : World) :
  lines_at p (push_line p l w) = lines_at p w ++ [l].
Proof. rewrite lines_push_line, Nat.eqb_refl. reflexivity. Qed.

Lemma lines_push_line_other (q p : nat) (l : Patchline) (w : World) :
  Nat.eqb q p = false -> lines_at q (push_line p l w) = lines_at q w.
Proof. intros H. rewrite lines_push_line, H. reflexivity. Qed.

Lemma path_alloc_same (path : option string) (w : World) :
  path_at (num_patchers w) (alloc_patcher path w) = path.
Proof. rewrite path_alloc, Nat.eqb_refl. reflexivity. Qed.

Lemma path_alloc_other (q : nat) (path : option string) (w : World) :
  Nat.eqb q (num_patchers w) = false ->
  path_at q (alloc_patcher path w) = path_at q w.
Proof. intros H. rewrite path_alloc, H. reflexivity. Qed.

(** The store never shrinks, and keeps its size when a valid patcher is
    updated. *)
Lemma num_push_box_max (p : nat) (b : Box) (w : World) :
  num_patchers (push_box p b w) = Nat.max (S p) (num_patchers w).
Proof. unfold num_patchers, push_box, set_patcher. simpl. apply length_store. Qed.

Lemma num_push_line_max (p : nat) (l : Patchline) (w : World) :
  num_patchers (push_line p l w) = Nat.max (S p) (num_patchers w).
Proof. unfold num_patchers, push_line, set_patcher. simpl. apply length_store. Qed.

Lemma num_push_box_mono (n p : nat) (b : Box) (w : World) :
  (n <= num_patchers w)%nat -> (n <= num_patchers (push_box p b w))%nat.
Proof. rewrite num_push_box_max. lia. Qed.

Lemma num_push_line_mono (n p : nat) (l : Patchline) (w : World) :
  (n <= num_patchers w)%nat -> (n <= num_patchers (push_line p l w))%nat.
Proof. rewrite num_push_line_max. lia. Qed.

Lemma num_push_log_mono (n : nat) (msg : string) (w : World) :
  (n <= num_patchers w)%nat -> (n <= num_patchers (push_log msg w))%nat.
Proof. intros H. exact H. Qed.

Lemma num_push_saved_mono (n p : nat) (f : string) (w : World) :
  (n <= num_patchers w)%nat -> (n <= num_patchers (push_saved p f w))%nat.
Proof. intros H. exact H. Qed.

Lemma num_alloc_mono (n : nat) (path : option string) (w : World) :
  (n <= num_patchers w)%nat -> (n <= num_patchers (alloc_patcher path w))%nat.
Proof. rewrite num_alloc. lia. Qed.

Lemma num_push_box_valid (n p : nat) (b : Box) (w : World) :
  num_patchers w = n -> (p < n)%nat -> num_patchers (push_box p b w) = n.
Proof. intros <- H. apply num_push_box. exact H. Qed.

Lemma num_push_line_valid (n p : nat) (l : Patchline) (w : World) :
  num_patchers w = n -> (p < n)%nat -> num_patchers (push_line p l w) = n.
Proof. intros <- H. apply num_push_line. exact H. Qed.

Lemma num_push_log_valid (n : nat) (msg : string) (w : World) :
  num_patchers w = n -> num_patchers (push_log msg w) = n.
Proof. intros H. exact H. Qed.

Lemma num_push_saved_valid (n p : nat) (f : string) (w : World) :
  num_patchers w = n -> num_patchers (push_saved p f w) = n.
Proof. intros H. exact H. Qed.

#[global] Opaque push_box push_line alloc_patcher push_log push_saved.

Create Rewrite HintDb obs.

#[global] Hint Rewrite boxes_push_box_same lines_push_box path_push_box
  boxes_push_line lines_push_line_same path_push_line
  boxes_alloc lines_alloc path_alloc_same num_alloc
  boxes_push_log lines_push_log path_push_log num_push_log
  boxes_push_saved lines_push_saved path_push_saved num_push_saved
  log_push_box log_push_line log_alloc : obs.

#[global] Hint Rewrite boxes_push_box_other lines_push_line_other
  path_alloc_other using assumption : obs.

(** ** Port planning *)

Lemma last_cons_default {A : Type} (l : list A) (x d : A) :
  last (x :: l) d = last l x.
Proof.
  revert x d; induction l as [|y l IH]; intros x d; [reflexivity|].
  change (last (x :: y :: l) d) with (last (y :: l) d).
  rewrite !IH. reflexivity.
Qed.

Lemma signal_fold (pfx : string) (l : list Z) (i : option Z)
    (info : list IOEntry) :
  fold_left
    (fun (st : option Z * list IOEntry) (k : Z) =>
       (Some k, snd st ++ [mkIOEntry "" k (pfx ++ str_int k) "signal"]))
    l (i, info)
  = (last (map Some l) i,
     info ++ map (fun k => mkIOEntry "" k (pfx ++ str_int k) "signal") l).
Proof.
  revert i info; induction l as [|k l IH]; intros i info.
  - simpl. rewrite app_nil_r. reflexivity.
  - cbn [fold_left map snd]. rewrite IH, last_cons_default, <- app_assoc.
    reflexivity.
Qed.

Lemma py_range_empty (a b : Z) : b <= a -> py_range a b = [].
Proof.
  intros H. unfold py_range.
  replace (Z.to_nat (b - a)) with 0%nat by lia. reflexivity.
Qed.

Lemma py_range_snoc (a b : Z) :
  a <= b -> py_range a (b + 1) = py_range a b ++ [b].
Proof.
  intros H. unfold py_range.
  replace (Z.to_nat (b + 1 - a)) with (S (Z.to_nat (b - a))) by lia.
  rewrite seq_S, map_app. simpl. do 2 f_equal. lia.
Qed.

Lemma signal_loop_bound (pfx : string) (n : Z) (i : option Z)
    (info : list IOEntry) :
  fst (signal_loop pfx n i info) = if Z.ltb 0 n then Some n else i.
Proof.
  unfold signal_loop. rewrite signal_fold. cbn [fst].
  destruct (Z.ltb_spec 0 n) as [Hn|Hn].
  - rewrite py_range_snoc by lia. rewrite map_app. simpl.
    apply last_last.
  - rewrite py_range_empty by lia. reflexivity.
Qed.

Lemma signal_loop_info (pfx : string) (n : Z) (i : option Z)
    (info : list IOEntry) :
  snd (signal_loop pfx n i info) =
  info ++ map (fun k => mkIOEntry "" k (pfx ++ str_int k) "signal")
            (py_range 1 (n + 1)).
Proof. unfold signal_loop. rewrite signal_fold. reflexivity. Qed.

(** Without MIDI the port planner always returns: counts and signal-only
    entries. *)
Lemma generate_io_info_no_midi (num_inputs num_outputs : Z) :
  exists ii oi,
    generate_io_info false num_inputs num_outputs =
      Ok (Z.max 1 num_inputs, Z.max 1 num_outputs + 2,
          mkIOInfoDict ii, mkIOInfoDict oi)
    /\ Forall (fun e => type e = "signal") ii
    /\ Forall (fun e => type e = "signal") oi.
Proof.
  unfold generate_io_info.
  destruct (signal_loop "in" num_inputs None []) as [i1 ii] eqn:E1.
  destruct (signal_loop "out" num_outputs i1 []) as [i2 oi] eqn:E2.
  exists ii, oi. split; [reflexivity|].
  pose proof (signal_loop_info "in" num_inputs None []) as H1.
  pose proof (signal_loop_info "out" num_outputs i1 []) as H2.
  rewrite E1 in H1. rewrite E2 in H2. simpl in H1, H2. subst ii oi.
  split; apply Forall_forall; intros e He; apply in_map_iff in He;
    destruct He as [k [<- _]]; reflexivity.
Qed.

(** With MIDI the port planner returns as soon as one of its loops has
    run; the MIDI outlet entry takes the last value of the loop
    variable. *)
Lemma generate_io_info_midi (num_inputs num_outputs : Z) :
  0 < num_inputs \/ 0 < num_outputs ->
  exists ii oi,
    generate_io_info true num_inputs num_outputs =
      Ok (Z.max 1 num_inputs + 1, Z.max 1 num_outputs + 3,
          mkIOInfoDict ii, mkIOInfoDict oi).
Proof.
  intros H. unfold generate_io_info.
  destruct (signal_loop "in" num_inputs None []) as [i1 ii] eqn:E1.
  destruct (signal_loop "out" num_outputs i1 []) as [i2 oi] eqn:E2.
  pose proof (signal_loop_bound "in" num_inputs None []) as H1.
  pose proof (signal_loop_bound "out" num_outputs i1 []) as H2.
  rewrite E1 in H1. rewrite E2 in H2. simpl in H1, H2.
  destruct (Z.ltb_spec 0 num_outputs).
  - subst i2. eexists _, _. reflexivity.
  - destruct (Z.ltb_spec 0 num_inputs); [|lia].
    subst i2 i1. eexists _, _. reflexivity.
Qed.

Lemma generate_io_info_midi_raises (num_inputs num_outputs : Z) :
  num_inputs <= 0 -> num_outputs <= 0 ->
  generate_io_info true num_inputs num_outputs =
    Raise (UnboundLocalError "i").
Proof.
  intros Hi Ho. unfold generate_io_info, signal_loop.
  rewrite (py_range_empty 1 (num_inputs + 1)) by lia.
  rewrite (py_range_empty 1 (num_outputs + 1)) by lia.
  reflexivity.
Qed.

(** C3 (the code departs from the claim).  With MIDI, three inputs and no
    output, the unit has 4 outlets, so the MIDI outlet is the port 1
    counting from 0 (the one [connect_midi] uses), the second one; the
    MIDI entry of the outlet metadata carries the index 3 and the tag
    [out3], the last value of the loop on the inlets. *)
Theorem generate_io_info_midi_outlet_entry_leaks_inlet_index :
  generate_io_info true 3 0 =
    Ok (4, 4,
        mkIOInfoDict [mkIOEntry "" 1 "in1" "signal";
                      mkIOEntry "" 2 "in2" "signal";
                      mkIOEntry "" 3 "in3" "signal";
                      mkIOEntry "" 4 "in4" "midi"],
        mkIOInfoDict [mkIOEntry "" 3 "out3" "midi"]).
Proof. reflexivity. Qed.

(** C10 (the code departs from the claim).  With MIDI and no channel at
    all the port planner raises [UnboundLocalError], the loop variable
    never having been bound; with one input and two outputs the MIDI
    outlet entry repeats the index and the tag of the last signal
    outlet. *)
Theorem generate_io_info_midi_not_total :
  generate_io_info true 0 0 = Raise (UnboundLocalError "i")
  /\ generate_io_info true 1 2 =
       Ok (2, 5,
           mkIOInfoDict [mkIOEntry "" 1 "in1" "signal";
                         mkIOEntry "" 2 "in2" "midi"],
           mkIOInfoDict [mkIOEntry "" 1 "out1" "signal";
                         mkIOEntry "" 2 "out2" "signal";
                         mkIOEntry "" 2 "out2" "midi"]).
Proof. split; reflexivity. Qed.

(** C8 (the code departs from the claim).  For a MIDI-enabled unit
    without input nor output, building the unit raises the
    [UnboundLocalError] of the port planner: no port plan is computed and
    no sub-patch, hence no placeholder, is built. *)
Theorem add_rnbo_object_midi_no_channels_raises
    (patcher : nat) (dsp_name codebox_code : string) (items : list Item)
    (nvoices : Z) (test : bool) (w : World) :
  add_rnbo_object patcher dsp_name codebox_code items true nvoices test 0 0 w
  = Raise (UnboundLocalError "i").
Proof. reflexivity. Qed.

(** ** Voice count selection *)

(** C9 (the code departs from the claim).  With both effect files given
    and no voice count ([nvoices] is [None]), the conversion raises the
    [TypeError] of the comparison [None > 0], whatever the other
    arguments; the branch without effect, which tests
    [nvoices is not None] first, selects a voice count. *)
Theorem load_files_effect_branch_none_nvoices_raises
    (dsp_name dsp_codebox_file : string) (dsp_json_file : JsonData)
    (effect_codebox_file : string) (effect_json_file : JsonData)
    (maxpat_path export_path cpp_filename : string)
    (midi compile test subpatcher_flag : bool) (w : World) :
  load_files_create_rnbo_patch dsp_name dsp_codebox_file dsp_json_file
    (Some effect_codebox_file) (Some effect_json_file)
    maxpat_path export_path cpp_filename midi None
    compile test subpatcher_flag w
  = Raise (TypeError
      "'>' not supported between instances of 'NoneType' and 'int'")
  /\ no_effect_branch_nvoices None (snd (json_options dsp_json_file))
     = Ok (options_nvoices (snd (json_options dsp_json_file))).
Proof. split; reflexivity. Qed.

(** ** Symbolic execution of straight-line code *)

Lemma line_of_eq (src : Box) (o : Z) (dst : Box) (i : Z) :
  mkPatchline (box_id src, o) (box_id dst, i) = line_of src o dst i.
Proof. reflexivity. Qed.

Lemma bind_add_box {B : Type} (p : nat) (c : BoxClass) (t : string)
    (i o : option Z) (cfg : BoxConfig) (f : Box -> M B) (w : World)
    (n : nat) :
  next_id p w = n ->
  bind (add_box p c t i o cfg) f w
  = f (mkBox n c t i o cfg) (push_box p (mkBox n c t i o cfg) w).
Proof. intros <-. reflexivity. Qed.

Lemma run_add_box (p : nat) (c : BoxClass) (t : string)
    (i o : option Z) (cfg : BoxConfig) (w : World) (n : nat) :
  next_id p w = n ->
  add_box p c t i o cfg w
  = Ok (mkBox n c t i o cfg, push_box p (mkBox n c t i o cfg) w).
Proof. intros <-. reflexivity. Qed.

Lemma bind_add_line {B : Type} (p : nat) (s d : Box) (i o : Z)
    (f : unit -> M B) (w : World) :
  bind (add_line p s d i o) f w = f tt (push_line p (line_of s o d i) w).
Proof. reflexivity. Qed.

Lemma run_add_line (p : nat) (s d : Box) (i o : Z) (w : World) :
  add_line p s d i o w = Ok (tt, push_line p (line_of s o d i) w).
Proof. reflexivity. Qed.

Lemma bind_ret {A B : Type} (a : A) (f : A -> M B) (w : World) :
  bind (ret a) f w = f a w.
Proof. reflexivity. Qed.

Lemma run_ret {A : Type} (a : A) (w : World) : ret a w = Ok (a, w).
Proof. reflexivity. Qed.

Lemma bind_logging_error {B : Type} (msg : string) (f : unit -> M B)
    (w : World) :
  bind (logging_error msg) f w = f tt (push_log msg w).
Proof. reflexivity. Qed.

Lemma bind_saveas {B : Type} (p : nat) (file : string) (f : unit -> M B)
    (w : World) :
  bind (saveas p file) f w = f tt (push_saved p file w).
Proof. reflexivity. Qed.

Lemma bind_lift_ok {A B : Type} (a : A) (f : A -> M B) (w : World) :
  bind (lift (Ok a)) f w = f a w.
Proof. reflexivity. Qed.

Lemma bind_ok {A B : Type} (m : M A) (f : A -> M B) (w : World)
    (a : A) (w1 : World) :
  m w = Ok (a, w1) -> bind m f w = f a w1.
Proof. intros E. unfold bind. rewrite E. reflexivity. Qed.

Lemma bind_lift_raise {A B : Type} (e : PyError) (f : A -> M B) (w : World) :
  bind (lift (@Raise A e)) f w = Raise e.
Proof. reflexivity. Qed.

Lemma bind_assoc {A B C : Type} (m : M A) (g : A -> M B) (h : B -> M C)
    (w : World) :
  bind (bind m g) h w = bind m (fun a => bind (g a) h) w.
Proof. unfold bind. destruct (m w) as [[a w']|e]; reflexivity. Qed.

Lemma bind_new_patcher {B : Type} (path : option string) (f : nat -> M B)
    (w : World) :
  bind (new_patcher path) f w = f (num_patchers w) (alloc_patcher path w).
Proof. reflexivity. Qed.

Lemma next_id_fresh (w : World) : next_id (num_patchers w) w = 1%nat.
Proof.
  rewrite next_id_boxes. unfold boxes_at. rewrite get_fresh. reflexivity.
Qed.

Lemma next_id_push_box_same (p : nat) (b : Box) (w : World) :
  next_id p (push_box p b w) = S (next_id p w).
Proof.
  rewrite !next_id_boxes, boxes_push_box_same, length_app.
  cbn [List.length]. rewrite Nat.add_1_r. reflexivity.
Qed.

Lemma next_id_push_box_other (q p : nat) (b : Box) (w : World) :
  Nat.eqb q p = false -> next_id q (push_box p b w) = next_id q w.
Proof.
  intros H. rewrite !next_id_boxes, boxes_push_box_other by exact H.
  reflexivity.
Qed.

Lemma next_id_push_line (q p : nat) (l : Patchline) (w : World) :
  next_id q (push_line p l w) = next_id q w.
Proof. rewrite !next_id_boxes, boxes_push_line. reflexivity. Qed.

Lemma next_id_alloc (q : nat) (path : option string) (w : World) :
  next_id q (alloc_patcher path w) = next_id q w.
Proof. rewrite !next_id_boxes, boxes_alloc. reflexivity. Qed.

Lemma next_id_push_log (q : nat) (msg : string) (w : World) :
  next_id q (push_log msg w) = next_id q w.
Proof. reflexivity. Qed.

Lemma next_id_push_saved (q p : nat) (f : string) (w : World) :
  next_id q (push_saved p f w) = next_id q w.
Proof. reflexivity. Qed.

(** The identifier of the next box, in terms of the initial world. *)
Ltac norm_id :=
  repeat first [ rewrite next_id_push_box_same
               | rewrite next_id_push_box_other by assumption
               | rewrite next_id_push_line
               | rewrite next_id_alloc | rewrite next_id_push_log
               | rewrite next_id_push_saved | rewrite next_id_fresh ];
  reflexivity.

Ltac exec_step :=
  first [ erewrite bind_add_box by norm_id
        | rewrite bind_add_line
        | rewrite bind_ret
        | rewrite bind_logging_error
        | rewrite bind_saveas
        | rewrite bind_new_patcher
        | rewrite bind_lift_ok
        | rewrite bind_lift_raise
        | rewrite bind_assoc ];
  cbn beta iota.

Ltac exec_last :=
  first [ erewrite run_add_box by norm_id
        | rewrite run_add_line
        | rewrite run_ret ].

Ltac exec :=
  unfold add_textbox, add_message, add_comment, add_codebox_tilde;
  repeat exec_step; try exec_last.

(** Observations of a world given by a sequence of updates. *)
Ltac obs_simpl :=
  autorewrite with obs;
  repeat rewrite <- app_assoc;
  cbn [app].

(** ** Straight-line wiring *)

Lemma prefix_app_r (s t : string) : prefix s (s ++ t) = true.
Proof.
  induction s as [|x s IH]; [destruct t; reflexivity|].
  simpl. destruct (ascii_dec x x); [exact IH|congruence].
Qed.

Lemma prefix_app_same (a b c : string) :
  prefix (a ++ b) (a ++ c) = prefix b c.
Proof.
  induction a as [|x a IH]; [reflexivity|].
  simpl. destruct (ascii_dec x x); [exact IH|congruence].
Qed.

(** C4.  Whatever the channel counts, connecting the DSP to the effect
    returns and adds to the patcher exactly the lines of the adaptation
    table, from outlets of the DSP to inlets of the effect, and no box:
    two lines into inlet 0 for (2, 1), two lines out of outlet 0 for
    (1, 2), one line for (1, 1), two parallel lines for (2, 2), nothing
    for any other pair. *)
Theorem connect_dsp_effect_edges
    (patcher : nat) (dsp_rnbo effect_rnbo : Box)
    (dsp_num_outputs effect_num_inputs : Z) (w : World) :
  exists w',
    connect_dsp_effect patcher dsp_rnbo effect_rnbo
      dsp_num_outputs effect_num_inputs w = Ok (tt, w')
    /\ lines_at patcher w' =
         lines_at patcher w ++
         map (fun e => line_of dsp_rnbo (fst e) effect_rnbo (snd e))
             (adaptation_edges dsp_num_outputs effect_num_inputs)
    /\ boxes_at patcher w' = boxes_at patcher w
    /\ adaptation_edges 2 1 = [(0, 0); (1, 0)]
    /\ adaptation_edges 1 2 = [(0, 0); (0, 1)]
    /\ adaptation_edges 1 1 = [(0, 0)]
    /\ adaptation_edges 2 2 = [(0, 0); (1, 1)]
    /\ (adaptation_edges dsp_num_outputs effect_num_inputs = [] -> w' = w).
Proof.
  unfold connect_dsp_effect, adaptation_edges.
  destruct dsp_num_outputs as [|[[p|p|]|[p|p|]|]|p];
    destruct effect_num_inputs as [|[[q|q|]|[q|q|]|]|q];
    cbn [Z.eqb Pos.eqb andb map fst snd];
    (eexists; split; [exec; reflexivity|]);
    obs_simpl; rewrite ?app_nil_r;
    repeat split; try reflexivity; try discriminate.
Qed.

(** C2 (the code departs from the claim).  For a parameter bound to
    [pitchwheel], whatever its range and the other tokens, the four MIDI
    boxes are added; the rescale node of the input chain maps -1..1 onto
    [min, max], but the one of the output chain is
    [scale min max -1 -1], which maps [min, max] onto the single value
    -1, not onto -1..1. *)
Theorem add_midi_control_pitchwheel_output_scale
    (shortname ty : string) (ini mn mx step : Number) (args : list string)
    (sub_patch : nat) (set_param codebox : Box) (w : World) :
  exists w' midi_in midi_out scaling_in_box scaling_out_box,
    add_midi_control
      (mkItem shortname ty ini mn mx step ("pitchwheel" :: args))
      sub_patch set_param codebox w = Ok (true, w')
    /\ boxes_at sub_patch w' =
         boxes_at sub_patch w ++
         [midi_in; midi_out; scaling_in_box; scaling_out_box]
    /\ box_text scaling_in_box =
         ("scale -1 1 " ++ str_number mn ++ " " ++ str_number mx)%string
    /\ box_text scaling_out_box =
         ("scale " ++ str_number mn ++ " " ++ str_number mx ++ " -1 -1")%string
    /\ lines_at sub_patch w' =
         lines_at sub_patch w ++
         [line_of midi_in 0 scaling_in_box 0;
          line_of scaling_in_box 0 set_param 0;
          line_of codebox 0 scaling_out_box 0;
          line_of scaling_out_box 0 midi_out 0].
Proof.
  unfold add_midi_control. cbn [item_midi item_min item_max dict_get
    midi_mapping String.eqb Ascii.eqb Bool.eqb].
  eexists _, _, _, _, _. split; [exec; reflexivity|].
  obs_simpl. repeat split; reflexivity.
Qed.

Lemma dict_get_unsupported (midi_type : string) :
  ~ In midi_type supported_midi_types ->
  dict_get midi_type midi_mapping = None.
Proof.
  intros H. unfold midi_mapping, dict_get.
  repeat match goal with
         | |- context [String.eqb midi_type ?k] =>
             destruct (String.eqb_spec midi_type k) as [->|_];
             [exfalso; apply H; simpl; tauto|]
         end.
  reflexivity.
Qed.

Lemma add_midi_control_unsupported (item : Item) (midi_type : string)
    (args : list string) (sub_patch : nat) (set_param codebox : Box)
    (w : World) :
  item_midi item = midi_type :: args ->
  ~ In midi_type supported_midi_types ->
  add_midi_control item sub_patch set_param codebox w =
    Ok (false, push_log (unsupported_message midi_type) w).
Proof.
  intros Hm Hu. unfold add_midi_control.
  rewrite Hm, (dict_get_unsupported _ Hu). reflexivity.
Qed.

Lemma add_midi_control_no_binding (item : Item) (sub_patch : nat)
    (set_param codebox : Box) (w : World) :
  item_midi item = [] ->
  add_midi_control item sub_patch set_param codebox w = Ok (false, w).
Proof. intros Hm. unfold add_midi_control. rewrite Hm. reflexivity. Qed.

Lemma steps_value_ok (item : Item) :
  str_in (item_type item) ["button"; "checkbox"] = false ->
  item_wiring_ok item = true ->
  steps_value (item_max item) (item_min item) (item_step item) = Ok tt.
Proof.
  unfold item_wiring_ok, steps_ok. intros -> H. cbn [orb] in H.
  destruct (steps_value _ _ _) as [[]|e]; [reflexivity|discriminate].
Qed.

(** The division of [steps_value] raises nothing but [ZeroDivisionError]
    and [OverflowError]. *)
Lemma steps_value_errors (max_value min_value step : Number) (e : PyError) :
  steps_value max_value min_value step = Raise e ->
  e = ZeroDivisionError \/ e = OverflowError.
Proof.
  unfold steps_value, number_sub, true_div.
  destruct max_value as [x|rx], min_value as [y|ry], step as [s|rs];
    repeat match goal with
           | |- context [if ?c then _ else _] => destruct c
           end;
    intros H; first [discriminate H | injection H as <-; auto].
Qed.

(** A parameter that cannot be wired is a slider or a numeric entry whose
    division raises. *)
Lemma item_wiring_ok_false (item : Item) :
  item_wiring_ok item = false ->
  str_in (item_type item) ["button"; "checkbox"] = false
  /\ exists e,
       steps_value (item_max item) (item_min item) (item_step item) = Raise e.
Proof.
  unfold item_wiring_ok, steps_ok. intros H.
  apply Bool.orb_false_iff in H. destruct H as [Hty Hz].
  split; [exact Hty|].
  destruct (steps_value _ _ _) as [u|e]; [discriminate|].
  exists e. reflexivity.
Qed.

(** Handling a slider or a numeric entry whose division raises, raises
    the same, after the relay node is added. *)
Lemma item_loop_body_raises (patcher sub_patch : nat) (rnbo codebox : Box)
    (midi : bool) (nvoices : Z) (test : bool) (loc : PolyLocals)
    (item : Item) (e : PyError) (w : World) :
  str_in (item_type item) ["button"; "checkbox"] = false ->
  steps_value (item_max item) (item_min item) (item_step item) = Raise e ->
  item_loop_body patcher sub_patch rnbo codebox midi nvoices test loc item w
  = Raise e.
Proof.
  intros Hty Hz.
  unfold item_loop_body. rewrite Hty, Hz.
  unfold add_textbox. unfold add_box at 1. unfold bind at 1.
  reflexivity.
Qed.


(** ** The wiring of one parameter *)

Lemma midi_mapping_names (midi_type name_in name_out : string) :
  dict_get midi_type midi_mapping = Some (name_in, name_out) ->
  In name_in ["ctlin"; "touchin"; "notein"; "bendin @bendmode 1"; "pgmin"]
  /\ In name_out
       ["ctlout"; "touchout"; "noteout"; "bendout @bendmode 1"; "pgmout"].
Proof.
  unfold midi_mapping, dict_get.
  repeat match goal with
         | |- context [String.eqb midi_type ?k] =>
             destruct (String.eqb midi_type k)
         end;
    intros H; inversion H; subst; simpl; tauto.
Qed.

Lemma midi_name_not_polyphony (name args : string) (b : Box) :
  In name ["ctlin"; "touchin"; "notein"; "bendin @bendmode 1"; "pgmin";
           "ctlout"; "touchout"; "noteout"; "bendout @bendmode 1"; "pgmout"] ->
  box_text b = (name ++ " " ++ args)%string ->
  ~ is_polyphony_box b.
Proof.
  intros Hn Ht [_ Hp]. rewrite Ht in Hp. simpl in Hn.
  repeat (destruct Hn as [<-|Hn]; [simpl in Hp; intuition discriminate|]).
  exact Hn.
Qed.

Lemma text_not_polyphony (b : Box) (c : ascii) (s : string) :
  box_text b = String c s ->
  c <> "n"%char -> c <> "m"%char -> c <> ">"%char ->
  ~ is_polyphony_box b.
Proof.
  intros Ht H1 H2 H3 [_ Hp]. rewrite Ht in Hp.
  destruct Hp as [Hp|[Hp|Hp]]; inversion Hp; congruence.
Qed.

(** The MIDI control of a parameter always returns; it only adds to the
    sub-patch, and no node of the polyphony sub-graph. *)
(** [n <= num_patchers W] and [num_patchers W = n] along a sequence of
    updates. *)
Ltac valid_chain :=
  unfold lt;
  repeat first [ apply num_push_box_mono | apply num_push_line_mono
               | apply num_push_log_mono | apply num_push_saved_mono
               | apply num_alloc_mono ];
  first [assumption | lia].

Ltac num_chain :=
  repeat first [ apply num_push_box_valid; [|first [assumption | lia]]
               | apply num_push_line_valid; [|first [assumption | lia]]
               | apply num_push_log_valid
               | apply num_push_saved_valid ];
  first [reflexivity | assumption | lia].

Ltac solve_extends p :=
  unfold extends_at;
  split; [obs_simpl; first [reflexivity | rewrite app_nil_r; reflexivity]|];
  split; [obs_simpl; first [reflexivity | rewrite app_nil_r; reflexivity]|];
  split; [let q := fresh "q" in let Hq := fresh "Hq" in
          intros q Hq; apply Nat.eqb_neq in Hq; obs_simpl;
          split; reflexivity|];
  split; [intros ?; obs_simpl; reflexivity|];
  let Hv := fresh "Hv" in
  intros Hv; num_chain.

Lemma add_midi_control_spec (item : Item) (sub_patch : nat)
    (set_param codebox : Box) (w : World) :
  exists r w' bs ls,
    add_midi_control item sub_patch set_param codebox w = Ok (r, w')
    /\ extends_at sub_patch bs ls w w'
    /\ Forall (fun b => ~ is_polyphony_box b) bs.
Proof.
  unfold add_midi_control.
  destruct (item_midi item) as [|midi_type midi_rest].
  - exists false, w, [], []. split; [reflexivity|]. split; [|constructor].
    solve_extends sub_patch.
  - destruct (dict_get midi_type midi_mapping) as [[name_in name_out]|] eqn:Hd.
    + destruct (midi_mapping_names _ _ _ Hd) as [Hin Hout].
      destruct (String.eqb midi_type "pitchwheel");
        (eexists _, _, _, _; split; [exec; reflexivity|]);
        (split; [solve_extends sub_patch|]).
      all: repeat constructor.
      all: try (eapply midi_name_not_polyphony; [|reflexivity];
                simpl in *; tauto).
      all: try (eapply text_not_polyphony; [reflexivity|..]; discriminate).
    + exists false, (push_log
        ("MIDI control type '" ++ midi_type ++ "' not supported") w), [], [].
      split; [reflexivity|]. split; [|constructor].
      solve_extends sub_patch.
Qed.

Ltac pick_last :=
  first [right; left; reflexivity | left; reflexivity].

Lemma item_loop_body_spec (patcher sub_patch : nat) (rnbo codebox : Box)
    (midi : bool) (nvoices : Z) (test : bool) (loc : PolyLocals)
    (item : Item) (w : World) :
  patcher <> sub_patch ->
  (patcher < num_patchers w)%nat ->
  (sub_patch < num_patchers w)%nat ->
  item_wiring_ok item = true ->
  exists loc' w' set_param,
    item_loop_body patcher sub_patch rnbo codebox midi nvoices test loc
      item w = Ok (loc', w')
    /\ item_wired patcher sub_patch rnbo codebox
         (build_label (item_type item) (item_shortname item) test)
         set_param w w'
    /\ loc' = (if midi && Z.ltb 0 nvoices
               then analyze_shortname (item_shortname item) set_param loc
               else loc).
Proof.
  intros Hne Hvp Hvs Hok.
  assert (Hsp : Nat.eqb sub_patch patcher = false)
    by (apply Nat.eqb_neq; congruence).
  assert (Hps : Nat.eqb patcher sub_patch = false)
    by (apply Nat.eqb_neq; congruence).
  unfold item_loop_body, item_wired.
  set (label := build_label (item_type item) (item_shortname item) test).
  destruct (str_in (item_type item) ["button"; "checkbox"]) eqn:Hty;
    rewrite ?(steps_value_ok _ Hty Hok);
    destruct midi; cbn [andb]; exec.
  all: try match goal with
       | |- context [bind (add_midi_control ?i ?s ?a ?b) ?f ?W] =>
           destruct (add_midi_control_spec i s a b W)
             as (r & w2 & bs & ls & E & (Hb & Hl & Hfr & Hp & Hn) & Hnp);
           rewrite (bind_ok _ f W _ _ E); clear E; cbn beta;
           destruct (Hfr patcher Hne) as [Hfb Hfl]
       end.
  all: exec.
  all: eexists _, _, _; split; [reflexivity|]; split; [|reflexivity].
  all: eexists _, _, _, _, _, _.
  all: rewrite ?Hb, ?Hl, ?Hfb, ?Hfl.
  all: obs_simpl.
  all: split; [reflexivity|].
  all: split; [reflexivity|].
  all: split; [reflexivity|].
  all: split; [reflexivity|].
  all: split;
    [cbn [box_text]; rewrite !prefix_app_same;
     first [apply prefix_app_r
           | apply (prefix_app_r " " "0 @min 0 @max 1")]|].
  all: split; [eapply text_not_polyphony; [reflexivity|..]; discriminate|].
  all: split; [first [exact Hnp | constructor]|].
  all: split; [reflexivity|].
  all: split;
    [repeat (apply Forall_cons;
             [split; [reflexivity
                     |first [left; reflexivity | right; reflexivity]]|]);
     apply Forall_nil|].
  all: split; [reflexivity|].
  all: split; [pick_last|].
  all: split; [split; [reflexivity|eexists _, _, _; reflexivity]|].
  all: split; [pick_last|].
  all: split; [intros q; rewrite ?Hp; obs_simpl; reflexivity|].
  all: try (rewrite Hn by valid_chain).
  all: num_chain.
Qed.

(** ** Loops *)

Lemma for_each_acc_inv {A S : Type} (Inv : list A -> S -> World -> Prop)
    (body : S -> A -> M S) (l : list A) :
  forall done s w,
    (forall done' x s w, In x l -> Inv done' s w ->
       exists s' w', body s x w = Ok (s', w') /\ Inv (done' ++ [x]) s' w') ->
    Inv done s w ->
    exists s' w', for_each_acc l body s w = Ok (s', w') /\ Inv (done ++ l) s' w'.
Proof.
  induction l as [|x l IH]; intros done s w Hbody Hinv.
  - exists s, w. rewrite app_nil_r. split; [reflexivity|assumption].
  - destruct (Hbody done x s w (or_introl eq_refl) Hinv)
      as (s1 & w1 & E1 & Hinv1).
    destruct (IH (done ++ [x]) s1 w1) as (s2 & w2 & E2 & Hinv2).
    + intros d y s' w' Hy. apply Hbody. right. exact Hy.
    + exact Hinv1.
    + exists s2, w2. split.
      * cbn [for_each_acc]. unfold bind. rewrite E1. exact E2.
      * rewrite <- app_assoc in Hinv2. exact Hinv2.
Qed.

Lemma for_each_inv {A : Type} (Inv : World -> Prop)
    (body : A -> M unit) (l : list A) :
  forall w,
    (forall x w, Inv w -> exists w', body x w = Ok (tt, w') /\ Inv w') ->
    Inv w ->
    exists w', for_each l body w = Ok (tt, w') /\ Inv w'.
Proof.
  induction l as [|x l IH]; intros w Hbody Hinv.
  - exists w. split; [reflexivity|assumption].
  - destruct (Hbody x w Hinv) as (w1 & E1 & Hinv1).
    destruct (IH w1 Hbody Hinv1) as (w2 & E2 & Hinv2).
    exists w2. split; [|exact Hinv2].
    cbn [for_each]. unfold bind. rewrite E1. exact E2.
Qed.

Lemma grown_refl (patcher sub_patch : nat) (w : World) :
  grown patcher sub_patch w w.
Proof.
  repeat split; try reflexivity.
  - exists [], []. rewrite !app_nil_r. repeat split; constructor.
  - exists [], []. rewrite !app_nil_r. repeat split; constructor.
Qed.

Lemma grown_trans (patcher sub_patch : nat) (w0 w1 w2 : World) :
  grown patcher sub_patch w0 w1 -> grown patcher sub_patch w1 w2 ->
  grown patcher sub_patch w0 w2.
Proof.
  intros (Hn1 & Hp1 & (c1 & l1 & Hc1 & Hf1 & Hl1) & (s1 & t1 & Hs1 & Hg1 & Ht1))
         (Hn2 & Hp2 & (c2 & l2 & Hc2 & Hf2 & Hl2) & (s2 & t2 & Hs2 & Hg2 & Ht2)).
  split; [congruence|]. split; [intros q; rewrite Hp2; apply Hp1|]. split.
  - exists (c1 ++ c2), (l1 ++ l2).
    rewrite Hc2, Hc1, Hl2, Hl1, !app_assoc. repeat split.
    apply Forall_app; split; assumption.
  - exists (s1 ++ s2), (t1 ++ t2).
    rewrite Hs2, Hs1, Ht2, Ht1, !app_assoc. repeat split.
    apply Forall_app; split; assumption.
Qed.

Lemma item_wired_grown (patcher sub_patch : nat) (rnbo codebox : Box)
    (label : string) (set_param : Box) (w w' : World) :
  item_wired patcher sub_patch rnbo codebox label set_param w w' ->
  grown patcher sub_patch w w'.
Proof.
  intros (param & sb & sl & ctrl & cl & pw & Hb & Hl & Hs & Hc & Hpre & Hnp
          & Hsb & Hpb & Hctrl & Hpl & _ & _ & _ & Hpath & Hnum).
  split; [exact Hnum|]. split; [exact Hpath|]. split.
  - exists ctrl, cl. auto.
  - eexists _, _. split; [exact Hb|]. split; [|exact Hl].
    constructor; [|constructor; assumption].
    subst set_param. eapply text_not_polyphony; [reflexivity|..]; discriminate.
Qed.

(** ** Roles of the parameters for polyphony *)

Lemma last_item_snoc (f : Item -> bool) (done : list Item) (x : Item) :
  last_item f (done ++ [x]) = if f x then Some x else last_item f done.
Proof. unfold last_item. rewrite rev_app_distr. reflexivity. Qed.

(** A suffix fixes the last characters of a string. *)
Lemma endswith_get (s suffix : string) (k : nat) :
  endswith s suffix = true ->
  (k < String.length suffix)%nat ->
  get (String.length s - 1 - k) s
  = get (String.length suffix - 1 - k) suffix.
Proof.
  unfold endswith. intros H Hk.
  apply andb_true_iff in H. destruct H as [Hle Heq].
  apply Nat.leb_le in Hle. apply String.eqb_eq in Heq.
  replace (String.length s - 1 - k)%nat
    with ((String.length suffix - 1 - k)
          + (String.length s - String.length suffix))%nat by lia.
  rewrite <- (substring_correct1 s _ (String.length suffix)) by lia.
  rewrite Heq. reflexivity.
Qed.

Lemma endswith_exclusive (s a b : string) (k : nat) :
  (k < String.length a)%nat -> (k < String.length b)%nat ->
  get (String.length a - 1 - k) a <> get (String.length b - 1 - k) b ->
  endswith s a = true -> endswith s b = false.
Proof.
  intros Ha Hb Hne Hsa.
  destruct (endswith s b) eqn:Hsb; [|reflexivity].
  exfalso. apply Hne.
  rewrite <- (endswith_get s a k Hsa Ha), <- (endswith_get s b k Hsb Hb).
  reflexivity.
Qed.

Ltac exclusive_suffix H k :=
  refine (endswith_exclusive _ _ _ k _ _ _ H);
  [cbn; lia | cbn; lia | cbn; discriminate].

(** The suffixes of the three roles exclude each other. *)
Lemma suffix_roles (s : string) :
  (endswith s "freq" = true ->
     endswith s "gain" = false /\ endswith s "velocity" = false
     /\ endswith s "gate" = false)
  /\ (endswith s "key" = true ->
     endswith s "gain" = false /\ endswith s "velocity" = false
     /\ endswith s "gate" = false)
  /\ (endswith s "gain" = true ->
     endswith s "freq" = false /\ endswith s "key" = false
     /\ endswith s "gate" = false)
  /\ (endswith s "velocity" = true ->
     endswith s "freq" = false /\ endswith s "key" = false
     /\ endswith s "gate" = false)
  /\ (endswith s "gate" = true ->
     endswith s "freq" = false /\ endswith s "key" = false
     /\ endswith s "gain" = false /\ endswith s "velocity" = false).
Proof.
  repeat split.
  all: match goal with
    | H : endswith _ _ = true |- _ =>
        first [exclusive_suffix H 0%nat | exclusive_suffix H 1%nat]
    end.
Qed.

Lemma grown_boxes_sub (patcher sub_patch : nat) (w w' : World) (b : Box) :
  grown patcher sub_patch w w' ->
  In b (boxes_at sub_patch w) -> In b (boxes_at sub_patch w').
Proof.
  intros (_ & _ & _ & (sb & sl & Hs & _ & _)) H.
  rewrite Hs. apply in_or_app. left. exact H.
Qed.

Lemma grown_lines_sub (patcher sub_patch : nat) (w w' : World)
    (l : Patchline) :
  grown patcher sub_patch w w' ->
  In l (lines_at sub_patch w) -> In l (lines_at sub_patch w').
Proof.
  intros (_ & _ & _ & (sb & sl & _ & _ & Hl)) H.
  rewrite Hl. apply in_or_app. left. exact H.
Qed.

Lemma grown_boxes_main (patcher sub_patch : nat) (w w' : World) (b : Box) :
  grown patcher sub_patch w w' ->
  In b (boxes_at patcher w) -> In b (boxes_at patcher w').
Proof.
  intros (_ & _ & (c & l & Hc & _ & _) & _) H.
  rewrite Hc. apply in_or_app. left. exact H.
Qed.

Lemma grown_lines_main (patcher sub_patch : nat) (w w' : World)
    (l : Patchline) :
  grown patcher sub_patch w w' ->
  In l (lines_at patcher w) -> In l (lines_at patcher w').
Proof.
  intros (_ & _ & (c & cl & _ & _ & Hl) & _) H.
  rewrite Hl. apply in_or_app. left. exact H.
Qed.

Lemma relay_for_grown (patcher sub_patch : nat) (test : bool)
    (o : option Box) (last : option Item) (w w' : World) :
  grown patcher sub_patch w w' ->
  relay_for sub_patch test o last w -> relay_for sub_patch test o last w'.
Proof.
  intros Hg. destruct last as [it|]; simpl; [|auto].
  intros (b & Ho & Hin & Ht). exists b. repeat split; auto.
  eapply grown_boxes_sub; eassumption.
Qed.

Lemma wiring_present_incl (patcher sub_patch : nat) (rnbo codebox : Box)
    (label : string) (w w' : World) :
  incl (boxes_at sub_patch w) (boxes_at sub_patch w') ->
  incl (lines_at sub_patch w) (lines_at sub_patch w') ->
  incl (boxes_at patcher w) (boxes_at patcher w') ->
  incl (lines_at patcher w) (lines_at patcher w') ->
  wiring_present patcher sub_patch rnbo codebox label w ->
  wiring_present patcher sub_patch rnbo codebox label w'.
Proof.
  intros I1 I2 I3 I4
    (sp & pa & pw & H1 & H2 & H3 & H4 & H5 & H6 & H7 & H8 & H9).
  exists sp, pa, pw. repeat split; auto; apply H8.
Qed.

Lemma wiring_present_grown (patcher sub_patch : nat) (rnbo codebox : Box)
    (label : string) (w w' : World) :
  grown patcher sub_patch w w' ->
  wiring_present patcher sub_patch rnbo codebox label w ->
  wiring_present patcher sub_patch rnbo codebox label w'.
Proof.
  intros Hg. apply wiring_present_incl; intros x Hx.
  - eapply grown_boxes_sub; eassumption.
  - eapply grown_lines_sub; eassumption.
  - eapply grown_boxes_main; eassumption.
  - eapply grown_lines_main; eassumption.
Qed.

Lemma item_wired_present (patcher sub_patch : nat) (rnbo codebox : Box)
    (label : string) (set_param : Box) (w w' : World) :
  item_wired patcher sub_patch rnbo codebox label set_param w w' ->
  wiring_present patcher sub_patch rnbo codebox label w'.
Proof.
  intros (param & sb & sl & ctrl & cl & pw & Hb & Hl & Hs & Hc & Hpre & Hnp
          & Hsb & Hpb & Hctrl & Hpl & Hpw & Hatt & Hline & Hpath & Hnum).
  exists set_param, param, pw.
  rewrite Hb, Hl, Hpb, Hpl.
  repeat split; try (apply Hatt); auto;
    try (apply in_or_app; right; simpl; tauto).
  subst set_param. reflexivity.
Qed.

Lemma item_wired_relay (patcher sub_patch : nat) (rnbo codebox : Box)
    (test : bool) (x : Item) (set_param : Box) (w w' : World) :
  item_wired patcher sub_patch rnbo codebox (item_label test x) set_param
    w w' ->
  relay_for sub_patch test (Some set_param) (Some x) w'.
Proof.
  intros (param & sb & sl & ctrl & cl & pw & Hb & Hl & Hs & _).
  exists set_param. split; [reflexivity|]. split.
  - rewrite Hb. apply in_or_app. right. left. reflexivity.
  - subst set_param. reflexivity.
Qed.

Lemma roles_inv_step (patcher sub_patch : nat) (rnbo codebox : Box)
    (test : bool) (done : list Item) (x : Item) (loc : PolyLocals)
    (set_param : Box) (w w' : World) :
  roles_inv sub_patch test done loc w ->
  item_wired patcher sub_patch rnbo codebox (item_label test x) set_param
    w w' ->
  roles_inv sub_patch test (done ++ [x])
    (analyze_shortname (item_shortname x) set_param loc) w'.
Proof.
  intros (Hp & Hg & Ht & Hf & Hm) Hw.
  pose proof (item_wired_grown _ _ _ _ _ _ _ _ Hw) as Hgr.
  pose proof (item_wired_relay _ _ _ _ _ _ _ _ _ Hw) as Hrel.
  apply (relay_for_grown _ _ _ _ _ _ _ Hgr) in Hp, Hg, Ht.
  unfold roles_inv, freq_mode, gain_mode in *.
  rewrite !last_item_snoc.
  unfold is_pitch_item at 1 3, is_gain_item at 1 3, is_gate_item at 1.
  unfold analyze_shortname.
  destruct (suffix_roles (item_shortname x)) as (Sf & Sk & Sg & Sv & St).
  destruct (endswith (item_shortname x) "freq") eqn:Ef.
  { destruct (Sf eq_refl) as (-> & -> & ->). cbn.
    rewrite Ef. repeat split; auto. }
  destruct (endswith (item_shortname x) "key") eqn:Ek.
  { destruct (Sk eq_refl) as (-> & -> & ->). cbn.
    rewrite Ef. repeat split; auto. }
  destruct (endswith (item_shortname x) "gain") eqn:Eg.
  { destruct (Sg eq_refl) as (_ & _ & ->). cbn.
    rewrite Eg. repeat split; auto. }
  destruct (endswith (item_shortname x) "velocity") eqn:Ev.
  { destruct (Sv eq_refl) as (_ & _ & ->). cbn.
    rewrite Eg. repeat split; auto. }
  destruct (endswith (item_shortname x) "gate") eqn:Et; cbn;
    repeat split; auto.
Qed.
(** The loop of [add_rnbo_object] on the parameters. *)
Lemma param_loop_spec (patcher sub_patch : nat) (rnbo codebox : Box)
    (midi : bool) (nvoices : Z) (test : bool) (items : list Item)
    (w0 : World) :
  patcher <> sub_patch ->
  (patcher < num_patchers w0)%nat ->
  (sub_patch < num_patchers w0)%nat ->
  Forall (fun it => item_wiring_ok it = true) items ->
  exists loc w',
    for_each_acc items
      (item_loop_body patcher sub_patch rnbo codebox midi nvoices test)
      (mkPolyLocals None None None false false) w0 = Ok (loc, w')
    /\ grown patcher sub_patch w0 w'
    /\ (forall it, In it items ->
          wiring_present patcher sub_patch rnbo codebox (item_label test it) w')
    /\ (if midi && Z.ltb 0 nvoices
        then roles_inv sub_patch test items loc w'
        else loc = mkPolyLocals None None None false false).
Proof.
  intros Hne Hvp Hvs Hok.
  set (loc0 := mkPolyLocals None None None false false).
  set (Inv := fun (done : list Item) (loc : PolyLocals) (w : World) =>
    grown patcher sub_patch w0 w
    /\ (forall it, In it done ->
          wiring_present patcher sub_patch rnbo codebox (item_label test it) w)
    /\ (if midi && Z.ltb 0 nvoices
        then roles_inv sub_patch test done loc w
        else loc = loc0)).
  destruct (for_each_acc_inv Inv
              (item_loop_body patcher sub_patch rnbo codebox midi nvoices test)
              items [] loc0 w0) as (loc & w' & E & Hg & Hw & Hr).
  - intros done x loc w Hx (Hg & Hw & Hr).
    pose proof Hg as (Hnum & _).
    destruct (item_loop_body_spec patcher sub_patch rnbo codebox midi nvoices
                test loc x w Hne) as (loc' & w' & sp & E & Hwired & Hloc).
    + rewrite Hnum. exact Hvp.
    + rewrite Hnum. exact Hvs.
    + rewrite Forall_forall in Hok. apply Hok. exact Hx.
    + exists loc', w'. split; [exact E|].
      pose proof (item_wired_grown _ _ _ _ _ _ _ _ Hwired) as Hstep.
      split; [eapply grown_trans; eassumption|]. split.
      * intros it Hit. apply in_app_or in Hit. destruct Hit as [Hit|[<-|[]]].
        -- eapply wiring_present_grown; [exact Hstep|]. apply Hw. exact Hit.
        -- eapply item_wired_present. exact Hwired.
      * destruct (midi && Z.ltb 0 nvoices).
        -- subst loc'. eapply roles_inv_step; eassumption.
        -- subst loc'. exact Hr.
  - split; [apply grown_refl|]. split; [intros it []|].
    destruct (midi && Z.ltb 0 nvoices); [|reflexivity].
    repeat split.
  - exists loc, w'. auto.
Qed.

Lemma add_polyphony_control_spec (sub_patch : nat) (pitch gain gate : Box)
    (fm gm : bool) (w : World) :
  exists w',
    add_polyphony_control sub_patch pitch gain gate fm gm w = Ok (tt, w')
    /\ polyphony_subgraph sub_patch pitch gain gate fm gm
         (boxes_at sub_patch w) (lines_at sub_patch w) w'
    /\ (forall q, q <> sub_patch ->
          boxes_at q w' = boxes_at q w /\ lines_at q w' = lines_at q w)
    /\ (forall q, path_at q w' = path_at q w)
    /\ ((sub_patch < num_patchers w)%nat -> num_patchers w' = num_patchers w).
Proof.
  unfold add_polyphony_control, polyphony_subgraph, is_textbox.
  pose (dm := mkBox 0 Textbox "mtof" None None NoConfig).
  pose (ds := mkBox 0 Textbox "scale 0 127 0 1" None None NoConfig).
  destruct fm, gm;
    (eexists; split; [exec; reflexivity|]);
    (split;
     [first [ eexists _, _, _, _; obs_simpl; repeat split; revgoals;
              reflexivity
            | eexists _, _, ds, _; obs_simpl; repeat split; revgoals;
              reflexivity
            | eexists _, dm, _, _; obs_simpl; repeat split; revgoals;
              reflexivity
            | eexists _, dm, ds, _; obs_simpl; repeat split; revgoals;
              reflexivity ]|]);
    (split; [intros q Hq; apply Nat.eqb_neq in Hq; obs_simpl;
             split; reflexivity|]);
    (split; [intros q; obs_simpl; reflexivity|]);
    intros Hv; num_chain.
Qed.

(** ** The construction of a unit: [add_rnbo_object] *)

Lemma boxes_fresh (w : World) : boxes_at (num_patchers w) w = [].
Proof. unfold boxes_at. rewrite get_fresh. reflexivity. Qed.

Lemma lines_fresh (w : World) : lines_at (num_patchers w) w = [].
Proof. unfold lines_at. rewrite get_fresh. reflexivity. Qed.

Lemma extends_grown (patcher sub_patch : nat) (bs : list Box)
    (ls : list Patchline) (w w' : World) :
  patcher <> sub_patch ->
  (sub_patch < num_patchers w)%nat ->
  Forall (fun b => ~ is_polyphony_box b) bs ->
  extends_at sub_patch bs ls w w' ->
  grown patcher sub_patch w w'.
Proof.
  intros Hne Hv Hf (Hb & Hl & Hfr & Hp & Hn).
  destruct (Hfr patcher Hne) as [Hpb Hpl].
  split; [auto|]. split; [exact Hp|]. split.
  - exists [], []. rewrite !app_nil_r. repeat split; auto.
  - exists bs, ls. auto.
Qed.

Lemma io_box_step (patcher sub_patch : nat) (text : string) (c : ascii)
    (s : string) (mk_line : Box -> Patchline) (w : World) :
  patcher <> sub_patch ->
  (sub_patch < num_patchers w)%nat ->
  text = String c s ->
  c <> "n"%char -> c <> "m"%char -> c <> ">"%char ->
  let b := mkBox (next_id sub_patch w) Textbox text None None NoConfig in
  grown patcher sub_patch w (push_line sub_patch (mk_line b)
                               (push_box sub_patch b w)).
Proof.
  intros Hne Hv Ht H1 H2 H3 b.
  apply extends_grown with (bs := [b]) (ls := [mk_line b]); auto.
  - constructor; [|constructor].
    eapply text_not_polyphony; [exact Ht|..]; assumption.
  - solve_extends sub_patch.
Qed.

Lemma add_rnbo_object_spec (patcher : nat) (dsp_name codebox_code : string)
    (items : list Item) (midi : bool) (nvoices : Z) (test : bool)
    (num_inputs num_outputs : Z) (inlets outlets : Z)
    (inletInfo outletInfo : IOInfoDict) (w : World) :
  (patcher < num_patchers w)%nat ->
  generate_io_info midi num_inputs num_outputs =
    Ok (inlets, outlets, inletInfo, outletInfo) ->
  Forall (fun it => item_wiring_ok it = true) items ->
  exists rnbo w',
    add_rnbo_object patcher dsp_name codebox_code items midi nvoices test
      num_inputs num_outputs w = Ok (rnbo, w')
    /\ unit_built patcher dsp_name codebox_code items midi nvoices test
         num_inputs inlets outlets inletInfo outletInfo w rnbo w'.
Proof.
  intros Hv Hio Hok.
  assert (Hne : patcher <> num_patchers w) by lia.
  unfold add_rnbo_object. rewrite Hio.
  assert (Hsp : Nat.eqb (num_patchers w) patcher = false)
    by (apply Nat.eqb_neq; lia).
  assert (Hps : Nat.eqb patcher (num_patchers w) = false)
    by (apply Nat.eqb_neq; lia).
  unfold add_rnbo. exec.
  unfold subpatcher at 1. cbn [box_config]. exec.
  set (sub := num_patchers w) in *.
  match goal with
  | |- context [push_box patcher ?b (alloc_patcher None w)] => set (rnbo := b)
  end.
  match goal with
  | |- context [push_box sub ?b (push_box patcher rnbo _)] => set (codebox := b)
  end.
  set (Wc := push_box sub codebox (push_box patcher rnbo (alloc_patcher None w))).
  assert (HcN : num_patchers Wc = S (num_patchers w)).
  { unfold Wc. rewrite num_push_box; rewrite num_push_box; rewrite ?num_alloc;
      fold sub; lia. }
  assert (HcP : forall q, q <> sub -> path_at q Wc = path_at q w).
  { intros q Hq. apply Nat.eqb_neq in Hq. unfold Wc.
    unfold sub in Hq. obs_simpl. reflexivity. }
  assert (HcMb : boxes_at patcher Wc = boxes_at patcher w ++ [rnbo])
    by (unfold Wc; obs_simpl; reflexivity).
  assert (HcMl : lines_at patcher Wc = lines_at patcher w)
    by (unfold Wc; obs_simpl; reflexivity).
  assert (HcSb : boxes_at sub Wc = [codebox]).
  { unfold Wc. obs_simpl.
    replace (boxes_at sub w) with (@nil Box)
      by (symmetry; apply boxes_fresh).
    reflexivity. }
  assert (HcSl : lines_at sub Wc = []).
  { unfold Wc. obs_simpl.
    replace (lines_at sub w) with (@nil Patchline)
      by (symmetry; apply lines_fresh).
    reflexivity. }
  clearbody Wc.
  assert (HvS : (sub < num_patchers Wc)%nat) by (unfold sub; lia).
  assert (HvP : (patcher < num_patchers Wc)%nat) by lia.
  (* the placeholder *)
  assert (Hph : exists W1,
    (if Z.eqb num_inputs 0
     then bind (add_textbox sub "in~ 1")
            (fun in1 => add_line sub in1 codebox 0 0)
     else ret tt) Wc = Ok (tt, W1)
    /\ grown patcher sub Wc W1
    /\ (num_inputs = 0 ->
        exists in1, In in1 (boxes_at sub W1)
                    /\ is_textbox "in~ 1" in1
                    /\ In (line_of in1 0 codebox 0) (lines_at sub W1))).
  { destruct (Z.eqb_spec num_inputs 0) as [Hz|Hz].
    - eexists. split; [exec; reflexivity|]. split.
      + apply (io_box_step patcher sub "in~ 1" "i" "n~ 1"
                 (fun b => line_of b 0 codebox 0));
          auto; discriminate.
      + intros _. eexists. obs_simpl.
        split; [apply in_or_app; right; left; reflexivity|].
        split; [split; reflexivity|].
        apply in_or_app; right; left; reflexivity.
    - exists Wc. split; [reflexivity|]. split; [apply grown_refl|].
      intros; contradiction. }
  destruct Hph as (W1 & E1 & Hg1 & Hin1).
  unfold add_textbox in E1.
  rewrite (bind_ok _ _ _ _ _ E1). cbn beta. clear E1.
  assert (Hv1 : num_patchers W1 = num_patchers Wc) by apply Hg1.
  (* the inputs and the outputs *)
  match goal with
  | |- context [bind (for_each ?l ?body) ?f W1] =>
      destruct (for_each_inv (grown patcher sub W1) body l W1)
        as (W2 & E2 & Hg2);
      [ | apply grown_refl
        | rewrite (bind_ok _ f W1 _ _ E2); cbn beta; clear E2 ]
  end.
  { intros i w0 Hg0. eexists. split; [exec; reflexivity|].
    eapply grown_trans; [exact Hg0|].
    apply (io_box_step patcher sub ("in~ " ++ str_int (i + 1)) "i"
             ("n~ " ++ str_int (i + 1))
             (fun b => line_of b 0 codebox i));
      auto; try discriminate.
    destruct Hg0 as (-> & _). rewrite Hv1. exact HvS. }
  assert (Hv2 : num_patchers W2 = num_patchers Wc)
    by (destruct Hg2 as (-> & _); exact Hv1).
  match goal with
  | |- context [bind (for_each ?l ?body) ?f W2] =>
      destruct (for_each_inv (grown patcher sub W2) body l W2)
        as (W3 & E3 & Hg3);
      [ | apply grown_refl
        | rewrite (bind_ok _ f W2 _ _ E3); cbn beta; clear E3 ]
  end.
  { intros i w0 Hg0. eexists. split; [exec; reflexivity|].
    eapply grown_trans; [exact Hg0|].
    apply (io_box_step patcher sub ("out~ " ++ str_int (i + 1)) "o"
             ("ut~ " ++ str_int (i + 1))
             (fun b => line_of codebox i b 0));
      auto; try discriminate.
    destruct Hg0 as (-> & _). rewrite Hv2. exact HvS. }
  assert (Hv3 : num_patchers W3 = num_patchers Wc)
    by (destruct Hg3 as (-> & _); exact Hv2).
  (* the parameters *)
  destruct (param_loop_spec patcher sub rnbo codebox midi nvoices test items W3)
    as (loc & W4 & E4 & Hg4 & Hw4 & Hr4); auto; try lia.
  rewrite (bind_ok _ _ _ _ _ E4). cbn beta. clear E4.
  assert (Hg14 : grown patcher sub W1 W4)
    by (eapply grown_trans; [exact Hg2|];
        eapply grown_trans; [exact Hg3|exact Hg4]).
  assert (Hgc4 : grown patcher sub Wc W4)
    by (eapply grown_trans; [exact Hg1|exact Hg14]).
  destruct Hgc4 as (Hn4 & Hp4 & (ctrl & cl & Hmb & Hctrl & Hml)
                    & (sb & sl & Hsb & Hnp & Hsl)).
  rewrite HcMb, <- app_assoc in Hmb. cbn [app] in Hmb.
  rewrite HcMl in Hml. rewrite HcSb in Hsb. cbn [app] in Hsb.
  assert (Hnp4 : Forall (fun b => ~ is_polyphony_box b) (boxes_at sub W4)).
  { rewrite Hsb. constructor; [|exact Hnp].
    intros [Hc _]. discriminate Hc. }
  assert (Hbase : forall Wf,
    num_patchers Wf = num_patchers W4 ->
    (forall q, path_at q Wf = path_at q W4) ->
    boxes_at patcher Wf = boxes_at patcher W4 ->
    lines_at patcher Wf = lines_at patcher W4 ->
    incl (boxes_at sub W4) (boxes_at sub Wf) ->
    incl (lines_at sub W4) (lines_at sub Wf) ->
    (exists rest, boxes_at sub Wf = codebox :: rest) ->
    polyphony_outcome sub items midi nvoices test Wf ->
    unit_built patcher dsp_name codebox_code items midi nvoices test
      num_inputs inlets outlets inletInfo outletInfo w rnbo Wf).
  { intros Wf Fn Fp Fb Fl Ib Il Fh Fo. unfold unit_built. fold sub.
    split; [reflexivity|].
    split; [rewrite Fn, Hn4; exact HcN|].
    split; [intros q Hq; rewrite Fp, Hp4; apply HcP; exact Hq|].
    split; [exists ctrl, cl; rewrite Fb, Fl; auto|].
    split; [exact Fh|].
    split.
    - intros Hz. destruct (Hin1 Hz) as (in1 & Hi1 & Hi2 & Hi3).
      exists in1. split; [|split; [exact Hi2|]].
      + apply Ib. eapply grown_boxes_sub; eassumption.
      + apply Il. eapply grown_lines_sub; eassumption.
    - split; [|exact Fo].
      intros it Hit.
      apply (wiring_present_incl patcher sub rnbo codebox _ W4 Wf); auto.
      + rewrite Fb. apply incl_refl.
      + rewrite Fl. apply incl_refl. }
  assert (Hnone : polyphony_outcome sub items midi nvoices test W4 ->
    exists rnbo0 w',
      bind (ret tt) (fun _ => ret rnbo) W4 = Ok (rnbo0, w')
      /\ unit_built patcher dsp_name codebox_code items midi nvoices test
           num_inputs inlets outlets inletInfo outletInfo w rnbo0 w').
  { intros Ho. exists rnbo, W4. split; [reflexivity|].
    apply Hbase; try reflexivity; try apply incl_refl; [|exact Ho].
    exists sb. exact Hsb. }
  unfold polyphony_outcome in *.
  destruct (midi && Z.ltb 0 nvoices) eqn:Hm; [|apply Hnone; exact Hnp4].
  destruct Hr4 as (Rp & Rg & Rt & Hf & Hgm).
  unfold relay_for in Rp, Rg, Rt.
  destruct (last_item is_pitch_item items) as [ip|];
    [destruct Rp as (bp & -> & Ip & Tp)|rewrite Rp; apply Hnone; exact Hnp4].
  destruct (last_item is_gain_item items) as [ig|];
    [destruct Rg as (bg & -> & Ig & Tg)|rewrite Rg; apply Hnone; exact Hnp4].
  destruct (last_item is_gate_item items) as [it|];
    [destruct Rt as (bt & -> & It & Tt)|rewrite Rt; apply Hnone; exact Hnp4].
  destruct (add_polyphony_control_spec sub bp bg bt (is_freq loc) (is_gain loc)
              W4) as (W5 & E5 & Hsub & Hfr & Hpath & Hnum).
  rewrite (bind_ok _ _ _ _ _ E5). exists rnbo, W5. split; [reflexivity|].
  destruct (Hfr patcher Hne) as [Fb Fl].
  pose proof Hsub as (ni & mt & sg & go & _ & _ & _ & _ & Hb5 & Hl5).
  apply Hbase; auto.
  - apply Hnum. lia.
  - rewrite Hb5. apply incl_appl, incl_refl.
  - rewrite Hl5. apply incl_appl, incl_refl.
  - rewrite Hb5, Hsb. eexists. reflexivity.
  - exists (boxes_at sub W4), (lines_at sub W4), bp, bg, bt.
    split; [exact Hnp4|]. repeat split; auto.
    rewrite <- Hf, <- Hgm. exact Hsub.
Qed.

(** ** Polyphony *)

(** C5, as amended.  For a MIDI-enabled unit with a positive voice count
    that can be built (it has an audio input or output, so that the port
    planner returns, and [(max - min) / step] can be computed for every
    slider and numeric entry), the unit is built and:
    - the control wiring of every parameter is present;
    - when a parameter ends in [freq] or [key], one in [gain] or
      [velocity] and one in [gate], the sub-patch ends with the polyphony
      sub-graph: one [notein] node, the gate path through [> 0], the
      pitch path to the relay of the last parameter ending in [freq] or
      [key], through [mtof] exactly when that one ends in [freq], and the
      gain path to the relay of the last parameter ending in [gain] or
      [velocity], through [scale 0 127 0 1] exactly when that one ends in
      [gain]; no other box of the sub-patch is a polyphony node;
    - when one of the three roles is missing, the sub-patch has no
      polyphony node at all. *)
Theorem polyphony_of_unit
    (patcher : nat) (dsp_name codebox_code : string) (items : list Item)
    (nvoices : Z) (test : bool) (num_inputs num_outputs : Z) (w : World) :
  (patcher < num_patchers w)%nat ->
  0 < nvoices ->
  0 < num_inputs \/ 0 < num_outputs ->
  Forall (fun it => item_wiring_ok it = true) items ->
  exists rnbo w',
    add_rnbo_object patcher dsp_name codebox_code items true nvoices test
      num_inputs num_outputs w = Ok (rnbo, w')
    /\ (forall it, In it items ->
          wiring_present patcher (num_patchers w) rnbo
            (mkBox 1 CodeboxTilde codebox_code None None NoConfig)
            (item_label test it) w')
    /\ match last_item is_pitch_item items,
             last_item is_gain_item items,
             last_item is_gate_item items with
       | Some ip, Some ig, Some it =>
           exists pre pre_lines pitch gain gate,
             Forall (fun b => ~ is_polyphony_box b) pre
             /\ relay_in test ip pitch pre
             /\ relay_in test ig gain pre
             /\ relay_in test it gate pre
             /\ polyphony_subgraph (num_patchers w) pitch gain gate
                  (endswith (item_shortname ip) "freq")
                  (endswith (item_shortname ig) "gain")
                  pre pre_lines w'
       | _, _, _ =>
           Forall (fun b => ~ is_polyphony_box b)
             (boxes_at (num_patchers w) w')
       end.
Proof.
  intros Hv Hn Hio Hok.
  destruct (generate_io_info_midi num_inputs num_outputs Hio)
    as (ii & oi & Eio).
  destruct (add_rnbo_object_spec patcher dsp_name codebox_code items true
              nvoices test num_inputs num_outputs _ _ _ _ w Hv Eio Hok)
    as (rnbo & w' & E & _ & _ & _ & _ & _ & _ & Hw & Hp).
  exists rnbo, w'. split; [exact E|]. split; [exact Hw|].
  unfold polyphony_outcome, freq_mode, gain_mode in Hp.
  replace (Z.ltb 0 nvoices) with true in Hp by (symmetry; apply Z.ltb_lt; lia).
  cbn [andb] in Hp.
  destruct (last_item is_pitch_item items);
    destruct (last_item is_gain_item items);
    destruct (last_item is_gate_item items); exact Hp.
Qed.

Lemma voice_items_ok :
  Forall (fun it => item_wiring_ok it = true) voice_items.
Proof. repeat constructor. Qed.

Lemma polyphony_of_unit_witness :
  exists rnbo w',
    add_rnbo_object 0 "synth" "code" voice_items true 4 false 0 2 main_only
    = Ok (rnbo, w').
Proof.
  destruct (polyphony_of_unit 0 "synth" "code" voice_items 4 false 0 2
              main_only) as (rnbo & w' & E & _).
  - vm_compute. lia.
  - lia.
  - right. lia.
  - exact voice_items_ok.
  - exists rnbo, w'. exact E.
Defined.

(** The scenario of the specification: with [voice_freq], [voice_gain]
    and [voice_gate] and four voices, the sub-patch ends with the
    polyphony nodes, [mtof] included. *)
Example voice_unit_boxes :
  exists rnbo w',
    add_rnbo_object 0 "synth" "code" voice_items true 4 false 0 2 main_only
    = Ok (rnbo, w')
    /\ map box_text (boxes_at 1 w') =
       ["code"; "in~ 1"; "out~ 1"; "out~ 2";
        "set voice_freq"; "param voice_freq 0.5 @min 0 @max 1";
        "set voice_gain"; "param voice_gain 0.5 @min 0 @max 1";
        "set voice_gate"; "param voice_gate 0 @min 0 @max 1";
        "notein"; "mtof"; "scale 0 127 0 1"; "> 0"].
Proof. eexists _, _. split; vm_compute; reflexivity. Qed.

(** C5, counterexample.  The parameters [voice_freq], [voice_gain],
    [voice_gate], [note_key] contain shortnames ending in [freq], [gain]
    and [gate], on a MIDI-enabled unit with four voices; the polyphony
    sub-graph is built, but its pitch path does not go through a key to
    frequency node: there is no [mtof] box, and the note input is wired
    directly to the relay of [note_key]. *)
Lemma polyphony_key_after_freq_has_no_mtof :
  (exists it, In it voice_items_with_key
              /\ endswith (item_shortname it) "freq" = true)
  /\ (exists it, In it voice_items_with_key
                 /\ endswith (item_shortname it) "gain" = true)
  /\ (exists it, In it voice_items_with_key
                 /\ endswith (item_shortname it) "gate" = true)
  /\ exists rnbo w',
       add_rnbo_object 0 "synth" "code" voice_items_with_key true 4 false
         0 2 main_only = Ok (rnbo, w')
       /\ map box_text (boxes_at 1 w') =
          ["code"; "in~ 1"; "out~ 1"; "out~ 2";
           "set voice_freq"; "param voice_freq 0.5 @min 0 @max 1";
           "set voice_gain"; "param voice_gain 0.5 @min 0 @max 1";
           "set voice_gate"; "param voice_gate 0 @min 0 @max 1";
           "set note_key"; "param note_key 0.5 @min 0 @max 1";
           "notein"; "scale 0 127 0 1"; "> 0"]
       /\ ~ In "mtof" (map box_text (boxes_at 1 w'))
       /\ In (mkPatchline (13%nat, 0) (11%nat, 0)) (lines_at 1 w').
Proof.
  split; [exists (sample_slider "voice_freq" []); split;
          [simpl; tauto|reflexivity]|].
  split; [exists (sample_slider "voice_gain" []); split;
          [simpl; tauto|reflexivity]|].
  split; [exists (sample_button "voice_gate"); split;
          [simpl; tauto|reflexivity]|].
  eexists _, _. split; [vm_compute; reflexivity|].
  split; [vm_compute; reflexivity|].
  split; [vm_compute; intuition discriminate|].
  vm_compute. tauto.
Qed.

(** ** The assembly of the patch: [create_rnbo_patch] *)

Lemma extends_at_refl (p : nat) (w : World) : extends_at p [] [] w w.
Proof. solve_extends p. Qed.

Lemma extends_at_trans (p : nat) (b1 b2 : list Box) (l1 l2 : list Patchline)
    (w w1 w2 : World) :
  extends_at p b1 l1 w w1 -> extends_at p b2 l2 w1 w2 ->
  extends_at p (b1 ++ b2) (l1 ++ l2) w w2.
Proof.
  intros (Hb1 & Hl1 & Hf1 & Hp1 & Hn1) (Hb2 & Hl2 & Hf2 & Hp2 & Hn2).
  split; [rewrite Hb2, Hb1, app_assoc; reflexivity|].
  split; [rewrite Hl2, Hl1, app_assoc; reflexivity|].
  split.
  - intros q Hq. destruct (Hf1 q Hq) as [<- <-]. apply Hf2. exact Hq.
  - split; [intros q; rewrite Hp2; apply Hp1|].
    intros Hv. rewrite Hn2; rewrite Hn1; auto.
Qed.

Lemma extends_grows (p : nat) (bs : list Box) (ls : list Patchline)
    (w w' : World) :
  (p < num_patchers w)%nat ->
  extends_at p bs ls w w' -> patcher_grows p bs ls w w'.
Proof.
  intros Hv (Hb & Hl & _ & Hp & Hn).
  repeat split; auto. rewrite Hn by exact Hv. apply Nat.le_refl.
Qed.

Lemma patcher_grows_refl (p : nat) (w : World) : patcher_grows p [] [] w w.
Proof.
  unfold patcher_grows. rewrite !app_nil_r. repeat split; auto.
Qed.

Lemma patcher_grows_trans (p : nat) (b1 b2 : list Box)
    (l1 l2 : list Patchline) (w w1 w2 : World) :
  patcher_grows p b1 l1 w w1 -> patcher_grows p b2 l2 w1 w2 ->
  patcher_grows p (b1 ++ b2) (l1 ++ l2) w w2.
Proof.
  intros (Hb1 & Hl1 & Hp1 & Hn1) (Hb2 & Hl2 & Hp2 & Hn2).
  split; [rewrite Hb2, Hb1, app_assoc; reflexivity|].
  split; [rewrite Hl2, Hl1, app_assoc; reflexivity|].
  split; [congruence|lia].
Qed.

(** A loop that only adds lines. *)
Lemma for_each_add_line (p : nat) (src dst : Z -> Box) (inl outl : Z -> Z)
    (l : list Z) (w : World) :
  exists w',
    for_each l (fun i => add_line p (src i) (dst i) (inl i) (outl i)) w
    = Ok (tt, w')
    /\ extends_at p []
         (map (fun i => line_of (src i) (outl i) (dst i) (inl i)) l) w w'.
Proof.
  revert w; induction l as [|i l IH]; intros w.
  - exists w. split; [reflexivity|]. apply extends_at_refl.
  - destruct (IH (push_line p (line_of (src i) (outl i) (dst i) (inl i)) w))
      as (w' & E & Hext).
    exists w'. split.
    + cbn [for_each]. rewrite bind_add_line. exact E.
    + cbn [map].
      refine (extends_at_trans p [] [] [_] _ w _ w' _ Hext).
      solve_extends p.
Qed.

Lemma connect_dsp_effect_spec (patcher : nat) (dsp_rnbo effect_rnbo : Box)
    (dsp_num_outputs effect_num_inputs : Z) (w : World) :
  exists w',
    connect_dsp_effect patcher dsp_rnbo effect_rnbo
      dsp_num_outputs effect_num_inputs w = Ok (tt, w')
    /\ extends_at patcher []
         (map (fun e => line_of dsp_rnbo (fst e) effect_rnbo (snd e))
              (adaptation_edges dsp_num_outputs effect_num_inputs)) w w'.
Proof.
  unfold connect_dsp_effect, adaptation_edges.
  destruct dsp_num_outputs as [|[[p|p|]|[p|p|]|]|p];
    destruct effect_num_inputs as [|[[q|q|]|[q|q|]|]|q];
    cbn [Z.eqb Pos.eqb andb map fst snd];
    (eexists; split; [exec; reflexivity|]); solve_extends patcher.
Qed.

Lemma connect_midi_spec (patcher : nat) (rnbo midi_in midi_out : Box)
    (w : World) :
  exists w',
    connect_midi patcher rnbo midi_in midi_out w = Ok (tt, w')
    /\ extends_at patcher []
         [line_of midi_in 0 rnbo (numinlets rnbo - 1);
          line_of rnbo (numoutlets rnbo - 3) midi_out 0] w w'.
Proof.
  unfold connect_midi.
  eexists; split; [exec; reflexivity|]. solve_extends patcher.
Qed.

Lemma add_compile_test_spec (patcher : nat) (rnbo : Box)
    (export_path cpp_filename : string) (w : World) :
  exists w' bs ls,
    add_compile_test patcher rnbo export_path cpp_filename w = Ok (tt, w')
    /\ extends_at patcher bs ls w w'
    /\ Forall is_machinery bs.
Proof.
  unfold add_compile_test.
  eexists _, _, _; split; [exec; reflexivity|]. split; [solve_extends patcher|].
  repeat (apply Forall_cons;
          [first [left; reflexivity | right; split; [reflexivity|simpl; tauto]]|]).
  apply Forall_nil.
Qed.

Lemma create_audio_output_spec (patcher : nat) (rnbo : Box)
    (num_outputs : Z) (w : World) :
  exists w' toggle audio_out,
    create_audio_output patcher rnbo num_outputs w = Ok (tt, w')
    /\ is_textbox "toggle" toggle
    /\ is_textbox ("dac~ " ++ channel_numbers num_outputs) audio_out
    /\ box_numinlets audio_out = Some num_outputs
    /\ extends_at patcher [toggle; audio_out]
         (line_of toggle 0 audio_out 0
          :: map (fun i => line_of rnbo i audio_out i)
               (py_range 0 num_outputs)) w w'.
Proof.
  unfold create_audio_output. exec.
  match goal with
  | |- context [for_each ?l (fun i => add_line _ ?s ?d i i) ?W] =>
      destruct (for_each_add_line patcher (fun _ => s) (fun _ => d)
                  (fun i => i) (fun i => i) l W) as (w' & E & Hext)
  end.
  rewrite E.
  match type of E with
  | for_each _ _ (push_line _ (line_of ?t _ ?a _) _) = _ => exists w', t, a
  end.
  split; [reflexivity|].
  split; [split; reflexivity|]. split; [split; reflexivity|].
  split; [reflexivity|].
  refine (extends_at_trans patcher [_; _] [] [_] _ w _ w' _ Hext).
  solve_extends patcher.
Qed.

Lemma create_audio_input_spec (patcher : nat) (rnbo : Box)
    (num_inputs : Z) (w : World) :
  exists w' audio_in,
    create_audio_input patcher rnbo num_inputs w = Ok (tt, w')
    /\ is_textbox ("adc~ " ++ channel_numbers num_inputs) audio_in
    /\ box_numoutlets audio_in = Some num_inputs
    /\ extends_at patcher [audio_in]
         (map (fun i => line_of audio_in i rnbo i) (py_range 0 num_inputs))
         w w'.
Proof.
  unfold create_audio_input. exec.
  match goal with
  | |- context [for_each ?l (fun i => add_line _ ?s ?d i i) ?W] =>
      destruct (for_each_add_line patcher (fun _ => s) (fun _ => d)
                  (fun i => i) (fun i => i) l W) as (w' & E & Hext)
  end.
  rewrite E.
  match type of E with
  | for_each _ _ (push_box _ ?a _) = _ => exists w', a
  end.
  split; [reflexivity|].
  split; [split; reflexivity|]. split; [reflexivity|].
  refine (extends_at_trans patcher [_] [] [] _ w _ w' _ Hext).
  solve_extends patcher.
Qed.

Lemma unit_built_grows (patcher : nat) (dsp_name code : string)
    (items : list Item) (midi : bool) (nvoices : Z) (test : bool)
    (nin inlets outlets : Z) (ii oi : IOInfoDict) (w : World) (rnbo : Box)
    (w' : World) :
  (patcher < num_patchers w)%nat ->
  unit_built patcher dsp_name code items midi nvoices test nin inlets
    outlets ii oi w rnbo w' ->
  exists ctrl cl,
    patcher_grows patcher (rnbo :: ctrl) cl w w'
    /\ Forall is_control_box ctrl.
Proof.
  intros Hv (_ & Hn & Hp & (ctrl & cl & Hb & Hc & Hl) & _).
  exists ctrl, cl. split; [|exact Hc].
  repeat split; auto.
  - apply Hp. lia.
  - lia.
Qed.

(** The global MIDI nodes, connected to the DSP unit. *)
Lemma midi_nodes_spec (patcher : nat) (dsp_rnbo : Box) (midi : bool)
    (w : World) :
  exists r w' midi_in midi_out,
    (if midi then
       bind (add_textbox patcher "midiin") (fun midi_in =>
       bind (add_textbox patcher "midiout") (fun midi_out =>
       bind (connect_midi patcher dsp_rnbo midi_in midi_out) (fun _ =>
       ret (Some (midi_in, midi_out)))))
     else ret None) w = Ok (r, w')
    /\ r = (if midi then Some (midi_in, midi_out) else None)
    /\ is_textbox "midiin" midi_in
    /\ is_textbox "midiout" midi_out
    /\ extends_at patcher (if midi then [midi_in; midi_out] else [])
         (if midi then midi_lines midi_in midi_out dsp_rnbo else []) w w'.
Proof.
  destruct midi.
  - unfold connect_midi, midi_lines.
    eexists _, _, _, _. split; [exec; reflexivity|]. split; [reflexivity|].
    split; [split; reflexivity|]. split; [split; reflexivity|].
    solve_extends patcher.
  - exists None, w, (mkBox 0 Textbox "midiin" None None NoConfig),
      (mkBox 0 Textbox "midiout" None None NoConfig).
    split; [reflexivity|]. split; [reflexivity|].
    split; [split; reflexivity|]. split; [split; reflexivity|].
    apply extends_at_refl.
Qed.

(** Saving the sub-patcher of a unit changes no patcher. *)
Lemma save_subpatcher_spec (patcher : nat) (rnbo : Box) (flag : bool)
    (file : string) (title : string) (ii oi : IOInfoDict)
    (attrs : RnboAttributes) (sub : nat) (w : World) :
  box_config rnbo = RnboConfig title ii oi attrs sub ->
  exists w',
    (if flag then bind (subpatcher rnbo) (fun sub => saveas sub file)
     else ret tt) w = Ok (tt, w')
    /\ extends_at patcher [] [] w w'.
Proof.
  intros Hc. destruct flag.
  - unfold subpatcher. rewrite Hc.
    eexists. split; [exec; reflexivity|]. solve_extends patcher.
  - exists w. split; [reflexivity|]. apply extends_at_refl.
Qed.

(** The effect unit, its connection to the DSP and to the MIDI nodes. *)
Lemma effect_piece_spec (main : nat) (maxpat_path : string)
    (dsp_rnbo midi_in midi_out : Box) (dsp_num_outputs : Z) (midi : bool)
    (midi_io : option (Box * Box))
    (effect_codebox_code : option string)
    (effect_items_info_list : option (list Item)) (fx_items : list Item)
    (effect_num_inputs effect_num_outputs : Z) (subpatcher_flag : bool)
    (w : World) :
  (main < num_patchers w)%nat ->
  midi_io = (if midi then Some (midi_in, midi_out) else None) ->
  match truthy_str effect_codebox_code with
  | Some _ =>
      effect_items_info_list = Some fx_items
      /\ unit_inputs_ok midi effect_num_inputs effect_num_outputs fx_items
  | None => True
  end ->
  exists effect w' fx_boxes fx_lines last_rnbo last_outputs,
    match truthy_str effect_codebox_code with
    | Some effect_code =>
        effect_items <-
          match effect_items_info_list with
          | Some l => ret l
          | None =>
              lift (generate_io_info midi effect_num_inputs
                      effect_num_outputs) ;;
              raise (TypeError "'NoneType' object is not iterable")
          end ;;
        effect_rnbo <- add_rnbo_object main "Effect" effect_code
                         effect_items midi (-1) false
                         effect_num_inputs effect_num_outputs ;;
        connect_dsp_effect main dsp_rnbo effect_rnbo
          dsp_num_outputs effect_num_inputs ;;
        (if subpatcher_flag then
           sub <- subpatcher effect_rnbo ;;
           saveas sub (rsplit_dot_head maxpat_path ++ "_effect." ++ "rnbopat")
         else ret tt) ;;
        (if midi then
           '(midi_in, midi_out) <- read_local "midi_in" midi_io ;;
           connect_midi main effect_rnbo midi_in midi_out
         else ret tt) ;;
        ret (Some effect_rnbo)
    | None => ret None
    end w = Ok (effect, w')
    /\ patcher_grows main fx_boxes fx_lines w w'
    /\ effect_part main midi (truthy_str effect_codebox_code) fx_items
         effect_num_inputs effect_num_outputs dsp_num_outputs
         dsp_rnbo midi_in midi_out fx_boxes fx_lines last_rnbo last_outputs
    /\ effect = match truthy_str effect_codebox_code with
                | Some _ => Some last_rnbo
                | None => None
                end.
Proof.
  intros Hv Hio Hfx.
  destruct (truthy_str effect_codebox_code) as [effect_code|].
  2:{ exists None, w, [], [], dsp_rnbo, dsp_num_outputs.
      split; [reflexivity|]. split; [apply patcher_grows_refl|].
      split; [|reflexivity]. repeat split. }
  destruct Hfx as (-> & ([[[[ein eout] eii] eoi] Heio] & Heok)).
  rewrite bind_ret. cbn beta.
  destruct (add_rnbo_object_spec main "Effect" effect_code fx_items midi (-1)
              false effect_num_inputs effect_num_outputs ein eout eii eoi
              w Hv Heio Heok) as (effect_rnbo & w1 & E1 & Hbuilt).
  rewrite (bind_ok _ _ _ _ _ E1). cbn beta.
  destruct (unit_built_grows _ _ _ _ _ _ _ _ _ _ _ _ _ _ _ Hv Hbuilt)
    as (ctrl_e & cl_e & Hg1 & Hctrl_e).
  assert (Hcfg : exists t a b c d,
             box_config effect_rnbo = RnboConfig t a b c d).
  { destruct Hbuilt as (-> & _). eexists _, _, _, _, _. reflexivity. }
  destruct Hcfg as (t_e & a_e & b_e & c_e & s_e & Hcfg_e).
  assert (Hv1 : (main < num_patchers w1)%nat)
    by (destruct Hg1 as (_ & _ & _ & ?); lia).
  destruct (connect_dsp_effect_spec main dsp_rnbo effect_rnbo dsp_num_outputs
              effect_num_inputs w1) as (w2 & E2 & Hx2).
  rewrite (bind_ok _ _ _ _ _ E2). cbn beta. clear E2.
  pose proof (extends_grows _ _ _ _ _ Hv1 Hx2) as Hg2.
  assert (Hv2 : (main < num_patchers w2)%nat)
    by (destruct Hg2 as (_ & _ & _ & ?); lia).
  match goal with
  | |- context [bind (if subpatcher_flag then _ else _) ?f w2] =>
      destruct (save_subpatcher_spec main effect_rnbo subpatcher_flag
                  (rsplit_dot_head maxpat_path ++ "_effect." ++ "rnbopat")
                  _ _ _ _ _ w2 Hcfg_e) as (w3 & E3 & Hx3);
      rewrite (bind_ok _ f w2 _ _ E3); cbn beta; clear E3
  end.
  pose proof (extends_grows _ _ _ _ _ Hv2 Hx3) as Hg3.
  assert (Hv3 : (main < num_patchers w3)%nat)
    by (destruct Hg3 as (_ & _ & _ & ?); lia).
  assert (Hm : exists w4,
    (if midi then
       '(midi_in, midi_out) <- read_local "midi_in" midi_io ;;
       connect_midi main effect_rnbo midi_in midi_out
     else ret tt) w3 = Ok (tt, w4)
    /\ extends_at main []
         (if midi then midi_lines midi_in midi_out effect_rnbo else [])
         w3 w4).
  { subst midi_io. destruct midi.
    - cbn [read_local]. rewrite bind_ret. cbn beta iota.
      apply connect_midi_spec.
    - exists w3. split; [reflexivity|]. apply extends_at_refl. }
  destruct Hm as (w4 & E4 & Hx4).
  rewrite (bind_ok _ _ _ _ _ E4). cbn beta. clear E4.
  pose proof (extends_grows _ _ _ _ _ Hv3 Hx4) as Hg4.
  rewrite run_ret.
  eexists (Some effect_rnbo), w4, _, _, effect_rnbo, effect_num_outputs.
  split; [reflexivity|]. split.
  - eapply patcher_grows_trans; [exact Hg1|].
    eapply patcher_grows_trans; [exact Hg2|].
    eapply patcher_grows_trans; [exact Hg3|exact Hg4].
  - split; [|reflexivity].
    exists effect_rnbo, w, w1, ctrl_e, cl_e, ein, eout, eii, eoi.
    split; [exact Hv|]. split; [exact E1|].
    split; [exact Heio|]. split; [exact Hbuilt|].
    split; [rewrite !app_nil_r; reflexivity|].
    split; [exact Hctrl_e|].
    split; [cbn [app]; reflexivity|]. split; reflexivity.
Qed.

Ltac bind_step H :=
  rewrite (bind_ok _ _ _ _ _ H); cbn beta.

Lemma create_rnbo_patch_spec
    (dsp_name maxpat_path export_path cpp_filename dsp_codebox_code : string)
    (dsp_items_info_list : list Item) (dsp_num_inputs dsp_num_outputs : Z)
    (midi : bool) (nvoices : Z)
    (effect_codebox_code : option string)
    (effect_items_info_list : option (list Item)) (fx_items : list Item)
    (effect_num_inputs effect_num_outputs : Z)
    (compile test subpatcher_flag : bool) (w : World) :
  unit_inputs_ok midi dsp_num_inputs dsp_num_outputs dsp_items_info_list ->
  match truthy_str effect_codebox_code with
  | Some _ =>
      effect_items_info_list = Some fx_items
      /\ unit_inputs_ok midi effect_num_inputs effect_num_outputs fx_items
  | None => True
  end ->
  exists w',
    create_rnbo_patch dsp_name maxpat_path export_path cpp_filename
      dsp_codebox_code dsp_items_info_list dsp_num_inputs dsp_num_outputs
      midi nvoices effect_codebox_code effect_items_info_list
      effect_num_inputs effect_num_outputs compile test subpatcher_flag w
    = Ok (tt, w')
    /\ patch_built (num_patchers w) dsp_name dsp_codebox_code
         dsp_items_info_list dsp_num_inputs dsp_num_outputs midi nvoices
         test (truthy_str effect_codebox_code) fx_items
         effect_num_inputs effect_num_outputs compile w'.
Proof.
  intros ([[[[din dout] dii] doi] Hdio] & Hdok) Hfx.
  unfold create_rnbo_patch.
  set (main := num_patchers w).
  (* the patcher and its comment *)
  rewrite bind_new_patcher. cbn beta. fold main.
  set (w1 := alloc_patcher (Some maxpat_path) w).
  assert (H1n : num_patchers w1 = S main) by (unfold w1; apply num_alloc).
  assert (H1b : boxes_at main w1 = [])
    by (unfold w1; obs_simpl; apply boxes_fresh).
  assert (H1l : lines_at main w1 = [])
    by (unfold w1; obs_simpl; apply lines_fresh).
  assert (H1p : path_at main w1 = Some maxpat_path)
    by (unfold w1, main; obs_simpl; reflexivity).
  clearbody w1.
  unfold add_comment at 1.
  rewrite (bind_add_box _ _ _ _ _ _ _ _ _ eq_refl). cbn beta.
  match goal with
  | |- context [push_box main ?b w1] => set (comment_box := b)
  end.
  set (w2 := push_box main comment_box w1).
  assert (H2n : num_patchers w2 = S main)
    by (unfold w2; rewrite num_push_box; lia).
  assert (H2b : boxes_at main w2 = [comment_box])
    by (unfold w2; obs_simpl; rewrite H1b; reflexivity).
  assert (H2l : lines_at main w2 = [])
    by (unfold w2; obs_simpl; exact H1l).
  assert (H2p : path_at main w2 = Some maxpat_path)
    by (unfold w2; obs_simpl; exact H1p).
  clearbody w2. clear H1n H1b H1l H1p.
  (* the DSP unit *)
  assert (Hv2 : (main < num_patchers w2)%nat) by lia.
  destruct (add_rnbo_object_spec main dsp_name dsp_codebox_code
              dsp_items_info_list midi nvoices test dsp_num_inputs
              dsp_num_outputs din dout dii doi w2 Hv2 Hdio Hdok)
    as (dsp_rnbo & w3 & E3 & Hbuilt).
  rewrite (bind_ok _ _ _ _ _ E3). cbn beta.
  destruct (unit_built_grows _ _ _ _ _ _ _ _ _ _ _ _ _ _ _ Hv2 Hbuilt)
    as (ctrl_d & cl_d & Hg3 & Hctrl_d).
  assert (Hcfg : exists t a b c d, box_config dsp_rnbo = RnboConfig t a b c d).
  { destruct Hbuilt as (-> & _). eexists _, _, _, _, _. reflexivity. }
  destruct Hcfg as (t_d & a_d & b_d & c_d & s_d & Hcfg_d).
  assert (Hv3 : (main < num_patchers w3)%nat) by (destruct Hg3 as (_ & _ & _ & ?); lia).
  (* the MIDI nodes *)
  destruct (midi_nodes_spec main dsp_rnbo midi w3)
    as (midi_io & w4 & midi_in & midi_out & E4 & Hio4 & Hmi & Hmo & Hx4).
  rewrite (bind_ok _ _ _ _ _ E4). cbn beta. clear E4.
  pose proof (extends_grows _ _ _ _ _ Hv3 Hx4) as Hg4.
  assert (Hv4 : (main < num_patchers w4)%nat) by (destruct Hg4 as (_ & _ & _ & ?); lia).
  (* saving the sub-patcher *)
  match goal with
  | |- context [bind (if subpatcher_flag then _ else _) ?f w4] =>
      destruct (save_subpatcher_spec main dsp_rnbo subpatcher_flag
                  (rsplit_dot_head maxpat_path ++ "." ++ "rnbopat")
                  _ _ _ _ _ w4 Hcfg_d) as (w5 & E5 & Hx5);
      rewrite (bind_ok _ f w4 _ _ E5); cbn beta; clear E5
  end.
  pose proof (extends_grows _ _ _ _ _ Hv4 Hx5) as Hg5.
  assert (Hv5 : (main < num_patchers w5)%nat) by (destruct Hg5 as (_ & _ & _ & ?); lia).
  (* the effect *)
  destruct (effect_piece_spec main maxpat_path dsp_rnbo midi_in midi_out
              dsp_num_outputs midi midi_io effect_codebox_code
              effect_items_info_list fx_items effect_num_inputs
              effect_num_outputs subpatcher_flag w5 Hv5 Hio4 Hfx)
    as (effect & w6 & fx_boxes & fx_lines & last_rnbo & last_outputs
        & E6 & Hg6 & Hpart & Heff).
  rewrite (bind_ok _ _ _ _ _ E6). cbn beta. clear E6.
  assert (Hv6 : (main < num_patchers w6)%nat)
    by (destruct Hg6 as (_ & _ & _ & ?); lia).
  (* the export machinery *)
  assert (Hc : exists w7 cb cl,
    (if compile then add_compile_test main dsp_rnbo export_path cpp_filename
     else ret tt) w6 = Ok (tt, w7)
    /\ extends_at main cb cl w6 w7
    /\ Forall is_machinery cb
    /\ (compile = false -> cb = [] /\ cl = [])).
  { destruct compile.
    - destruct (add_compile_test_spec main dsp_rnbo export_path cpp_filename
                  w6) as (w7 & cb & cl & E & Hx & Hf).
      exists w7, cb, cl. split; [exact E|]. split; [exact Hx|].
      split; [exact Hf|]. intros H. discriminate H.
    - exists w6, [], []. split; [reflexivity|].
      split; [apply extends_at_refl|]. split; [constructor|]. auto. }
  destruct Hc as (w7 & cmp_boxes & cmp_lines & E7 & Hx7 & Hmach & Hnocmp).
  rewrite (bind_ok _ _ _ _ _ E7). cbn beta. clear E7.
  pose proof (extends_grows _ _ _ _ _ Hv6 Hx7) as Hg7.
  assert (Hv7 : (main < num_patchers w7)%nat)
    by (destruct Hg7 as (_ & _ & _ & ?); lia).
  (* the audio output *)
  assert (Ho : exists w8 toggle dac,
    match truthy_str effect_codebox_code with
    | Some _ =>
        effect_rnbo <- read_local "effect_rnbo" effect ;;
        create_audio_output main effect_rnbo effect_num_outputs
    | None => create_audio_output main dsp_rnbo dsp_num_outputs
    end w7 = Ok (tt, w8)
    /\ is_textbox "toggle" toggle
    /\ is_textbox ("dac~ " ++ channel_numbers last_outputs) dac
    /\ extends_at main [toggle; dac]
         (line_of toggle 0 dac 0
          :: map (fun i => line_of last_rnbo i dac i)
               (py_range 0 last_outputs)) w7 w8).
  { unfold effect_part in Hpart.
    destruct (truthy_str effect_codebox_code).
    - destruct Hpart as (er & we0 & we & ce & le & ei & eo & eii & eoi
                         & _ & _ & _ & _ & _ & _ & _ & -> & ->).
      subst effect. cbn [read_local]. rewrite bind_ret. cbn beta.
      destruct (create_audio_output_spec main er effect_num_outputs w7)
        as (w8 & tg & ao & E & Ht & Ha & _ & Hx).
      exists w8, tg, ao. auto.
    - destruct Hpart as (_ & _ & -> & ->).
      destruct (create_audio_output_spec main dsp_rnbo dsp_num_outputs w7)
        as (w8 & tg & ao & E & Ht & Ha & _ & Hx).
      exists w8, tg, ao. auto. }
  destruct Ho as (w8 & toggle & dac & E8 & Htog & Hdac & Hx8).
  rewrite (bind_ok _ _ _ _ _ E8). cbn beta. clear E8.
  pose proof (extends_grows _ _ _ _ _ Hv7 Hx8) as Hg8.
  assert (Hv8 : (main < num_patchers w8)%nat)
    by (destruct Hg8 as (_ & _ & _ & ?); lia).
  (* the audio input *)
  assert (Hi : exists w9 adc_boxes adc_lines,
    (if Z.ltb 0 dsp_num_inputs
     then create_audio_input main dsp_rnbo dsp_num_inputs
     else ret tt) w8 = Ok (tt, w9)
    /\ extends_at main adc_boxes adc_lines w8 w9
    /\ audio_input_part dsp_num_inputs dsp_rnbo adc_boxes adc_lines).
  { unfold audio_input_part. destruct (Z.ltb 0 dsp_num_inputs).
    - destruct (create_audio_input_spec main dsp_rnbo dsp_num_inputs w8)
        as (w9 & ai & E & Ha & _ & Hx).
      eexists w9, [ai], _. split; [exact E|]. split; [exact Hx|].
      exists ai. auto.
    - exists w8, [], []. split; [reflexivity|].
      split; [apply extends_at_refl|]. auto. }
  destruct Hi as (w9 & adc_boxes & adc_lines & E9 & Hx9 & Hadc).
  rewrite (bind_ok _ _ _ _ _ E9). cbn beta. clear E9.
  pose proof (extends_grows _ _ _ _ _ Hv8 Hx9) as Hg9.
  (* the whole patcher *)
  assert (Hall : patcher_grows main
            ((dsp_rnbo :: ctrl_d)
             ++ (if midi then [midi_in; midi_out] else [])
             ++ [] ++ fx_boxes ++ cmp_boxes ++ [toggle; dac] ++ adc_boxes)
            (cl_d
             ++ (if midi then midi_lines midi_in midi_out dsp_rnbo else [])
             ++ [] ++ fx_lines ++ cmp_lines
             ++ (line_of toggle 0 dac 0
                 :: map (fun i => line_of last_rnbo i dac i)
                      (py_range 0 last_outputs))
             ++ adc_lines) w2 w9).
  { eapply patcher_grows_trans; [exact Hg3|].
    eapply patcher_grows_trans; [exact Hg4|].
    eapply patcher_grows_trans; [exact Hg5|].
    eapply patcher_grows_trans; [exact Hg6|].
    eapply patcher_grows_trans; [exact Hg7|].
    eapply patcher_grows_trans; [exact Hg8|exact Hg9]. }
  destruct Hall as (Hb & Hl & Hp & _).
  unfold save. fold (path_at main w9). rewrite Hp, H2p.
  exists (push_saved main maxpat_path w9). split; [reflexivity|].
  exists comment_box, dsp_rnbo, w2, w3, ctrl_d, cl_d, midi_in, midi_out,
    fx_boxes, fx_lines, last_rnbo, last_outputs, cmp_boxes, cmp_lines,
    toggle, dac, adc_boxes, adc_lines, din, dout, dii, doi.
  split; [exact Hv2|]. split; [exact E3|].
  split; [exact Hdio|]. split; [exact Hbuilt|].
  split; [obs_simpl; rewrite Hb, H2b; reflexivity|].
  split; [obs_simpl; rewrite Hl, H2l; reflexivity|].
  split; [reflexivity|].
  repeat split; try assumption; try apply Hmi; try apply Hmo;
    try apply Htog; try apply Hdac; apply Hnocmp; assumption.
Qed.

(** * The assembled patch: effect unit and audio terminals *)

Lemma generate_io_info_midi_inv (num_inputs num_outputs inlets outlets : Z)
    (ii oi : IOInfoDict) :
  generate_io_info true num_inputs num_outputs = Ok (inlets, outlets, ii, oi) ->
  inlets = Z.max 1 num_inputs + 1
  /\ outlets = Z.max 1 num_outputs + 3
  /\ exists pre,
       IOInfo ii = pre ++ [mkIOEntry "" inlets ("in" ++ str_int inlets) "midi"].
Proof.
  unfold generate_io_info.
  destruct (signal_loop "in" num_inputs None []) as [i1 l1].
  destruct (signal_loop "out" num_outputs i1 []) as [[i2|] l2];
    [|discriminate].
  intros H. injection H as <- <- <- <-.
  split; [reflexivity|]. split; [reflexivity|].
  exists l1. reflexivity.
Qed.

Lemma generate_io_info_no_midi_inv (num_inputs num_outputs inlets outlets : Z)
    (ii oi : IOInfoDict) :
  generate_io_info false num_inputs num_outputs = Ok (inlets, outlets, ii, oi) ->
  inlets = Z.max 1 num_inputs
  /\ outlets = Z.max 1 num_outputs + 2
  /\ Forall (fun e => type e = "signal") (IOInfo ii)
  /\ Forall (fun e => type e = "signal") (IOInfo oi).
Proof.
  destruct (generate_io_info_no_midi num_inputs num_outputs)
    as (li & lo & E & Hi & Ho).
  rewrite E. intros H. injection H as <- <- <- <-.
  repeat split; assumption.
Qed.

Lemma in_py_range (a b k : Z) : In k (py_range a b) <-> a <= k < b.
Proof.
  unfold py_range. rewrite in_map_iff. split.
  - intros (n & <- & Hn). apply in_seq in Hn. lia.
  - intros H. exists (Z.to_nat (k - a)). split; [lia|].
    apply in_seq. lia.
Qed.

(** Every box of the main patcher of an assembled patch is of one of the
    kinds of [patch_built]: a property of all these kinds holds of all the
    boxes. *)
Lemma patch_boxes_forall (Q : Box -> Prop)
    (main : nat) (dsp_name dsp_code : string) (dsp_items : list Item)
    (dsp_inputs dsp_outputs : Z) (midi : bool) (nvoices : Z) (test : bool)
    (fx_code : option string) (fx_items : list Item)
    (fx_inputs fx_outputs : Z) (compile : bool) (w' : World) :
  (forall b, box_class b <> Textbox -> Q b) ->
  (forall b, is_control_box b -> Q b) ->
  (forall b, is_machinery b -> Q b) ->
  (forall b n, is_textbox ("dac~ " ++ n) b -> Q b) ->
  (midi = true -> forall b, is_midi_node b -> Q b) ->
  patch_built main dsp_name dsp_code dsp_items dsp_inputs dsp_outputs midi
    nvoices test fx_code fx_items fx_inputs fx_outputs compile w' ->
  exists before adc_boxes,
    boxes_at main w' = before ++ adc_boxes
    /\ Forall Q before
    /\ if Z.ltb 0 dsp_inputs then
         exists adc,
           adc_boxes = [adc]
           /\ is_textbox ("adc~ " ++ channel_numbers dsp_inputs) adc
       else adc_boxes = [].
Proof.
  intros Hclass Hctrl Hmach Hdac Hmidi
    (cb & dr & wd0 & wd & ctrl_d & cl_d & mi & mo & fxb & fxl & lr & lo
     & cmpb & cmpl & tg & dac & adcb & adcl & din & dout & dii & doi
     & _ & _ & _ & Hbuilt & Hb & _ & Hcb & Hcd & Hmi & Hmo & Hfx & Hcmp
     & _ & Htg & Hdc & Hin).
  exists (cb :: dr :: ctrl_d ++ (if midi then [mi; mo] else [])
            ++ fxb ++ cmpb ++ [tg; dac]), adcb.
  split.
  { rewrite Hb. cbn [app]. repeat rewrite <- app_assoc. reflexivity. }
  split.
  2:{ unfold audio_input_part in Hin.
      destruct (Z.ltb 0 dsp_inputs).
      - destruct Hin as (adc & -> & Ha & _). exists adc.
        split; [reflexivity|exact Ha].
      - destruct Hin as (-> & _). reflexivity. }
  constructor; [apply Hclass; rewrite Hcb; discriminate|].
  constructor.
  { destruct Hbuilt as (-> & _). apply Hclass. discriminate. }
  apply Forall_app. split.
  { eapply Forall_impl; [|exact Hcd]. exact Hctrl. }
  apply Forall_app. split.
  { destruct midi; [|constructor].
    constructor; [apply Hmidi; [reflexivity|left; exact Hmi]|].
    constructor; [apply Hmidi; [reflexivity|right; exact Hmo]|].
    constructor. }
  apply Forall_app. split.
  { destruct fx_code as [code|].
    - destruct Hfx as (er & we0 & we & ce & le & ei & eo & eii & eoi
                       & _ & _ & _ & (-> & _) & -> & Hce & _).
      constructor; [apply Hclass; discriminate|].
      eapply Forall_impl; [|exact Hce]. exact Hctrl.
    - destruct Hfx as (-> & _). constructor. }
  apply Forall_app. split.
  { eapply Forall_impl; [|exact Hcmp]. exact Hmach. }
  constructor.
  { apply Hctrl. destruct Htg as (Hc & Ht). split; [exact Hc|left; exact Ht]. }
  constructor; [eapply Hdac; exact Hdc|constructor].
Qed.

Lemma control_not_midi_node (b : Box) : is_control_box b -> ~ is_midi_node b.
Proof.
  intros (_ & [Ht|Ht]) [(_ & H)|(_ & H)]; rewrite Ht in H; discriminate.
Qed.

Lemma machinery_not_midi_node (b : Box) : is_machinery b -> ~ is_midi_node b.
Proof.
  intros [Hc|(_ & Ht)] Hm.
  - destruct Hm as [(H & _)|(H & _)]; rewrite Hc in H; discriminate.
  - simpl in Ht.
    destruct Hm as [(_ & H)|(_ & H)]; rewrite H in Ht;
      repeat (destruct Ht as [Ht|Ht]; [discriminate|]); exact Ht.
Qed.

Lemma textbox_only_midi_node (b : Box) :
  box_class b <> Textbox -> ~ is_midi_node b.
Proof. intros Hc [(H & _)|(H & _)]; contradiction. Qed.

Lemma dac_not_midi_node (b : Box) (n : string) :
  is_textbox ("dac~ " ++ n) b -> ~ is_midi_node b.
Proof.
  intros (_ & Ht) [(_ & H)|(_ & H)]; rewrite Ht in H; discriminate.
Qed.

Lemma textbox_only_audio_input (b : Box) :
  box_class b <> Textbox -> ~ is_audio_input b.
Proof. intros Hc (H & _). contradiction. Qed.

Lemma dac_not_audio_input (b : Box) (n : string) :
  is_textbox ("dac~ " ++ n) b -> ~ is_audio_input b.
Proof. intros (_ & Ht) (_ & H). rewrite Ht in H. discriminate. Qed.

Lemma midi_node_not_audio_input (b : Box) :
  is_midi_node b -> ~ is_audio_input b.
Proof.
  intros [(_ & Ht)|(_ & Ht)] (_ & H); rewrite Ht in H; discriminate.
Qed.

Lemma control_not_audio_input (b : Box) :
  is_control_box b -> ~ is_audio_input b.
Proof.
  intros (_ & [Ht|Ht]) (_ & H); rewrite Ht in H; discriminate.
Qed.

Lemma machinery_not_audio_input (b : Box) :
  is_machinery b -> ~ is_audio_input b.
Proof.
  intros [Hc|(_ & Ht)] (Hk & H).
  - rewrite Hc in Hk. discriminate.
  - simpl in Ht.
    repeat (destruct Ht as [Ht|Ht]; [rewrite <- Ht in H; discriminate|]).
    exact Ht.
Qed.

(** C1 (amended).  When an effect is given, [create_rnbo_patch] returns,
    and the main patcher contains the effect unit: an [rnbo~] box titled
    [Effect], without polyphony attribute, whose ports are planned with
    the MIDI flag of the DSP.  When that flag is true the effect has the
    MIDI inlet after its signal inlets, its inlet metadata ends with the
    MIDI entry, and the global [midiin] and [midiout] nodes are connected
    to the effect; when it is false the metadata of the effect lists
    signal ports only and the main patcher has no global MIDI node. *)
Theorem effect_unit_follows_dsp_midi_flag
    (dsp_name maxpat_path export_path cpp_filename dsp_codebox_code : string)
    (dsp_items_info_list : list Item) (dsp_num_inputs dsp_num_outputs : Z)
    (midi : bool) (nvoices : Z)
    (effect_codebox_code : option string) (code : string)
    (fx_items : list Item) (effect_num_inputs effect_num_outputs : Z)
    (compile test subpatcher_flag : bool) (w : World) :
  unit_inputs_ok midi dsp_num_inputs dsp_num_outputs dsp_items_info_list ->
  truthy_str effect_codebox_code = Some code ->
  unit_inputs_ok midi effect_num_inputs effect_num_outputs fx_items ->
  exists w' effect_rnbo inlets outlets ii oi id sub,
    create_rnbo_patch dsp_name maxpat_path export_path cpp_filename
      dsp_codebox_code dsp_items_info_list dsp_num_inputs dsp_num_outputs
      midi nvoices effect_codebox_code (Some fx_items)
      effect_num_inputs effect_num_outputs compile test subpatcher_flag w
    = Ok (tt, w')
    /\ generate_io_info midi effect_num_inputs effect_num_outputs
       = Ok (inlets, outlets, ii, oi)
    /\ effect_rnbo =
         mkBox id Rnbo "rnbo~" (Some inlets) (Some outlets)
           (RnboConfig "Effect" ii oi
              (mkRnboAttributes "O3" "Effect" 1 None) sub)
    /\ In effect_rnbo (boxes_at (num_patchers w) w')
    /\ if midi then
         inlets = Z.max 1 effect_num_inputs + 1
         /\ (exists pre,
               IOInfo ii =
                 pre ++ [mkIOEntry "" inlets ("in" ++ str_int inlets) "midi"])
         /\ exists midi_in midi_out,
              is_textbox "midiin" midi_in
              /\ is_textbox "midiout" midi_out
              /\ In midi_in (boxes_at (num_patchers w) w')
              /\ In midi_out (boxes_at (num_patchers w) w')
              /\ In (line_of midi_in 0 effect_rnbo (Z.max 1 effect_num_inputs))
                   (lines_at (num_patchers w) w')
              /\ In (line_of effect_rnbo (Z.max 1 effect_num_outputs)
                       midi_out 0)
                   (lines_at (num_patchers w) w')
       else
         Forall (fun e => type e = "signal") (IOInfo ii)
         /\ Forall (fun e => type e = "signal") (IOInfo oi)
         /\ Forall (fun b => ~ is_midi_node b) (boxes_at (num_patchers w) w').
Proof.
  intros Hd Hcode Hfx.
  destruct (create_rnbo_patch_spec dsp_name maxpat_path export_path
              cpp_filename dsp_codebox_code dsp_items_info_list
              dsp_num_inputs dsp_num_outputs midi nvoices
              effect_codebox_code (Some fx_items) fx_items
              effect_num_inputs effect_num_outputs compile test
              subpatcher_flag w Hd) as (w' & E & Hpatch).
  { rewrite Hcode. split; [reflexivity|exact Hfx]. }
  pose proof Hpatch as Hall.
  destruct Hpatch
    as (cb & dr & wd0 & wd & ctrl_d & cl_d & mi & mo & fxb & fxl & lr & lo
        & cmpb & cmpl & tg & dac & adcb & adcl & din & dout & dii & doi
        & _ & _ & _ & _ & Hb & Hl & _ & _ & Hmi & Hmo & Hpart & _).
  rewrite Hcode in Hpart.
  destruct Hpart as (er & we0 & we & ce & le & ei & eo & eii & eoi
                     & _ & _ & Heio & (Her & _) & -> & _ & -> & _).
  replace (midi && Z.ltb 0 (-1)) with false in Her
    by (destruct midi; reflexivity).
  exists w', er, ei, eo, eii, eoi, (next_id (num_patchers w) we0),
    (num_patchers we0).
  split; [exact E|]. split; [exact Heio|]. split; [exact Her|].
  split.
  { rewrite Hb. right. right. apply in_or_app. right.
    apply in_or_app. right. left. reflexivity. }
  destruct midi.
  - apply generate_io_info_midi_inv in Heio.
    destruct Heio as (Hi & Ho & Hpre).
    split; [exact Hi|]. split; [exact Hpre|].
    exists mi, mo.
    split; [exact Hmi|]. split; [exact Hmo|].
    split; [rewrite Hb; right; right; apply in_or_app; right; left;
            reflexivity|].
    split; [rewrite Hb; right; right; apply in_or_app; right; right; left;
            reflexivity|].
    assert (Hni : numinlets er - 1 = Z.max 1 effect_num_inputs)
      by (rewrite Her; unfold numinlets; cbn [box_numinlets]; lia).
    assert (Hno : numoutlets er - 3 = Z.max 1 effect_num_outputs)
      by (rewrite Her; unfold numoutlets; cbn [box_numoutlets]; lia).
    rewrite <- Hni, <- Hno. rewrite Hl.
    split; apply in_or_app; right; apply in_or_app; right;
      apply in_or_app; left; apply in_or_app; right;
      apply in_or_app; right; [left|right; left]; reflexivity.
  - apply generate_io_info_no_midi_inv in Heio.
    destruct Heio as (_ & _ & Hsi & Hso).
    split; [exact Hsi|]. split; [exact Hso|].
    destruct (patch_boxes_forall (fun b => ~ is_midi_node b)
                _ _ _ _ _ _ _ _ _ _ _ _ _ _ _
                textbox_only_midi_node control_not_midi_node
                machinery_not_midi_node dac_not_midi_node
                (fun H => False_ind _ (Bool.diff_false_true H)) Hall)
      as (before & adcs & -> & Hbefore & Hadc).
    apply Forall_app. split; [exact Hbefore|].
    destruct (Z.ltb 0 dsp_num_inputs).
    + destruct Hadc as (adc & -> & _ & Ht).
      constructor; [|constructor].
      intros [(_ & H)|(_ & H)]; rewrite Ht in H; discriminate.
    + rewrite Hadc. constructor.
Qed.

Lemma effect_unit_follows_dsp_midi_flag_witness :
  exists w', midi_patch_with_effect = Ok (tt, w').
Proof.
  destruct (effect_unit_follows_dsp_midi_flag "synth" "synth.maxpat" "export"
              "synth.cpp" "dsp code" [] 0 2 true 0 (Some "fx code") "fx code"
              [] 2 2 false false false empty_world)
    as (w' & _ & _ & _ & _ & _ & _ & _ & E & _).
  - split; [eexists; vm_compute; reflexivity|constructor].
  - reflexivity.
  - split; [eexists; vm_compute; reflexivity|constructor].
  - exists w'. exact E.
Defined.

(** C1, as first stated, fails: with a MIDI-enabled DSP, the effect unit
    (box 5) has three inlets, the last one for MIDI, its inlet metadata
    has a MIDI entry, and [midiin] (box 3) and [midiout] (box 4) are
    connected to it. *)
Lemma effect_unit_is_midi_enabled :
  exists w' effect_rnbo,
    midi_patch_with_effect = Ok (tt, w')
    /\ nth_error (boxes_at 0 w') 4 = Some effect_rnbo
    /\ box_id effect_rnbo = 5%nat
    /\ is_unit "Effect" effect_rnbo
    /\ box_numinlets effect_rnbo = Some 3
    /\ (exists ii oi a s,
          box_config effect_rnbo = RnboConfig "Effect" ii oi a s
          /\ In (mkIOEntry "" 3 "in3" "midi") (IOInfo ii))
    /\ map box_text (firstn 2 (skipn 2 (boxes_at 0 w'))) = ["midiin"; "midiout"]
    /\ map box_id (firstn 2 (skipn 2 (boxes_at 0 w'))) = [3%nat; 4%nat]
    /\ In (mkPatchline (3%nat, 0) (5%nat, 2)) (lines_at 0 w')
    /\ In (mkPatchline (5%nat, 2) (4%nat, 0)) (lines_at 0 w').
Proof.
  eexists _, _. split; [vm_compute; reflexivity|].
  split; [vm_compute; reflexivity|].
  split; [reflexivity|].
  split; [split; [reflexivity|eexists _, _, _; reflexivity]|].
  split; [reflexivity|].
  split; [eexists _, _, _, _; split; [reflexivity|];
          simpl; right; right; left; reflexivity|].
  split; [vm_compute; reflexivity|].
  split; [vm_compute; reflexivity|].
  split; vm_compute; tauto.
Qed.

(** C6 (amended).  [create_rnbo_patch] returns, and in the main patcher:
    the [dac~] node is wired from the outlets of the last unit of the
    chain, the effect if there is one and the DSP otherwise; when the DSP
    has inputs the [adc~] node is the last box, and the last lines go from
    it to the inlets of the DSP unit, effect or not; when the DSP has no
    input the patcher has no [adc~] node. *)
Theorem audio_terminals_wiring
    (dsp_name maxpat_path export_path cpp_filename dsp_codebox_code : string)
    (dsp_items_info_list : list Item) (dsp_num_inputs dsp_num_outputs : Z)
    (midi : bool) (nvoices : Z)
    (effect_codebox_code : option string)
    (effect_items_info_list : option (list Item)) (fx_items : list Item)
    (effect_num_inputs effect_num_outputs : Z)
    (compile test subpatcher_flag : bool) (w : World) :
  unit_inputs_ok midi dsp_num_inputs dsp_num_outputs dsp_items_info_list ->
  match truthy_str effect_codebox_code with
  | Some _ =>
      effect_items_info_list = Some fx_items
      /\ unit_inputs_ok midi effect_num_inputs effect_num_outputs fx_items
  | None => True
  end ->
  exists w' dsp_rnbo last_rnbo last_outputs dac,
    create_rnbo_patch dsp_name maxpat_path export_path cpp_filename
      dsp_codebox_code dsp_items_info_list dsp_num_inputs dsp_num_outputs
      midi nvoices effect_codebox_code effect_items_info_list
      effect_num_inputs effect_num_outputs compile test subpatcher_flag w
    = Ok (tt, w')
    /\ nth_error (boxes_at (num_patchers w) w') 1 = Some dsp_rnbo
    /\ box_class dsp_rnbo = Rnbo
    /\ (exists ii oi a s,
          box_config dsp_rnbo = RnboConfig dsp_name ii oi a s)
    /\ match truthy_str effect_codebox_code with
       | Some _ =>
           is_unit "Effect" last_rnbo
           /\ In last_rnbo (boxes_at (num_patchers w) w')
           /\ last_outputs = effect_num_outputs
       | None => last_rnbo = dsp_rnbo /\ last_outputs = dsp_num_outputs
       end
    /\ is_textbox ("dac~ " ++ channel_numbers last_outputs) dac
    /\ In dac (boxes_at (num_patchers w) w')
    /\ (forall i, 0 <= i < last_outputs ->
          In (line_of last_rnbo i dac i) (lines_at (num_patchers w) w'))
    /\ if Z.ltb 0 dsp_num_inputs then
         exists adc boxes_before lines_before,
           is_textbox ("adc~ " ++ channel_numbers dsp_num_inputs) adc
           /\ boxes_at (num_patchers w) w' = boxes_before ++ [adc]
           /\ Forall (fun b => ~ is_audio_input b) boxes_before
           /\ lines_at (num_patchers w) w' =
                lines_before
                ++ map (fun i => line_of adc i dsp_rnbo i)
                     (py_range 0 dsp_num_inputs)
       else
         Forall (fun b => ~ is_audio_input b) (boxes_at (num_patchers w) w').
Proof.
  intros Hd Hfx.
  destruct (create_rnbo_patch_spec dsp_name maxpat_path export_path
              cpp_filename dsp_codebox_code dsp_items_info_list
              dsp_num_inputs dsp_num_outputs midi nvoices
              effect_codebox_code effect_items_info_list fx_items
              effect_num_inputs effect_num_outputs compile test
              subpatcher_flag w Hd Hfx) as (w' & E & Hpatch).
  pose proof Hpatch as Hall.
  destruct Hpatch
    as (cb & dr & wd0 & wd & ctrl_d & cl_d & mi & mo & fxb & fxl & lr & lo
        & cmpb & cmpl & tg & dac & adcb & adcl & din & dout & dii & doi
        & _ & _ & _ & (Hdr & _) & Hb & Hl & _ & _ & _ & _ & Hpart & _
        & _ & _ & Hdac & Hin).
  exists w', dr, lr, lo, dac.
  split; [exact E|].
  split; [rewrite Hb; reflexivity|].
  split; [rewrite Hdr; reflexivity|].
  split; [rewrite Hdr; eexists _, _, _, _; reflexivity|].
  split.
  { destruct (truthy_str effect_codebox_code) as [code|].
    - destruct Hpart as (er & we0 & we & ce & le & ei & eo & eii & eoi
                         & _ & _ & _ & (Her & _) & Hfxb & _ & _ & -> & ->).
      replace (midi && Z.ltb 0 (-1)) with false in Her
        by (destruct midi; reflexivity).
      split.
      { rewrite Her. split; [reflexivity|]. eexists _, _, _. reflexivity. }
      split; [|reflexivity].
      rewrite Hb, Hfxb. right. right. apply in_or_app. right.
      apply in_or_app. right. left. reflexivity.
    - destruct Hpart as (_ & _ & -> & ->). split; reflexivity. }
  split; [exact Hdac|].
  split.
  { rewrite Hb. right. right. do 4 (apply in_or_app; right).
    right. left. reflexivity. }
  split.
  { intros i Hi. rewrite Hl. do 4 (apply in_or_app; right).
    right. apply in_or_app. left.
    apply in_map_iff. exists i. split; [reflexivity|].
    apply in_py_range. lia. }
  destruct (patch_boxes_forall (fun b => ~ is_audio_input b)
              _ _ _ _ _ _ _ _ _ _ _ _ _ _ _
              textbox_only_audio_input control_not_audio_input
              machinery_not_audio_input dac_not_audio_input
              (fun _ => midi_node_not_audio_input) Hall)
    as (before & adcs & Hb' & Hbefore & Hadc).
  unfold audio_input_part in Hin.
  destruct (Z.ltb 0 dsp_num_inputs).
  - destruct Hadc as (adc & -> & Ha).
    destruct Hin as (adc' & -> & _ & ->).
    assert (Hsame : adc' = adc).
    { rewrite Hb in Hb'.
      change (cb :: dr :: ctrl_d ++ (if midi then [mi; mo] else [])
                ++ fxb ++ cmpb ++ tg :: dac :: [adc'])
        with ((cb :: dr :: ctrl_d) ++ (if midi then [mi; mo] else [])
                ++ fxb ++ cmpb ++ [tg; dac] ++ [adc']) in Hb'.
      repeat rewrite app_assoc in Hb'.
      apply app_inj_tail in Hb'. apply Hb'. }
    subst adc'.
    exists adc, before,
      (cl_d ++ (if midi then midi_lines mi mo dr else []) ++ fxl ++ cmpl
          ++ line_of tg 0 dac 0
             :: map (fun i => line_of lr i dac i) (py_range 0 lo)).
    split; [exact Ha|]. split; [exact Hb'|]. split; [exact Hbefore|].
    rewrite Hl. repeat rewrite <- app_assoc. cbn [app].
    repeat rewrite <- app_assoc. reflexivity.
  - rewrite Hb', Hadc, app_nil_r. exact Hbefore.
Qed.

Lemma audio_terminals_wiring_witness :
  exists w', input_patch_with_effect = Ok (tt, w').
Proof.
  destruct (audio_terminals_wiring "synth" "synth.maxpat" "export"
              "synth.cpp" "dsp code" [] 1 1 false 0 (Some "fx code")
              (Some []) [] 1 1 false false false empty_world)
    as (w' & _ & _ & _ & _ & E & _).
  - split; [eexists; vm_compute; reflexivity|constructor].
  - split; [reflexivity|].
    split; [eexists; vm_compute; reflexivity|constructor].
  - exists w'. exact E.
Defined.

(** C6, as first stated, fails for the audio input: with an effect after
    a DSP that has one input, the only line out of [adc~] (box 6) goes to
    the DSP unit (box 2), not to the effect (box 3), the last unit of the
    chain, which feeds [dac~] (box 5). *)
Lemma audio_input_is_wired_to_dsp_not_effect :
  exists w',
    input_patch_with_effect = Ok (tt, w')
    /\ map (fun b => (box_id b, box_text b)) (boxes_at 0 w') =
         [(1%nat, "Faust generated RNBO patch, Copyright (c) 2023 Grame");
          (2%nat, "rnbo~"); (3%nat, "rnbo~"); (4%nat, "toggle");
          (5%nat, "dac~ 1"); (6%nat, "adc~ 1")]
    /\ (exists dsp_rnbo effect_rnbo ii oi a s,
          nth_error (boxes_at 0 w') 1 = Some dsp_rnbo
          /\ box_config dsp_rnbo = RnboConfig "synth" ii oi a s
          /\ nth_error (boxes_at 0 w') 2 = Some effect_rnbo
          /\ is_unit "Effect" effect_rnbo)
    /\ filter (fun l => Nat.eqb (fst (source l)) 6) (lines_at 0 w') =
         [mkPatchline (6%nat, 0) (2%nat, 0)]
    /\ In (mkPatchline (3%nat, 0) (5%nat, 0)) (lines_at 0 w').
Proof.
  eexists. split; [vm_compute; reflexivity|].
  split; [vm_compute; reflexivity|].
  split.
  { eexists _, _, _, _, _, _. split; [vm_compute; reflexivity|].
    split; [reflexivity|]. split; [vm_compute; reflexivity|].
    split; [reflexivity|eexists _, _, _; reflexivity]. }
  split; [vm_compute; reflexivity|].
  vm_compute. tauto.
Qed.



(** * Properties of the single functions *)

(** ** The port planner *)

Lemma py_range_length (a b : Z) :
  List.length (py_range a b) = Z.to_nat (b - a).
Proof. unfold py_range. rewrite length_map, length_seq. reflexivity. Qed.

Lemma signal_loop_eq (pfx : string) (n : Z) (i : option Z)
    (info : list IOEntry) :
  signal_loop pfx n i info =
    (if Z.ltb 0 n then Some n else i, info ++ signal_entries pfx n).
Proof.
  rewrite (surjective_pairing (signal_loop pfx n i info)).
  rewrite signal_loop_bound, signal_loop_info. reflexivity.
Qed.

(** X1.  Without MIDI the port planner returns for all channel counts,
    negative ones included: the unit has at least one inlet and one
    signal outlet before the two trailing outlets, and the metadata
    lists one signal entry per declared channel, numbered from 1; a unit
    without input has one inlet and no inlet entry. *)
Theorem generate_io_info_signal_plan (num_inputs num_outputs : Z) :
  generate_io_info false num_inputs num_outputs =
    Ok (Z.max 1 num_inputs, Z.max 1 num_outputs + 2,
        mkIOInfoDict (signal_entries "in" num_inputs),
        mkIOInfoDict (signal_entries "out" num_outputs))
  /\ List.length (signal_entries "in" num_inputs) = Z.to_nat num_inputs
  /\ List.length (signal_entries "out" num_outputs) = Z.to_nat num_outputs.
Proof.
  split.
  - unfold generate_io_info. rewrite !signal_loop_eq. reflexivity.
  - unfold signal_entries. rewrite !length_map, !py_range_length.
    split; f_equal; lia.
Qed.

(** X2.  With MIDI the port planner returns exactly when the unit has an
    input or an output; otherwise it raises [UnboundLocalError]. *)
Theorem generate_io_info_midi_returns_iff (num_inputs num_outputs : Z) :
  ((exists plan, generate_io_info true num_inputs num_outputs = Ok plan)
   <-> 0 < num_inputs \/ 0 < num_outputs)
  /\ (generate_io_info true num_inputs num_outputs
        = Raise (UnboundLocalError "i")
      <-> num_inputs <= 0 /\ num_outputs <= 0).
Proof.
  assert (Hcase : 0 < num_inputs \/ 0 < num_outputs
                  \/ (num_inputs <= 0 /\ num_outputs <= 0)) by lia.
  split; split.
  - intros (plan & E).
    destruct Hcase as [H|[H|[H1 H2]]]; [left; exact H|right; exact H|].
    rewrite (generate_io_info_midi_raises _ _ H1 H2) in E. discriminate.
  - intros H. destruct (generate_io_info_midi _ _ H) as (ii & oi & E).
    eexists. exact E.
  - intros E.
    destruct Hcase as [H|[H|H]]; [exfalso|exfalso|exact H];
      (assert (Hor : 0 < num_inputs \/ 0 < num_outputs) by lia);
      destruct (generate_io_info_midi _ _ Hor) as (ii & oi & E');
      rewrite E in E'; discriminate.
  - intros (H1 & H2). apply generate_io_info_midi_raises; assumption.
Qed.

(** X3.  The plan of a MIDI-enabled unit with an input or an output: one
    more inlet than without MIDI, for MIDI, described by the last inlet
    entry, which carries the number of the inlet; three outlets after the
    signal ones; the outlet metadata is the signal entries followed by
    one MIDI entry, which carries the number of the last channel the
    loops went through: the last output, or the last input when there is
    no output. *)
Theorem generate_io_info_midi_plan (num_inputs num_outputs : Z) :
  0 < num_inputs \/ 0 < num_outputs ->
  generate_io_info true num_inputs num_outputs =
    Ok (Z.max 1 num_inputs + 1, Z.max 1 num_outputs + 3,
        mkIOInfoDict (signal_entries "in" num_inputs
                      ++ [midi_entry "in" (Z.max 1 num_inputs + 1)]),
        mkIOInfoDict (signal_entries "out" num_outputs
                      ++ [midi_entry "out"
                            (if Z.ltb 0 num_outputs then num_outputs
                             else num_inputs)])).
Proof.
  intros H. unfold generate_io_info. rewrite !signal_loop_eq.
  destruct (Z.ltb_spec 0 num_outputs) as [Ho|Ho]; [reflexivity|].
  destruct (Z.ltb_spec 0 num_inputs) as [Hi|Hi]; [reflexivity|lia].
Qed.

Lemma generate_io_info_midi_plan_witness :
  generate_io_info true 1 2 =
    Ok (2, 5,
        mkIOInfoDict [mkIOEntry "" 1 "in1" "signal"; midi_entry "in" 2],
        mkIOInfoDict [mkIOEntry "" 1 "out1" "signal";
                      mkIOEntry "" 2 "out2" "signal"; midi_entry "out" 2]).
Proof.
  apply (generate_io_info_midi_plan 1 2). right. lia.
Defined.

(** ** Labels *)

Lemma append_inj_l (a s t : string) : (a ++ s)%string = (a ++ t)%string -> s = t.
Proof.
  induction a as [|c a IH]; simpl; intros H; [exact H|].
  injection H as H. exact (IH H).
Qed.

Lemma underscore_split (a b s t : string) :
  no_underscore a -> no_underscore b ->
  (a ++ String "_" s)%string = (b ++ String "_" t)%string ->
  a = b /\ s = t.
Proof.
  unfold no_underscore. revert b.
  induction a as [|c a IH]; intros [|d b] Ha Hb H; simpl in *.
  - injection H as H. split; [reflexivity|exact H].
  - injection H as H _. exfalso. apply Hb. left. symmetry. exact H.
  - injection H as H _. exfalso. apply Ha. left. exact H.
  - injection H as Hc H.
    destruct (IH b) as [-> ->]; [tauto|tauto|exact H|].
    subst d. split; reflexivity.
Qed.

(** X4.  A label identifies its parameter: two parameters with the same
    label have the same shortname and, with the labels of the test mode,
    the same widget type (the types have no underscore). *)
Theorem build_label_identifies_parameter
    (item_type item_type' shortname shortname' : string) (test : bool) :
  no_underscore item_type -> no_underscore item_type' ->
  build_label item_type shortname test
    = build_label item_type' shortname' test ->
  shortname = shortname' /\ (test = true -> item_type = item_type').
Proof.
  intros Ha Hb. unfold build_label. destruct test.
  - intros H. apply append_inj_l in H.
    apply (underscore_split _ _ _ _ Ha Hb) in H.
    destruct H as [-> ->]. split; reflexivity.
  - intros ->. split; [reflexivity|discriminate].
Qed.

Lemma build_label_identifies_parameter_witness :
  "vol" = "vol" /\ (true = true -> "hslider" = "hslider").
Proof.
  apply (build_label_identifies_parameter "hslider" "hslider" "vol" "vol"
           true).
  - unfold no_underscore. simpl. intuition discriminate.
  - unfold no_underscore. simpl. intuition discriminate.
  - reflexivity.
Defined.

(** ** MIDI control of a parameter *)

Lemma dict_get_supported (midi_type : string) :
  In midi_type supported_midi_types ->
  exists name_in name_out,
    dict_get midi_type midi_mapping = Some (name_in, name_out).
Proof.
  simpl. intros H.
  repeat (destruct H as [<-|H]; [eexists _, _; reflexivity|]).
  destruct H.
Qed.

(** X5.  For a binding to a supported control class other than
    [pitchwheel], the MIDI control returns true and adds to the sub-patch
    the input and output objects of the class with the remaining tokens
    of the binding as arguments, a rescaling of 0..127 onto [min, max] on
    the input side and of [min, max] onto 0..127 on the output side, and
    the four lines of the two chains: input object, rescaling, relay; and
    codebox, rescaling, output object. *)
Theorem add_midi_control_unsigned_range
    (item : Item) (midi_type : string) (args : list string)
    (sub_patch : nat) (set_param codebox : Box) (w : World) :
  item_midi item = midi_type :: args ->
  In midi_type supported_midi_types ->
  midi_type <> "pitchwheel" ->
  exists name_in name_out w' midi_in midi_out scaling_in_box scaling_out_box,
    dict_get midi_type midi_mapping = Some (name_in, name_out)
    /\ add_midi_control item sub_patch set_param codebox w = Ok (true, w')
    /\ boxes_at sub_patch w' =
         boxes_at sub_patch w ++
         [midi_in; midi_out; scaling_in_box; scaling_out_box]
    /\ box_text midi_in = (name_in ++ " " ++ join " " args)%string
    /\ box_text midi_out = (name_out ++ " " ++ join " " args)%string
    /\ box_text scaling_in_box =
         ("scale 0 127 " ++ str_number (item_min item) ++ " "
          ++ str_number (item_max item))%string
    /\ box_text scaling_out_box =
         ("scale " ++ str_number (item_min item) ++ " "
          ++ str_number (item_max item) ++ " 0 127")%string
    /\ lines_at sub_patch w' =
         lines_at sub_patch w ++
         [line_of midi_in 0 scaling_in_box 0;
          line_of scaling_in_box 0 set_param 0;
          line_of codebox 0 scaling_out_box 0;
          line_of scaling_out_box 0 midi_out 0].
Proof.
  intros Hm Hs Hp.
  destruct (dict_get_supported _ Hs) as (name_in & name_out & Hd).
  exists name_in, name_out.
  unfold add_midi_control. rewrite Hm, Hd.
  destruct (String.eqb_spec midi_type "pitchwheel") as [->|_];
    [contradiction|].
  eexists _, _, _, _, _. split; [reflexivity|].
  split; [exec; reflexivity|].
  obs_simpl. repeat split; reflexivity.
Qed.

Lemma add_midi_control_unsigned_range_witness :
  exists r w',
    add_midi_control (sample_slider "vol" ["ctrl"; "7"]) 0
      (mkBox 2 Textbox "set vol" None None NoConfig)
      (mkBox 1 CodeboxTilde "code" None None NoConfig) main_only
    = Ok (r, w').
Proof.
  destruct (add_midi_control_unsigned_range
              (sample_slider "vol" ["ctrl"; "7"]) "ctrl" ["7"] 0
              (mkBox 2 Textbox "set vol" None None NoConfig)
              (mkBox 1 CodeboxTilde "code" None None NoConfig) main_only)
    as (ni & no & w' & _ & _ & _ & _ & _ & E & _).
  - reflexivity.
  - simpl. tauto.
  - discriminate.
  - exists true, w'. exact E.
Defined.

(** X6.  The MIDI control of a parameter never raises.  It returns true
    exactly when the binding starts with a supported control class; when
    it returns false it adds no box and no line; in all cases the
    patchers other than the sub-patch keep their boxes and lines, and the
    log gets a message exactly when the binding starts with an
    unsupported class. *)
Theorem add_midi_control_outcome
    (item : Item) (sub_patch : nat) (set_param codebox : Box) (w : World) :
  exists r w',
    add_midi_control item sub_patch set_param codebox w = Ok (r, w')
    /\ (r = true <->
        exists midi_type args,
          item_midi item = midi_type :: args
          /\ In midi_type supported_midi_types)
    /\ (r = false ->
        boxes_at sub_patch w' = boxes_at sub_patch w
        /\ lines_at sub_patch w' = lines_at sub_patch w)
    /\ (forall q, q <> sub_patch ->
          boxes_at q w' = boxes_at q w /\ lines_at q w' = lines_at q w)
    /\ log w' =
         log w ++
         match item_midi item with
         | midi_type :: _ =>
             if str_in midi_type supported_midi_types then []
             else [unsupported_message midi_type]
         | [] => []
         end.
Proof.
  destruct (item_midi item) as [|midi_type args] eqn:Hm.
  - exists false, w. rewrite (add_midi_control_no_binding _ _ _ _ _ Hm).
    split; [reflexivity|].
    split; [split; [discriminate|intros (t & a & H & _); discriminate]|].
    split; [auto|]. split; [auto|]. rewrite app_nil_r. reflexivity.
  - destruct (in_dec string_dec midi_type supported_midi_types) as [Hs|Hu].
    + assert (Hin : str_in midi_type supported_midi_types = true).
      { simpl in Hs.
        repeat (destruct Hs as [<-|Hs]; [reflexivity|]). destruct Hs. }
      rewrite Hin.
      destruct (dict_get_supported _ Hs) as (name_in & name_out & Hd).
      unfold add_midi_control. rewrite Hm, Hd.
      destruct (String.eqb midi_type "pitchwheel");
        (eexists _, _; split; [exec; reflexivity|]);
        (split; [split; [intros _; exists midi_type, args; auto
                        |reflexivity]|]);
        (split; [discriminate|]);
        (split; [intros q Hq; apply Nat.eqb_neq in Hq; obs_simpl;
                 split; reflexivity|]);
        rewrite app_nil_r; reflexivity.
    + assert (Hin : str_in midi_type supported_midi_types = false).
      { unfold str_in, supported_midi_types. simpl.
        repeat match goal with
               | |- context [String.eqb midi_type ?k] =>
                   destruct (String.eqb_spec midi_type k) as [->|_];
                   [exfalso; apply Hu; simpl; tauto|]
               end.
        reflexivity. }
      rewrite Hin.
      exists false, (push_log (unsupported_message midi_type) w).
      split; [exact (add_midi_control_unsupported _ _ _ _ _ _ _ Hm Hu)|].
      split.
      { split; [discriminate|].
        intros (t & a & H & Ht). injection H as <- <-. contradiction. }
      split; [intros _; obs_simpl; split; reflexivity|].
      split; [intros q _; obs_simpl; split; reflexivity|].
      reflexivity.
Qed.

(** ** The MIDI ports of a unit *)

(** X7.  For a unit whose ports follow the plan of the MIDI mode,
    connecting MIDI adds no box and exactly two lines: from [midiin] to
    the inlet after the signal inlets, the last one, which the inlet
    metadata describes as MIDI, and to [midiout] from the outlet after
    the signal outlets, the third counting from the end. *)
Theorem connect_midi_uses_planned_ports
    (patcher : nat) (rnbo midi_in midi_out : Box)
    (num_inputs num_outputs inlets outlets : Z) (ii oi : IOInfoDict)
    (w : World) :
  generate_io_info true num_inputs num_outputs
    = Ok (inlets, outlets, ii, oi) ->
  box_numinlets rnbo = Some inlets ->
  box_numoutlets rnbo = Some outlets ->
  exists w',
    connect_midi patcher rnbo midi_in midi_out w = Ok (tt, w')
    /\ lines_at patcher w' =
         lines_at patcher w ++
         [line_of midi_in 0 rnbo (Z.max 1 num_inputs);
          line_of rnbo (Z.max 1 num_outputs) midi_out 0]
    /\ boxes_at patcher w' = boxes_at patcher w
    /\ Z.max 1 num_inputs = inlets - 1
    /\ Z.max 1 num_outputs = outlets - 3
    /\ last (IOInfo ii) (midi_entry "in" 0)
       = midi_entry "in" (Z.max 1 num_inputs + 1).
Proof.
  intros Hio Hi Ho.
  destruct (generate_io_info_midi_inv _ _ _ _ _ _ Hio)
    as (Hin & Hout & pre & Hpre).
  destruct (connect_midi_spec patcher rnbo midi_in midi_out w)
    as (w' & E & Hb & Hl & _).
  exists w'. split; [exact E|].
  unfold numinlets, numoutlets in Hl. rewrite Hi, Ho in Hl.
  rewrite app_nil_r in Hb.
  split.
  { rewrite Hl. subst inlets outlets.
    replace (Z.max 1 num_inputs + 1 - 1) with (Z.max 1 num_inputs) by lia.
    replace (Z.max 1 num_outputs + 3 - 3) with (Z.max 1 num_outputs) by lia.
    reflexivity. }
  split; [exact Hb|].
  split; [lia|]. split; [lia|].
  rewrite Hpre, last_last. subst inlets. reflexivity.
Qed.

Lemma connect_midi_uses_planned_ports_witness :
  exists w',
    connect_midi 0 (mkBox 2 Rnbo "rnbo~" (Some 2) (Some 5) NoConfig)
      (mkBox 3 Textbox "midiin" None None NoConfig)
      (mkBox 4 Textbox "midiout" None None NoConfig) main_only
    = Ok (tt, w').
Proof.
  destruct (connect_midi_uses_planned_ports 0
              (mkBox 2 Rnbo "rnbo~" (Some 2) (Some 5) NoConfig)
              (mkBox 3 Textbox "midiin" None None NoConfig)
              (mkBox 4 Textbox "midiout" None None NoConfig)
              1 2 2 5
              (mkIOInfoDict [mkIOEntry "" 1 "in1" "signal"; midi_entry "in" 2])
              (mkIOInfoDict [mkIOEntry "" 1 "out1" "signal";
                             mkIOEntry "" 2 "out2" "signal";
                             midi_entry "out" 2])
              main_only) as (w' & E & _).
  - vm_compute. reflexivity.
  - reflexivity.
  - reflexivity.
  - exists w'. exact E.
Defined.

(** ** The audio terminals *)

Lemma string_app_assoc (a b c : string) :
  ((a ++ b) ++ c)%string = (a ++ b ++ c)%string.
Proof. induction a as [|x a IH]; simpl; [reflexivity|]. rewrite IH. reflexivity. Qed.

Lemma join_snoc (sep : string) (l : list string) (x : string) :
  l <> [] -> join sep (l ++ [x]) = (join sep l ++ sep ++ x)%string.
Proof.
  induction l as [|a [|b l] IH]; intros Hne; [contradiction|reflexivity|].
  change (join sep ((a :: b :: l) ++ [x]))
    with (a ++ sep ++ join sep ((b :: l) ++ [x]))%string.
  rewrite IH by discriminate.
  change (join sep (a :: b :: l)) with (a ++ sep ++ join sep (b :: l))%string.
  rewrite !string_app_assoc. reflexivity.
Qed.

Lemma channel_numbers_step (n : Z) :
  1 <= n ->
  channel_numbers (n + 1)
  = (channel_numbers n ++ " " ++ str_int (n + 1))%string.
Proof.
  intros Hn. unfold channel_numbers.
  rewrite py_range_snoc by lia. rewrite map_app. cbn [map].
  apply join_snoc.
  intros H. apply (f_equal (@List.length string)) in H.
  rewrite length_map, py_range_length in H. simpl in H. lia.
Qed.

(** X8.  The audio terminals.  [create_audio_output] always returns and
    adds to the patcher a [toggle] and a [dac~] object, the line from the
    toggle to it, and one line per output channel, from outlet [i] of the
    unit to inlet [i] of [dac~], in order; [create_audio_input] adds an
    [adc~] object and one line per input channel, from its outlet [i] to
    inlet [i] of the unit.  The objects list the channels from 1: the
    list is empty for no channel, [1] for one, and the list of [n]
    channels followed by [n + 1] for [n + 1].  Nothing else changes in
    the patcher, and nothing in the other patchers. *)
Theorem audio_terminals_channels
    (patcher : nat) (rnbo : Box) (n : Z) (w : World) :
  (exists w' toggle audio_out,
     create_audio_output patcher rnbo n w = Ok (tt, w')
     /\ is_textbox "toggle" toggle
     /\ is_textbox ("dac~ " ++ channel_numbers n) audio_out
     /\ box_numinlets audio_out = Some n
     /\ boxes_at patcher w' = boxes_at patcher w ++ [toggle; audio_out]
     /\ lines_at patcher w' =
          lines_at patcher w ++
          line_of toggle 0 audio_out 0
          :: map (fun i => line_of rnbo i audio_out i) (py_range 0 n)
     /\ forall q, q <> patcher ->
          boxes_at q w' = boxes_at q w /\ lines_at q w' = lines_at q w)
  /\ (exists w' audio_in,
        create_audio_input patcher rnbo n w = Ok (tt, w')
        /\ is_textbox ("adc~ " ++ channel_numbers n) audio_in
        /\ box_numoutlets audio_in = Some n
        /\ boxes_at patcher w' = boxes_at patcher w ++ [audio_in]
        /\ lines_at patcher w' =
             lines_at patcher w ++
             map (fun i => line_of audio_in i rnbo i) (py_range 0 n)
        /\ forall q, q <> patcher ->
             boxes_at q w' = boxes_at q w /\ lines_at q w' = lines_at q w)
  /\ List.length (py_range 0 n) = Z.to_nat n
  /\ (n <= 0 -> channel_numbers n = "")
  /\ channel_numbers 1 = "1"
  /\ (1 <= n ->
      channel_numbers (n + 1)
      = (channel_numbers n ++ " " ++ str_int (n + 1))%string).
Proof.
  split.
  { destruct (create_audio_output_spec patcher rnbo n w)
      as (w' & toggle & audio_out & E & Ht & Ha & Hn & Hb & Hl & Hf & _).
    exists w', toggle, audio_out. auto 10. }
  split.
  { destruct (create_audio_input_spec patcher rnbo n w)
      as (w' & audio_in & E & Ha & Hn & Hb & Hl & Hf & _).
    exists w', audio_in. auto 10. }
  split; [rewrite py_range_length; f_equal; lia|].
  split.
  { intros Hn. unfold channel_numbers. rewrite py_range_empty by lia.
    reflexivity. }
  split; [reflexivity|]. apply channel_numbers_step.
Qed.

(** * What the construction leaves as it is *)

Lemma bind_inv {A B : Type} (m : M A) (f : A -> M B) (w : World)
    (r : B * World) :
  bind m f w = Ok r -> exists a w1, m w = Ok (a, w1) /\ f a w1 = Ok r.
Proof.
  unfold bind. destruct (m w) as [[a w1]|e]; [|discriminate].
  intros H. exists a, w1. split; [reflexivity|exact H].
Qed.

Lemma keeps_ret {R : World -> World -> Prop} {F : Frame R}
    {A : Type} (a : A) : keeps R (ret a).
Proof. intros w a' w' H. injection H as _ <-. apply frame_refl. Qed.

Lemma keeps_raise {R : World -> World -> Prop} {F : Frame R}
    {A : Type} (e : PyError) : keeps R (@raise A e).
Proof. intros w a w' H. discriminate. Qed.

Lemma keeps_lift {R : World -> World -> Prop} {F : Frame R}
    {A : Type} (r : Result A) : keeps R (lift r).
Proof.
  intros w a w' H. unfold lift in H. destruct r; [|discriminate].
  injection H as _ <-. apply frame_refl.
Qed.

Lemma keeps_bind {R : World -> World -> Prop} {F : Frame R}
    {A B : Type} (m : M A) (f : A -> M B) :
  keeps R m -> (forall a, keeps R (f a)) -> keeps R (bind m f).
Proof.
  intros Hm Hf w b w' H.
  destruct (bind_inv _ _ _ _ H) as (a & w1 & E1 & E2).
  eapply frame_trans; [eapply Hm; exact E1|eapply Hf; exact E2].
Qed.

Lemma keeps_for_each {R : World -> World -> Prop} {F : Frame R}
    {A : Type} (l : list A) (body : A -> M unit) :
  (forall x, keeps R (body x)) -> keeps R (for_each l body).
Proof.
  intros Hb. induction l as [|x l IH]; cbn [for_each].
  - apply keeps_ret.
  - apply keeps_bind; [apply Hb|intros _; exact IH].
Qed.

Lemma keeps_for_each_acc {R : World -> World -> Prop} {F : Frame R}
    {A S : Type} (l : list A) (body : S -> A -> M S)
    (s : S) :
  (forall s x, keeps R (body s x)) -> keeps R (for_each_acc l body s).
Proof.
  intros Hb. revert s. induction l as [|x l IH]; intros s; cbn [for_each_acc].
  - apply keeps_ret.
  - apply keeps_bind; [apply Hb|intros s'; apply IH].
Qed.

Lemma keeps_add_box {R : World -> World -> Prop} {F : Frame R}
    (p : nat) (c : BoxClass) (t : string)
    (ni no : option Z) (cfg : BoxConfig) :
  frame_ok p -> keeps R (add_box p c t ni no cfg).
Proof.
  intros Hp w b w' H. unfold add_box in H. injection H as _ <-.
  apply frame_box. exact Hp.
Qed.

Lemma keeps_add_line {R : World -> World -> Prop} {F : Frame R}
    (p : nat) (s d : Box) (i o : Z) :
  frame_ok p -> keeps R (add_line p s d i o).
Proof.
  intros Hp w b w' H. unfold add_line in H. injection H as _ <-.
  apply frame_line. exact Hp.
Qed.

(** A computation that starts by creating a patcher. *)
Lemma keeps_new_patcher {R : World -> World -> Prop} {F : Frame R}
    {B : Type} (path : option string)
    (f : nat -> M B) :
  (forall p, frame_ok p -> keeps R (f p)) -> keeps R (bind (new_patcher path) f).
Proof.
  intros Hf w b w' H. apply frame_fresh. intros Hok.
  destruct (bind_inv _ _ _ _ H) as (p & w1 & E1 & E2).
  unfold new_patcher in E1. injection E1 as <- <-.
  eapply frame_trans; [apply frame_alloc|].
  eapply Hf; [exact Hok|exact E2].
Qed.

Lemma keeps_new_patcher_run {R : World -> World -> Prop} {F : Frame R}
    (path : option string) : keeps R (new_patcher path).
Proof.
  intros w a w' H. unfold new_patcher in H. injection H as _ <-.
  apply frame_alloc.
Qed.

Lemma keeps_subpatcher {R : World -> World -> Prop} {F : Frame R}
    (b : Box) : keeps R (subpatcher b).
Proof.
  unfold subpatcher. destruct (box_config b);
    first [apply keeps_ret | apply keeps_raise].
Qed.

Lemma keeps_read_local {R : World -> World -> Prop} {F : Frame R}
    {A : Type} (name : string) (v : option A) :
  keeps R (read_local name v).
Proof.
  unfold read_local. destruct v; [apply keeps_ret|apply keeps_raise].
Qed.

Ltac keeps_step :=
  lazymatch goal with
  | |- keeps _ (bind _ _) => apply keeps_bind; [|intros]
  | |- keeps _ (ret _) => apply keeps_ret
  | |- keeps _ (raise _) => apply keeps_raise
  | |- keeps _ (lift _) => apply keeps_lift
  | |- keeps _ (subpatcher _) => apply keeps_subpatcher
  | |- keeps _ (read_local _ _) => apply keeps_read_local
  | |- keeps _ (new_patcher _) => apply keeps_new_patcher_run
  | |- keeps _ (add_box _ _ _ _ _ _) =>
      apply keeps_add_box; first [assumption | exact I]
  | |- keeps _ (add_line _ _ _ _ _) =>
      apply keeps_add_line; first [assumption | exact I]
  | |- keeps _ (for_each _ _) => apply keeps_for_each; intros
  | |- keeps _ (for_each_acc _ _ _) => apply keeps_for_each_acc; intros
  | |- keeps _ (if ?b then _ else _) => destruct b
  | |- keeps _ (match ?x with _ => _ end) => destruct x
  end.

Ltac keeps_all :=
  unfold add_textbox, add_message, add_comment, add_codebox_tilde;
  repeat keeps_step.

Lemma keeps_add_polyphony_control {R : World -> World -> Prop} {F : Frame R}
    (sub_patch : nat)
    (pitch gain gate : Box) (fm gm : bool) :
  frame_ok sub_patch ->
  keeps R (add_polyphony_control sub_patch pitch gain gate fm gm).
Proof. intros Hs. unfold add_polyphony_control. keeps_all. Qed.

Lemma keeps_connect_midi {R : World -> World -> Prop} {F : Frame R}
    (patcher : nat) (rnbo midi_in midi_out : Box) :
  frame_ok patcher -> keeps R (connect_midi patcher rnbo midi_in midi_out).
Proof. intros Hp. unfold connect_midi. keeps_all. Qed.

Lemma keeps_connect_dsp_effect {R : World -> World -> Prop} {F : Frame R}
    (patcher : nat) (dsp_rnbo effect_rnbo : Box)
    (dsp_num_outputs effect_num_inputs : Z) :
  frame_ok patcher ->
  keeps R (connect_dsp_effect patcher dsp_rnbo effect_rnbo
             dsp_num_outputs effect_num_inputs).
Proof.
  intros Hp. unfold connect_dsp_effect.
  destruct dsp_num_outputs as [|[[p|p|]|[p|p|]|]|p];
    destruct effect_num_inputs as [|[[q|q|]|[q|q|]|]|q];
    cbv beta iota; keeps_all.
Qed.

Lemma keeps_add_compile_test {R : World -> World -> Prop} {F : Frame R}
    (patcher : nat) (rnbo : Box)
    (export_path cpp_filename : string) :
  frame_ok patcher ->
  keeps R (add_compile_test patcher rnbo export_path cpp_filename).
Proof. intros Hp. unfold add_compile_test. keeps_all. Qed.

Lemma keeps_create_audio_output {R : World -> World -> Prop} {F : Frame R}
    (patcher : nat) (rnbo : Box) (n : Z) :
  frame_ok patcher -> keeps R (create_audio_output patcher rnbo n).
Proof. intros Hp. unfold create_audio_output. keeps_all. Qed.

Lemma keeps_create_audio_input {R : World -> World -> Prop} {F : Frame R}
    (patcher : nat) (rnbo : Box) (n : Z) :
  frame_ok patcher -> keeps R (create_audio_input patcher rnbo n).
Proof. intros Hp. unfold create_audio_input. keeps_all. Qed.

(** The construction of a unit, when handling its parameters keeps the
    relation. *)
Lemma keeps_add_rnbo_object_with {R : World -> World -> Prop} {F : Frame R}
    (patcher : nat)
    (dsp_name codebox_code : string) (items : list Item) (midi : bool)
    (nvoices : Z) (test : bool) (num_inputs num_outputs : Z) :
  frame_ok patcher ->
  (forall sub_patch rnbo codebox loc item,
     frame_ok sub_patch ->
     keeps R (item_loop_body patcher sub_patch rnbo codebox midi nvoices
                test loc item)) ->
  keeps R (add_rnbo_object patcher dsp_name codebox_code items midi
             nvoices test num_inputs num_outputs).
Proof.
  intros Hp Hbody w b w' H. unfold add_rnbo_object in H.
  destruct (bind_inv _ _ _ _ H) as ([[[inlets outlets] ii] oi] & w1 & E1 & E2).
  clear H. unfold lift in E1.
  destruct (generate_io_info midi num_inputs num_outputs); [|discriminate].
  injection E1 as _ <-.
  unfold add_rnbo in E2. rewrite bind_assoc, bind_new_patcher in E2.
  cbn beta in E2. unfold add_box at 1 in E2.
  unfold bind at 1 in E2. cbn beta iota in E2.
  unfold subpatcher at 1 in E2. cbn [box_config] in E2.
  rewrite bind_ret in E2.
  apply frame_fresh. intros Hsub.
  eapply frame_trans; [apply frame_alloc|].
  eapply frame_trans; [apply frame_box; exact Hp|].
  match type of E2 with
  | ?m ?w0 = _ => assert (K : keeps R m); [|exact (K _ _ _ E2)]
  end.
  keeps_all;
    lazymatch goal with
    | |- keeps _ (item_loop_body _ _ _ _ _ _ _ _ _) =>
        apply Hbody; assumption
    | |- keeps _ (add_polyphony_control _ _ _ _ _ _) =>
        apply keeps_add_polyphony_control; first [assumption | exact I]
    end.
Qed.

(** Without MIDI, handling a parameter does not log. *)
Lemma keeps_item_loop_body_no_midi {R : World -> World -> Prop} {F : Frame R}
    (patcher sub_patch : nat)
    (rnbo codebox : Box) (nvoices : Z) (test : bool)
    (loc : PolyLocals) (item : Item) :
  frame_ok patcher -> frame_ok sub_patch ->
  keeps R (item_loop_body patcher sub_patch rnbo codebox false nvoices
             test loc item).
Proof. intros Hp Hs. unfold item_loop_body. keeps_all. Qed.

Lemma keeps_add_rnbo_object_no_midi {R : World -> World -> Prop} {F : Frame R}
    (patcher : nat)
    (dsp_name codebox_code : string) (items : list Item)
    (nvoices : Z) (test : bool) (num_inputs num_outputs : Z) :
  frame_ok patcher ->
  keeps R (add_rnbo_object patcher dsp_name codebox_code items false
             nvoices test num_inputs num_outputs).
Proof.
  intros Hp. apply keeps_add_rnbo_object_with; [exact Hp|].
  intros. apply keeps_item_loop_body_no_midi; assumption.
Qed.


Lemma keeps_logging_error {R : World -> World -> Prop} {L : LogFrame R}
    (msg : string) : keeps R (logging_error msg).
Proof.
  intros w a w' H. unfold logging_error in H. injection H as _ <-.
  apply frame_log.
Qed.

Lemma keeps_add_midi_control {R : World -> World -> Prop} {F : Frame R}
    {L : LogFrame R}
    (item : Item) (sub_patch : nat)
    (set_param codebox : Box) :
  frame_ok sub_patch ->
  keeps R (add_midi_control item sub_patch set_param codebox).
Proof.
  intros Hs. unfold add_midi_control.
  keeps_all; apply keeps_logging_error.
Qed.

Lemma keeps_item_loop_body {R : World -> World -> Prop} {F : Frame R}
    {L : LogFrame R}
    (patcher sub_patch : nat)
    (rnbo codebox : Box) (midi : bool) (nvoices : Z) (test : bool)
    (loc : PolyLocals) (item : Item) :
  frame_ok patcher -> frame_ok sub_patch ->
  keeps R (item_loop_body patcher sub_patch rnbo codebox midi nvoices
             test loc item).
Proof.
  intros Hp Hs. unfold item_loop_body.
  keeps_all; apply keeps_add_midi_control; assumption.
Qed.

Lemma keeps_add_rnbo_object {R : World -> World -> Prop} {F : Frame R}
    {L : LogFrame R}
    (patcher : nat)
    (dsp_name codebox_code : string) (items : list Item) (midi : bool)
    (nvoices : Z) (test : bool) (num_inputs num_outputs : Z) :
  frame_ok patcher ->
  keeps R (add_rnbo_object patcher dsp_name codebox_code items midi
             nvoices test num_inputs num_outputs).
Proof.
  intros Hp. apply keeps_add_rnbo_object_with; [exact Hp|].
  intros. apply keeps_item_loop_body; assumption.
Qed.


Lemma keeps_saveas {R : World -> World -> Prop} {S : SaveFrame R}
    (p : nat) (file : string) : keeps R (saveas p file).
Proof.
  intros w a w' H. unfold saveas in H. injection H as _ <-.
  apply frame_saved.
Qed.

Lemma keeps_save {R : World -> World -> Prop} {S : SaveFrame R}
    (p : nat) : keeps R (save p).
Proof.
  intros w a w' H. unfold save in H.
  destruct (path (get_patcher p w)); [|discriminate].
  exact (keeps_saveas _ _ _ _ _ H).
Qed.

Lemma keeps_create_rnbo_patch {R : World -> World -> Prop} {F : Frame R}
    {L : LogFrame R} {S : SaveFrame R}
    (dsp_name maxpat_path export_path cpp_filename dsp_codebox_code : string)
    (dsp_items_info_list : list Item) (dsp_num_inputs dsp_num_outputs : Z)
    (midi : bool) (nvoices : Z)
    (effect_codebox_code : option string)
    (effect_items_info_list : option (list Item))
    (effect_num_inputs effect_num_outputs : Z)
    (compile test subpatcher_flag : bool) :
  keeps R (create_rnbo_patch dsp_name maxpat_path export_path cpp_filename
             dsp_codebox_code dsp_items_info_list dsp_num_inputs
             dsp_num_outputs midi nvoices effect_codebox_code
             effect_items_info_list effect_num_inputs effect_num_outputs
             compile test subpatcher_flag).
Proof.
  unfold create_rnbo_patch. apply keeps_new_patcher. intros patcher Hp.
  keeps_all;
    lazymatch goal with
    | |- keeps _ (add_rnbo_object _ _ _ _ _ _ _ _ _) =>
        apply keeps_add_rnbo_object; assumption
    | |- keeps _ (connect_midi _ _ _ _) =>
        apply keeps_connect_midi; first [assumption | exact I]
    | |- keeps _ (connect_dsp_effect _ _ _ _ _) =>
        apply keeps_connect_dsp_effect; first [assumption | exact I]
    | |- keeps _ (add_compile_test _ _ _ _) =>
        apply keeps_add_compile_test; first [assumption | exact I]
    | |- keeps _ (create_audio_output _ _ _) =>
        apply keeps_create_audio_output; first [assumption | exact I]
    | |- keeps _ (create_audio_input _ _ _) =>
        apply keeps_create_audio_input; first [assumption | exact I]
    | |- keeps _ (saveas _ _) => apply keeps_saveas
    | |- keeps _ (save _) => apply keeps_save
    end.
Qed.

Lemma keeps_load_files_create_rnbo_patch {R : World -> World -> Prop} {F : Frame R}
    {L : LogFrame R} {S : SaveFrame R}
    (dsp_name : string)
    (dsp_codebox_file : string) (dsp_json_file : JsonData)
    (effect_codebox_file : option string)
    (effect_json_file : option JsonData)
    (maxpat_path export_path cpp_filename : string)
    (midi : bool) (nvoices : option Z)
    (compile test subpatcher_flag : bool) :
  keeps R (load_files_create_rnbo_patch dsp_name dsp_codebox_file
             dsp_json_file effect_codebox_file effect_json_file
             maxpat_path export_path cpp_filename midi nvoices
             compile test subpatcher_flag).
Proof.
  unfold load_files_create_rnbo_patch.
  keeps_all; apply keeps_create_rnbo_patch.
Qed.


Ltac keeps_leaf :=
  lazymatch goal with
  | |- keeps _ (add_rnbo_object _ _ _ _ _ _ _ _ _) =>
      first [ apply keeps_add_rnbo_object; first [assumption | exact I]
            | apply keeps_add_rnbo_object_no_midi;
              first [assumption | exact I] ]
  | |- keeps _ (item_loop_body _ _ _ _ _ _ _ _ _) =>
      first [ apply keeps_item_loop_body; first [assumption | exact I]
            | apply keeps_item_loop_body_no_midi;
              first [assumption | exact I] ]
  | |- keeps _ (add_midi_control _ _ _ _) =>
      apply keeps_add_midi_control; first [assumption | exact I]
  | |- keeps _ (add_polyphony_control _ _ _ _ _ _) =>
      apply keeps_add_polyphony_control; first [assumption | exact I]
  | |- keeps _ (connect_midi _ _ _ _) =>
      apply keeps_connect_midi; first [assumption | exact I]
  | |- keeps _ (connect_dsp_effect _ _ _ _ _) =>
      apply keeps_connect_dsp_effect; first [assumption | exact I]
  | |- keeps _ (add_compile_test _ _ _ _) =>
      apply keeps_add_compile_test; first [assumption | exact I]
  | |- keeps _ (create_audio_output _ _ _) =>
      apply keeps_create_audio_output; first [assumption | exact I]
  | |- keeps _ (create_audio_input _ _ _) =>
      apply keeps_create_audio_input; first [assumption | exact I]
  | |- keeps _ (logging_error _) => apply keeps_logging_error
  | |- keeps _ (saveas _ _) => apply keeps_saveas
  | |- keeps _ (save _) => apply keeps_save
  end.

(** [keeps R m] for a computation [m] made of the functions above. *)
Ltac keeps_auto := keeps_all; try keeps_leaf.

(** ** The relations kept *)

#[local] Instance same_log_frame : Frame same_log := {|
  frame_ok := fun _ => True;
  frame_refl := fun w => eq_refl;
  frame_trans := fun w1 w2 w3 (H1 : same_log w1 w2) (H2 : same_log w2 w3) =>
                   eq_trans H2 H1;
  frame_box := fun p b w _ => log_push_box p b w;
  frame_line := fun p l w _ => log_push_line p l w;
  frame_alloc := fun path w => log_alloc path w;
  frame_fresh := fun w w' H => H I
|}.

#[local] Instance same_log_save : SaveFrame same_log :=
  fun p f w => eq_refl.

#[local] Instance same_saved_frame : Frame same_saved := {|
  frame_ok := fun _ => True;
  frame_refl := fun w => eq_refl;
  frame_trans := fun w1 w2 w3 (H1 : same_saved w1 w2)
                     (H2 : same_saved w2 w3) => eq_trans H2 H1;
  frame_box := fun p b w _ => eq_refl;
  frame_line := fun p l w _ => eq_refl;
  frame_alloc := fun path w => eq_refl;
  frame_fresh := fun w w' H => H I
|}.

#[local] Instance same_saved_log : LogFrame same_saved :=
  fun msg w => eq_refl.

Lemma same_paths_trans (w1 w2 w3 : World) :
  same_paths w1 w2 -> same_paths w2 w3 -> same_paths w1 w3.
Proof.
  intros H1 H2 p Hp. destruct (H1 p Hp) as [Hp2 E1].
  destruct (H2 p Hp2) as [Hp3 E2]. split; [exact Hp3|congruence].
Qed.

Lemma same_paths_alloc (path : option string) (w : World) :
  same_paths w (alloc_patcher path w).
Proof.
  intros p Hp. split; [apply num_alloc_mono; lia|].
  apply path_alloc_other. apply Nat.eqb_neq. lia.
Qed.

#[local] Instance same_paths_frame : Frame same_paths := {|
  frame_ok := fun _ => True;
  frame_refl := fun w p Hp => conj Hp eq_refl;
  frame_trans := same_paths_trans;
  frame_box := fun p b w _ q Hq =>
                 conj (num_push_box_mono _ p b w Hq) (path_push_box q p b w);
  frame_line := fun p l w _ q Hq =>
                  conj (num_push_line_mono _ p l w Hq) (path_push_line q p l w);
  frame_alloc := same_paths_alloc;
  frame_fresh := fun w w' H => H I
|}.

#[local] Instance same_paths_log : LogFrame same_paths :=
  fun msg w p Hp => conj Hp eq_refl.

#[local] Instance same_paths_save : SaveFrame same_paths :=
  fun q f w p Hp => conj Hp eq_refl.

Lemma untouched_refl (n : nat) (w : World) : untouched n w w.
Proof.
  intros Hn. split; [exact Hn|]. split; [auto|].
  split; exists []; rewrite app_nil_r; reflexivity.
Qed.

Lemma untouched_trans (n : nat) (w1 w2 w3 : World) :
  untouched n w1 w2 -> untouched n w2 w3 -> untouched n w1 w3.
Proof.
  intros H1 H2 Hn.
  destruct (H1 Hn) as (Hn2 & Hp1 & (l1 & Hl1) & (s1 & Hs1)).
  destruct (H2 Hn2) as (Hn3 & Hp2 & (l2 & Hl2) & (s2 & Hs2)).
  split; [exact Hn3|]. split.
  - intros p Hp. destruct (Hp1 p Hp) as (A1 & B1 & C1).
    destruct (Hp2 p Hp) as (A2 & B2 & C2).
    repeat split; congruence.
  - split; [exists (l1 ++ l2); rewrite Hl2, Hl1, app_assoc; reflexivity|].
    exists (s1 ++ s2). rewrite Hs2, Hs1, app_assoc. reflexivity.
Qed.

Lemma untouched_box (n p : nat) (b : Box) (w : World) :
  (n <= p)%nat -> untouched n w (push_box p b w).
Proof.
  intros Hp Hn. split; [apply num_push_box_mono; exact Hn|]. split.
  - intros q Hq.
    rewrite boxes_push_box_other by (apply Nat.eqb_neq; lia).
    rewrite lines_push_box, path_push_box. auto.
  - split; exists []; rewrite app_nil_r; reflexivity.
Qed.

Lemma untouched_line (n p : nat) (l : Patchline) (w : World) :
  (n <= p)%nat -> untouched n w (push_line p l w).
Proof.
  intros Hp Hn. split; [apply num_push_line_mono; exact Hn|]. split.
  - intros q Hq.
    rewrite lines_push_line_other by (apply Nat.eqb_neq; lia).
    rewrite boxes_push_line, path_push_line. auto.
  - split; exists []; rewrite app_nil_r; reflexivity.
Qed.

Lemma untouched_alloc (n : nat) (path : option string) (w : World) :
  untouched n w (alloc_patcher path w).
Proof.
  intros Hn. split; [apply num_alloc_mono; exact Hn|]. split.
  - intros q Hq. rewrite boxes_alloc, lines_alloc.
    rewrite path_alloc_other by (apply Nat.eqb_neq; lia). auto.
  - split; exists []; rewrite app_nil_r; reflexivity.
Qed.

#[local] Instance untouched_frame (n : nat) : Frame (untouched n) := {|
  frame_ok := fun p => (n <= p)%nat;
  frame_refl := untouched_refl n;
  frame_trans := untouched_trans n;
  frame_box := untouched_box n;
  frame_line := untouched_line n;
  frame_alloc := untouched_alloc n;
  frame_fresh := fun w w' H Hn => H Hn Hn
|}.

#[local] Instance untouched_log (n : nat) : LogFrame (untouched n).
Proof.
  intros msg w Hn. split; [exact Hn|]. split; [auto|]. split.
  - exists [msg]. reflexivity.
  - exists []. rewrite app_nil_r. reflexivity.
Qed.

#[local] Instance untouched_save (n : nat) : SaveFrame (untouched n).
Proof.
  intros p f w Hn. split; [exact Hn|]. split; [auto|]. split.
  - exists []. rewrite app_nil_r. reflexivity.
  - exists [(f, get_patcher p w)]. reflexivity.
Qed.

(** X9.  A conversion that returns leaves the store it started from as
    it was: the patchers that existed keep their boxes, their lines and
    their path, and what was logged and saved before is still there, in
    front of what the conversion logs and saves. *)
Theorem load_files_leaves_existing_patchers
    (dsp_name dsp_codebox_file : string) (dsp_json_file : JsonData)
    (effect_codebox_file : option string)
    (effect_json_file : option JsonData)
    (maxpat_path export_path cpp_filename : string)
    (midi : bool) (nvoices : option Z)
    (compile test subpatcher_flag : bool) (w w' : World) :
  load_files_create_rnbo_patch dsp_name dsp_codebox_file dsp_json_file
    effect_codebox_file effect_json_file maxpat_path export_path
    cpp_filename midi nvoices compile test subpatcher_flag w
  = Ok (tt, w') ->
  (num_patchers w <= num_patchers w')%nat
  /\ (forall p, (p < num_patchers w)%nat ->
        boxes_at p w' = boxes_at p w
        /\ lines_at p w' = lines_at p w
        /\ path_at p w' = path_at p w)
  /\ (exists l, log w' = log w ++ l)
  /\ (exists s, saved w' = saved w ++ s).
Proof.
  intros H.
  apply (keeps_load_files_create_rnbo_patch (R := untouched (num_patchers w)))
    in H.
  apply H. apply Nat.le_refl.
Qed.

(** ** What is logged *)

(** Inversion of the first step of a computation that returns. *)
Tactic Notation "peel" hyp(H) "as" simple_intropattern(a) ident(w) ident(E) :=
  apply bind_inv in H; destruct H as (a & w & E & H).

(** The step [E] of a run keeps the relation [R]. *)
Ltac step_keeps R E :=
  match type of E with
  | ?m ?w0 = Ok _ =>
      let K := fresh "K" in
      assert (K : keeps R m) by keeps_auto;
      apply K in E
  end.

Lemma add_midi_control_log (item : Item) (sub_patch : nat)
    (set_param codebox : Box) (w : World) (r : bool) (w' : World) :
  add_midi_control item sub_patch set_param codebox w = Ok (r, w') ->
  log w' = log w ++ item_messages true item.
Proof.
  unfold item_messages. intros H.
  destruct (item_midi item) as [|midi_type args] eqn:Hm.
  - rewrite (add_midi_control_no_binding _ _ _ _ _ Hm) in H.
    injection H as _ <-. rewrite app_nil_r. reflexivity.
  - destruct (in_dec string_dec midi_type supported_midi_types) as [Hs|Hu].
    + assert (Hin : str_in midi_type supported_midi_types = true).
      { simpl in Hs.
        repeat (destruct Hs as [<-|Hs]; [reflexivity|]). destruct Hs. }
      rewrite Hin, app_nil_r.
      destruct (dict_get_supported _ Hs) as (name_in & name_out & Hd).
      unfold add_midi_control in H. rewrite Hm, Hd in H.
      step_keeps same_log H. exact H.
    + assert (Hin : str_in midi_type supported_midi_types = false).
      { unfold str_in, supported_midi_types. simpl.
        repeat match goal with
               | |- context [String.eqb midi_type ?k] =>
                   destruct (String.eqb_spec midi_type k) as [->|_];
                   [exfalso; apply Hu; simpl; tauto|]
               end.
        reflexivity. }
      rewrite Hin.
      rewrite (add_midi_control_unsupported _ _ _ _ _ _ _ Hm Hu) in H.
      injection H as _ <-. reflexivity.
Qed.

Lemma item_loop_body_log (patcher sub_patch : nat) (rnbo codebox : Box)
    (midi : bool) (nvoices : Z) (test : bool) (loc : PolyLocals)
    (item : Item) (w : World) (loc' : PolyLocals) (w' : World) :
  item_loop_body patcher sub_patch rnbo codebox midi nvoices test loc item w
    = Ok (loc', w') ->
  log w' = log w ++ item_messages midi item.
Proof.
  intros H. unfold item_loop_body in H.
  peel H as set_param w1 E1. step_keeps same_log E1.
  peel H as param w2 E2. step_keeps same_log E2.
  peel H as u3 w3 E3. step_keeps same_log E3.
  peel H as u4 w4 E4. step_keeps same_log E4.
  peel H as u5 w5 E5. injection H as _ <-.
  destruct midi.
  - peel E5 as r w6 E6. injection E5 as _ <-.
    apply add_midi_control_log in E6.
    unfold same_log in *. congruence.
  - injection E5 as _ <-. unfold item_messages, same_log in *.
    rewrite app_nil_r. congruence.
Qed.

Lemma param_loop_log (patcher sub_patch : nat) (rnbo codebox : Box)
    (midi : bool) (nvoices : Z) (test : bool) (items : list Item)
    (loc : PolyLocals) (w : World) (loc' : PolyLocals) (w' : World) :
  for_each_acc items
    (item_loop_body patcher sub_patch rnbo codebox midi nvoices test) loc w
    = Ok (loc', w') ->
  log w' = log w ++ unit_messages midi items.
Proof.
  unfold unit_messages. revert loc w.
  induction items as [|x items IH]; intros loc w H; cbn [for_each_acc] in H.
  - injection H as _ <-. rewrite app_nil_r. reflexivity.
  - peel H as loc1 w1 E. apply item_loop_body_log in E. apply IH in H.
    cbn [flat_map]. rewrite H, E, app_assoc. reflexivity.
Qed.

Lemma add_rnbo_object_log (patcher : nat) (dsp_name codebox_code : string)
    (items : list Item) (midi : bool) (nvoices : Z) (test : bool)
    (num_inputs num_outputs : Z) (w : World) (rnbo : Box) (w' : World) :
  add_rnbo_object patcher dsp_name codebox_code items midi nvoices test
    num_inputs num_outputs w = Ok (rnbo, w') ->
  log w' = log w ++ unit_messages midi items.
Proof.
  intros H. unfold add_rnbo_object in H.
  peel H as [[[inlets outlets] ii] oi] w0 E0. step_keeps same_log E0.
  peel H as rnbo0 w1 E1. unfold add_rnbo in E1. step_keeps same_log E1.
  peel H as sub_patch w2 E2. step_keeps same_log E2.
  peel H as codebox w3 E3. step_keeps same_log E3.
  peel H as u4 w4 E4. step_keeps same_log E4.
  peel H as u5 w5 E5. step_keeps same_log E5.
  peel H as u6 w6 E6. step_keeps same_log E6.
  peel H as loc w7 E7. apply param_loop_log in E7.
  peel H as u8 w8 E8. step_keeps same_log E8.
  injection H as _ <-.
  unfold same_log in *. congruence.
Qed.

(** X10.  What a construction that returns has logged: one error
    message per parameter whose MIDI binding starts with an unsupported
    control class, for the parameters of the DSP and then those of the
    effect, in order, and nothing else; nothing at all without MIDI. *)
Theorem create_rnbo_patch_logs_unsupported_bindings
    (dsp_name maxpat_path export_path cpp_filename dsp_codebox_code : string)
    (dsp_items_info_list : list Item) (dsp_num_inputs dsp_num_outputs : Z)
    (midi : bool) (nvoices : Z)
    (effect_codebox_code : option string)
    (effect_items_info_list : option (list Item))
    (effect_num_inputs effect_num_outputs : Z)
    (compile test subpatcher_flag : bool) (w w' : World) :
  create_rnbo_patch dsp_name maxpat_path export_path cpp_filename
    dsp_codebox_code dsp_items_info_list dsp_num_inputs dsp_num_outputs
    midi nvoices effect_codebox_code effect_items_info_list
    effect_num_inputs effect_num_outputs compile test subpatcher_flag w
  = Ok (tt, w') ->
  log w' =
    log w ++ unit_messages midi dsp_items_info_list
    ++ match truthy_str effect_codebox_code, effect_items_info_list with
       | Some _, Some effect_items => unit_messages midi effect_items
       | _, _ => []
       end
  /\ (midi = false -> log w' = log w).
Proof.
  intros H.
  assert (Hlog :
    log w' =
      log w ++ unit_messages midi dsp_items_info_list
      ++ match truthy_str effect_codebox_code, effect_items_info_list with
         | Some _, Some effect_items => unit_messages midi effect_items
         | _, _ => []
         end).
  { unfold create_rnbo_patch in H.
    peel H as patcher w1 E1. step_keeps same_log E1.
    peel H as comment_box w2 E2. step_keeps same_log E2.
    peel H as dsp_rnbo w3 E3. apply add_rnbo_object_log in E3.
    peel H as midi_io w4 E4. step_keeps same_log E4.
    peel H as u5 w5 E5. step_keeps same_log E5.
    peel H as effect w6 E6.
    assert (E6' :
      log w6 =
        log w5 ++
        match truthy_str effect_codebox_code, effect_items_info_list with
        | Some _, Some effect_items => unit_messages midi effect_items
        | _, _ => []
        end).
    { destruct (truthy_str effect_codebox_code) as [code|].
      - peel E6 as l wa Ea.
        destruct effect_items_info_list as [l'|];
          [|peel Ea as plan wp Ep; unfold raise in Ea; discriminate Ea].
        injection Ea as <- <-.
        peel E6 as effect_rnbo wb Eb. apply add_rnbo_object_log in Eb.
        step_keeps same_log E6. unfold same_log in *. congruence.
      - injection E6 as _ <-. rewrite app_nil_r. reflexivity. }
    clear E6.
    peel H as u7 w7 E7. step_keeps same_log E7.
    peel H as u8 w8 E8. step_keeps same_log E8.
    peel H as u9 w9 E9. step_keeps same_log E9.
    step_keeps same_log H.
    unfold same_log in *.
    rewrite H, E9, E8, E7, E6', E5, E4, E3, E2, E1.
    rewrite <- app_assoc. reflexivity. }
  split; [exact Hlog|].
  intros ->. rewrite Hlog.
  assert (Hnone : forall l, unit_messages false l = []).
  { intros l. unfold unit_messages. induction l as [|x l IH]; [reflexivity|].
    exact IH. }
  rewrite Hnone.
  destruct (truthy_str effect_codebox_code), effect_items_info_list;
    rewrite ?Hnone, ?app_nil_r; reflexivity.
Qed.

(** ** What is saved *)

Lemma save_subpatcher_names (rnbo : Box) (flag : bool) (name : string)
    (w : World) (u : unit) (w' : World) :
  (if flag then sub <- subpatcher rnbo ;; saveas sub name else ret tt) w
    = Ok (u, w') ->
  map fst (saved w') = map fst (saved w) ++ (if flag then [name] else []).
Proof.
  intros H. destruct flag.
  - peel H as sub w1 E1. step_keeps same_saved E1.
    unfold saveas in H. injection H as _ <-.
    change (saved (push_saved sub name w1))
      with (saved w1 ++ [(name, get_patcher sub w1)]).
    rewrite map_app, E1. reflexivity.
  - injection H as _ <-. rewrite app_nil_r. reflexivity.
Qed.

(** X11.  The files written by a construction that returns, after those
    written before: with the sub-patcher option the sub-patch of the DSP,
    under the name of the patch with the extension [rnbopat] in place of
    its own, and the sub-patch of the effect, if any, under that name
    with [_effect] before the extension; then, in all cases and last, the
    patch itself under [maxpat_path], holding the main patcher as it is
    at the end. *)
Theorem create_rnbo_patch_saved_files
    (dsp_name maxpat_path export_path cpp_filename dsp_codebox_code : string)
    (dsp_items_info_list : list Item) (dsp_num_inputs dsp_num_outputs : Z)
    (midi : bool) (nvoices : Z)
    (effect_codebox_code : option string)
    (effect_items_info_list : option (list Item))
    (effect_num_inputs effect_num_outputs : Z)
    (compile test subpatcher_flag : bool) (w w' : World) :
  create_rnbo_patch dsp_name maxpat_path export_path cpp_filename
    dsp_codebox_code dsp_items_info_list dsp_num_inputs dsp_num_outputs
    midi nvoices effect_codebox_code effect_items_info_list
    effect_num_inputs effect_num_outputs compile test subpatcher_flag w
  = Ok (tt, w') ->
  map fst (saved w') =
    map fst (saved w)
    ++ (if subpatcher_flag
        then [(rsplit_dot_head maxpat_path ++ "." ++ "rnbopat")%string]
        else [])
    ++ (if subpatcher_flag
        then match truthy_str effect_codebox_code with
             | Some _ =>
                 [(rsplit_dot_head maxpat_path ++ "_effect." ++ "rnbopat")%string]
             | None => []
             end
        else [])
    ++ [maxpat_path]
  /\ exists before,
       saved w' =
         before ++ [(maxpat_path, get_patcher (num_patchers w) w')].
Proof.
  intros H. unfold create_rnbo_patch in H.
  peel H as patcher w1 E1.
  unfold new_patcher in E1. injection E1 as <- <-.
  fold (num_patchers w) in H.
  set (main := num_patchers w) in *.
  set (w1 := alloc_patcher (Some maxpat_path) w) in *.
  assert (S1 : saved w1 = saved w) by reflexivity.
  assert (P1 : (main < num_patchers w1)%nat
               /\ path_at main w1 = Some maxpat_path).
  { split; [unfold w1; rewrite num_alloc; unfold main; lia|].
    apply path_alloc_same. }
  clearbody w1.
  peel H as comment_box w2 E2.
  pose proof E2 as P2. step_keeps same_saved E2. step_keeps same_paths P2.
  peel H as dsp_rnbo w3 E3.
  pose proof E3 as P3. step_keeps same_saved E3. step_keeps same_paths P3.
  peel H as midi_io w4 E4.
  pose proof E4 as P4. step_keeps same_saved E4. step_keeps same_paths P4.
  peel H as u5 w5 E5.
  pose proof E5 as P5. apply save_subpatcher_names in E5.
  step_keeps same_paths P5.
  peel H as effect w6 E6.
  pose proof E6 as P6. step_keeps same_paths P6.
  assert (E6' :
    map fst (saved w6) =
      map fst (saved w5)
      ++ (if subpatcher_flag
          then match truthy_str effect_codebox_code with
               | Some _ =>
                   [(rsplit_dot_head maxpat_path ++ "_effect."
                     ++ "rnbopat")%string]
               | None => []
               end
          else [])).
  { destruct (truthy_str effect_codebox_code) as [code|].
    - peel E6 as l wa Ea. step_keeps same_saved Ea.
      peel E6 as effect_rnbo wb Eb. step_keeps same_saved Eb.
      peel E6 as uc wc Ec. step_keeps same_saved Ec.
      peel E6 as ud wd Ed. apply save_subpatcher_names in Ed.
      step_keeps same_saved E6.
      unfold same_saved in *. rewrite E6, Ed, Ec, Eb, Ea. reflexivity.
    - injection E6 as _ <-.
      destruct subpatcher_flag; rewrite app_nil_r; reflexivity. }
  clear E6.
  peel H as u7 w7 E7.
  pose proof E7 as P7. step_keeps same_saved E7. step_keeps same_paths P7.
  peel H as u8 w8 E8.
  pose proof E8 as P8. step_keeps same_saved E8. step_keeps same_paths P8.
  peel H as u9 w9 E9.
  pose proof E9 as P9. step_keeps same_saved E9. step_keeps same_paths P9.
  assert (Hpath : path_at main w9 = Some maxpat_path).
  { destruct P1 as [V1 Q1].
    destruct (P2 _ V1) as [V2 Q2]. destruct (P3 _ V2) as [V3 Q3].
    destruct (P4 _ V3) as [V4 Q4]. destruct (P5 _ V4) as [V5 Q5].
    destruct (P6 _ V5) as [V6 Q6]. destruct (P7 _ V6) as [V7 Q7].
    destruct (P8 _ V7) as [V8 Q8]. destruct (P9 _ V8) as [V9 Q9].
    congruence. }
  unfold save in H. fold (path_at main w9) in H. rewrite Hpath in H.
  unfold saveas in H. injection H as <-.
  change (saved (push_saved main maxpat_path w9))
    with (saved w9 ++ [(maxpat_path, get_patcher main w9)]).
  split.
  - rewrite map_app. unfold same_saved in *.
    rewrite E9, E8, E7, E6', E5, E4, E3, E2, S1.
    cbn [map fst]. rewrite <- !app_assoc. reflexivity.
  - exists (saved w9). reflexivity.
Qed.

Lemma list_ascii_of_string_app (a b : string) :
  list_ascii_of_string (a ++ b)
  = list_ascii_of_string a ++ list_ascii_of_string b.
Proof.
  induction a as [|c a IH]; [reflexivity|].
  cbn [append list_ascii_of_string app]. rewrite IH. reflexivity.
Qed.

Lemma rsplit_dot_rev_none (l : list ascii) :
  ~ In "."%char l -> rsplit_dot_rev l = None.
Proof.
  induction l as [|c l IH]; intros H; [reflexivity|].
  cbn [rsplit_dot_rev].
  destruct (Ascii.eqb_spec c ".") as [->|_]; [exfalso; apply H; left; reflexivity|].
  apply IH. intros Hin. apply H. right. exact Hin.
Qed.

Lemma rsplit_dot_rev_found (l r : list ascii) :
  ~ In "."%char l -> rsplit_dot_rev (l ++ "."%char :: r) = Some r.
Proof.
  induction l as [|c l IH]; intros H; [reflexivity|].
  cbn [rsplit_dot_rev app].
  destruct (Ascii.eqb_spec c ".") as [->|_]; [exfalso; apply H; left; reflexivity|].
  apply IH. intros Hin. apply H. right. exact Hin.
Qed.

(** X12.  The stem of a file name, as [rsplit(".", 1)[0]] gives it: a
    name without dot is its own stem, and the stem of a name that ends
    with a dot and an extension without dot is what comes before that
    dot, other dots included. *)
Theorem rsplit_dot_head_stem (stem ext : string) :
  no_dot ext ->
  rsplit_dot_head (stem ++ "." ++ ext) = stem
  /\ rsplit_dot_head ext = ext.
Proof.
  unfold no_dot, rsplit_dot_head. intros H. split.
  - rewrite list_ascii_of_string_app.
    change (list_ascii_of_string ("." ++ ext))
      with ("."%char :: list_ascii_of_string ext).
    rewrite rev_app_distr. cbn [rev]. rewrite <- app_assoc. cbn [app].
    rewrite rsplit_dot_rev_found
      by (rewrite <- in_rev; exact H).
    rewrite rev_involutive. apply string_of_list_ascii_of_string.
  - rewrite rsplit_dot_rev_none by (rewrite <- in_rev; exact H).
    reflexivity.
Qed.

Lemma rsplit_dot_head_stem_witness :
  rsplit_dot_head "out/synth.v2.maxpat" = "out/synth.v2"
  /\ rsplit_dot_head "maxpat" = "maxpat".
Proof.
  apply (rsplit_dot_head_stem "out/synth.v2" "maxpat").
  unfold no_dot. simpl. intuition discriminate.
Defined.

(** * When the construction returns *)

Lemma for_each_acc_app {A S : Type} (l1 l2 : list A) (body : S -> A -> M S)
    (s : S) (w : World) :
  for_each_acc (l1 ++ l2) body s w
  = bind (for_each_acc l1 body s) (fun s' => for_each_acc l2 body s') w.
Proof.
  revert s w. induction l1 as [|x l1 IH]; intros s w.
  - reflexivity.
  - cbn [app for_each_acc]. rewrite bind_assoc. unfold bind at 1 2.
    destruct (body s x w) as [[s1 w1]|e]; [|reflexivity].
    apply IH.
Qed.

Lemma item_loop_body_returns (patcher sub_patch : nat) (rnbo codebox : Box)
    (midi : bool) (nvoices : Z) (test : bool) (loc : PolyLocals)
    (item : Item) (w : World) (r : PolyLocals * World) :
  item_loop_body patcher sub_patch rnbo codebox midi nvoices test loc item w
    = Ok r ->
  item_wiring_ok item = true.
Proof.
  intros H. destruct (item_wiring_ok item) eqn:Hok; [reflexivity|].
  destruct (item_wiring_ok_false _ Hok) as (Hty & e & He).
  rewrite (item_loop_body_raises _ _ _ _ _ _ _ _ _ _ _ Hty He) in H.
  discriminate.
Qed.

Lemma param_loop_returns (patcher sub_patch : nat) (rnbo codebox : Box)
    (midi : bool) (nvoices : Z) (test : bool) (items : list Item)
    (loc : PolyLocals) (w : World) (r : PolyLocals * World) :
  for_each_acc items
    (item_loop_body patcher sub_patch rnbo codebox midi nvoices test) loc w
    = Ok r ->
  Forall (fun it => item_wiring_ok it = true) items.
Proof.
  revert loc w. induction items as [|x items IH]; intros loc w H.
  - constructor.
  - cbn [for_each_acc] in H. peel H as loc1 w1 E.
    constructor; [eapply item_loop_body_returns; exact E|].
    eapply IH. exact H.
Qed.

Lemma add_rnbo_object_returns (patcher : nat) (dsp_name codebox_code : string)
    (items : list Item) (midi : bool) (nvoices : Z) (test : bool)
    (num_inputs num_outputs : Z) (w : World) (r : Box * World) :
  add_rnbo_object patcher dsp_name codebox_code items midi nvoices test
    num_inputs num_outputs w = Ok r ->
  unit_inputs_ok midi num_inputs num_outputs items.
Proof.
  intros H. unfold add_rnbo_object in H.
  peel H as plan w0 E0.
  split.
  { unfold lift in E0.
    destruct (generate_io_info midi num_inputs num_outputs) as [p|e];
      [exists p; reflexivity|discriminate]. }
  destruct plan as [[[inlets outlets] ii] oi].
  peel H as rnbo0 w1 E1. peel H as sub_patch w2 E2.
  peel H as codebox w3 E3. peel H as u4 w4 E4.
  peel H as u5 w5 E5. peel H as u6 w6 E6.
  peel H as loc w7 E7.
  eapply param_loop_returns. exact E7.
Qed.

(** The first parameter that cannot be wired, if any. *)
Lemma first_bad_item (items : list Item) :
  Forall (fun it => item_wiring_ok it = true) items
  \/ exists pre bad post,
       items = pre ++ bad :: post
       /\ Forall (fun it => item_wiring_ok it = true) pre
       /\ item_wiring_ok bad = false.
Proof.
  induction items as [|x items IH].
  - left. constructor.
  - destruct (item_wiring_ok x) eqn:Hx.
    + destruct IH as [IH|(pre & bad & post & -> & Hpre & Hbad)].
      * left. constructor; assumption.
      * right. exists (x :: pre), bad, post.
        split; [reflexivity|]. split; [constructor; assumption|exact Hbad].
    + right. exists [], x, items. repeat split; [constructor|exact Hx].
Qed.

(** The construction raises what the first parameter that cannot be
    wired raises. *)
Lemma add_rnbo_object_raises (patcher : nat)
    (dsp_name codebox_code : string) (pre : list Item) (bad : Item)
    (post : list Item) (midi : bool) (nvoices : Z) (test : bool)
    (num_inputs num_outputs : Z) (e : PyError) (w : World) :
  (patcher < num_patchers w)%nat ->
  (exists plan, generate_io_info midi num_inputs num_outputs = Ok plan) ->
  Forall (fun it => item_wiring_ok it = true) pre ->
  str_in (item_type bad) ["button"; "checkbox"] = false ->
  steps_value (item_max bad) (item_min bad) (item_step bad) = Raise e ->
  add_rnbo_object patcher dsp_name codebox_code (pre ++ bad :: post) midi
    nvoices test num_inputs num_outputs w = Raise e.
Proof.
  intros Hv ([[[inlets outlets] ii] oi] & Hio) Hpre Hty Hbad.
  destruct (add_rnbo_object_spec patcher dsp_name codebox_code pre midi
              nvoices test num_inputs num_outputs _ _ _ _ w Hv Hio Hpre)
    as (rnbo & w' & H & _).
  unfold add_rnbo_object in *.
  peel H as plan w0 E0. rewrite (bind_ok _ _ _ _ _ E0).
  destruct plan as [[[i1 o1] ii1] oi1].
  peel H as rnbo0 w1 E1. rewrite (bind_ok _ _ _ _ _ E1).
  peel H as sub_patch w2 E2. rewrite (bind_ok _ _ _ _ _ E2).
  peel H as codebox w3 E3. rewrite (bind_ok _ _ _ _ _ E3).
  peel H as u4 w4 E4. rewrite (bind_ok _ _ _ _ _ E4).
  peel H as u5 w5 E5. rewrite (bind_ok _ _ _ _ _ E5).
  peel H as u6 w6 E6. rewrite (bind_ok _ _ _ _ _ E6).
  peel H as loc w7 E7.
  unfold bind at 1. rewrite for_each_acc_app.
  rewrite (bind_ok _ _ _ _ _ E7).
  cbn [for_each_acc]. unfold bind at 1.
  rewrite (item_loop_body_raises _ _ _ _ _ _ _ _ _ _ _ Hty Hbad).
  reflexivity.
Qed.

(** X13.  The construction of a unit in a patcher of the store, for
    parameters whose [init], [min], [max] and [step] are numbers.  It
    returns exactly when the port planner returns for its channel counts
    and [(max - min) / step] can be computed for every slider and numeric
    entry.  It raises [UnboundLocalError] exactly when MIDI is enabled
    and the unit has no input and no output, whatever the parameters;
    [ZeroDivisionError] or [OverflowError] exactly when the port planner
    returns and the division raises for some slider or numeric entry, and
    then what the division of the first such parameter raises; and
    nothing else. *)
Theorem add_rnbo_object_returns_iff
    (patcher : nat) (dsp_name codebox_code : string) (items : list Item)
    (midi : bool) (nvoices : Z) (test : bool) (num_inputs num_outputs : Z)
    (w : World) :
  (patcher < num_patchers w)%nat ->
  let run := add_rnbo_object patcher dsp_name codebox_code items midi
               nvoices test num_inputs num_outputs w in
  let planned :=
    exists plan, generate_io_info midi num_inputs num_outputs = Ok plan in
  let wired := Forall (fun it => item_wiring_ok it = true) items in
  ((exists rnbo w', run = Ok (rnbo, w')) <-> planned /\ wired)
  /\ (run = Raise (UnboundLocalError "i") <->
      midi = true /\ num_inputs <= 0 /\ num_outputs <= 0)
  /\ (run = Raise ZeroDivisionError \/ run = Raise OverflowError <->
      planned /\ ~ wired)
  /\ (forall pre bad post e,
        planned ->
        items = pre ++ bad :: post ->
        Forall (fun it => item_wiring_ok it = true) pre ->
        str_in (item_type bad) ["button"; "checkbox"] = false ->
        steps_value (item_max bad) (item_min bad) (item_step bad) = Raise e ->
        run = Raise e)
  /\ (forall e, run = Raise e ->
        e = UnboundLocalError "i" \/ e = ZeroDivisionError
        \/ e = OverflowError).
Proof.
  intros Hv run planned wired.
  assert (Hplan : planned
                  \/ (midi = true /\ num_inputs <= 0 /\ num_outputs <= 0
                      /\ run = Raise (UnboundLocalError "i"))).
  { destruct midi.
    - assert (Hc : 0 < num_inputs \/ 0 < num_outputs
                   \/ (num_inputs <= 0 /\ num_outputs <= 0)) by lia.
      destruct Hc as [Hc|[Hc|[H1 H2]]].
      + left. destruct (generate_io_info_midi num_inputs num_outputs)
          as (ii & oi & E); [left; exact Hc|]. eexists. exact E.
      + left. destruct (generate_io_info_midi num_inputs num_outputs)
          as (ii & oi & E); [right; exact Hc|]. eexists. exact E.
      + right. repeat split; try assumption.
        unfold run, add_rnbo_object.
        rewrite (generate_io_info_midi_raises _ _ H1 H2). reflexivity.
    - left. destruct (generate_io_info_no_midi num_inputs num_outputs)
        as (ii & oi & E & _). eexists. exact E. }
  assert (Hfirst : forall pre bad post e,
            planned ->
            items = pre ++ bad :: post ->
            Forall (fun it => item_wiring_ok it = true) pre ->
            str_in (item_type bad) ["button"; "checkbox"] = false ->
            steps_value (item_max bad) (item_min bad) (item_step bad)
              = Raise e ->
            run = Raise e).
  { intros pre bad post e Hp Hitems Hpre Hty Hbad.
    unfold run. rewrite Hitems.
    apply add_rnbo_object_raises; assumption. }
  assert (Hcases :
    (planned /\ wired /\ exists rnbo w', run = Ok (rnbo, w'))
    \/ (planned /\ ~ wired
        /\ (run = Raise ZeroDivisionError \/ run = Raise OverflowError))
    \/ (~ planned /\ midi = true /\ num_inputs <= 0 /\ num_outputs <= 0
        /\ run = Raise (UnboundLocalError "i"))).
  { destruct Hplan as [Hp|(Hm & H1 & H2 & Hr)].
    - destruct (first_bad_item items)
        as [Hok|(pre & bad & post & Hitems & Hpre & Hbad)].
      + left. split; [exact Hp|]. split; [exact Hok|].
        destruct Hp as ([[[inlets outlets] ii] oi] & Hio).
        destruct (add_rnbo_object_spec patcher dsp_name codebox_code items
                    midi nvoices test num_inputs num_outputs _ _ _ _ w Hv
                    Hio Hok) as (rnbo & w' & E & _).
        exists rnbo, w'. exact E.
      + right. left. split; [exact Hp|]. split.
        * unfold wired. rewrite Hitems. intros Hall.
          apply Forall_app in Hall. destruct Hall as [_ Hall].
          inversion Hall; congruence.
        * destruct (item_wiring_ok_false _ Hbad) as (Hty & e & He).
          rewrite (Hfirst pre bad post e Hp Hitems Hpre Hty He).
          destruct (steps_value_errors _ _ _ _ He) as [-> | ->]; auto.
    - right. right. split; [|auto].
      intros (plan & Hio). subst midi.
      rewrite (generate_io_info_midi_raises _ _ H1 H2) in Hio.
      discriminate. }
  destruct Hcases as [(Hp & Hw & rnbo & w' & E)
                     |[(Hp & Hw & E)|(Hp & Hm & H1 & H2 & E)]].
  - split; [split; [auto|intros _; exists rnbo, w'; exact E]|].
    split; [split; [rewrite E; discriminate|]|].
    { intros (-> & Hi & Ho). exfalso. destruct Hp as (plan & Hio).
      rewrite (generate_io_info_midi_raises _ _ Hi Ho) in Hio.
      discriminate. }
    split.
    { split; [rewrite E; intros [H|H]; discriminate
             |intros [_ Hn]; contradiction]. }
    split; [exact Hfirst|].
    intros e He. rewrite E in He. discriminate.
  - split.
    { split; [intros (rnbo & w' & E');
              destruct E as [E|E]; rewrite E in E'; discriminate|].
      intros [_ Hw']. contradiction. }
    split.
    { split; [destruct E as [E|E]; rewrite E; discriminate|].
      intros (-> & Hi & Ho). exfalso. destruct Hp as (plan & Hio).
      rewrite (generate_io_info_midi_raises _ _ Hi Ho) in Hio.
      discriminate. }
    split; [split; auto|].
    split; [exact Hfirst|].
    intros e He. destruct E as [E|E]; rewrite E in He;
      injection He as <-; auto.
  - split.
    { split; [intros (rnbo & w' & E'); rewrite E in E'; discriminate|].
      intros [Hp' _]. contradiction. }
    split; [split; auto|].
    split.
    { split; [rewrite E; intros [H|H]; discriminate
             |intros [Hp' _]; contradiction]. }
    split; [exact Hfirst|].
    intros e He. rewrite E in He. injection He as <-. left. reflexivity.
Qed.

Lemma add_rnbo_object_returns_iff_witness :
  add_rnbo_object 0 "synth" "code" [] true 4 false 0 0 main_only
  = Raise (UnboundLocalError "i").
Proof.
  apply (add_rnbo_object_returns_iff 0 "synth" "code" [] true 4 false 0 0
           main_only).
  - vm_compute. lia.
  - repeat split; lia.
Defined.

(** X14.  The construction of a patch, the writing of its files taken
    to succeed (see [saveas]).  It returns exactly when the DSP unit can
    be built and, if an effect is given, its parameter list is given and
    the effect unit can be built: for each unit the port planner returns
    for the MIDI flag of the patch, and [(max - min) / step] can be
    computed for every slider and numeric entry. *)
Theorem create_rnbo_patch_returns_iff
    (dsp_name maxpat_path export_path cpp_filename dsp_codebox_code : string)
    (dsp_items_info_list : list Item) (dsp_num_inputs dsp_num_outputs : Z)
    (midi : bool) (nvoices : Z)
    (effect_codebox_code : option string)
    (effect_items_info_list : option (list Item))
    (effect_num_inputs effect_num_outputs : Z)
    (compile test subpatcher_flag : bool) (w : World) :
  (exists w',
     create_rnbo_patch dsp_name maxpat_path export_path cpp_filename
       dsp_codebox_code dsp_items_info_list dsp_num_inputs dsp_num_outputs
       midi nvoices effect_codebox_code effect_items_info_list
       effect_num_inputs effect_num_outputs compile test subpatcher_flag w
     = Ok (tt, w'))
  <-> unit_inputs_ok midi dsp_num_inputs dsp_num_outputs dsp_items_info_list
      /\ match truthy_str effect_codebox_code with
         | Some _ =>
             exists effect_items,
               effect_items_info_list = Some effect_items
               /\ unit_inputs_ok midi effect_num_inputs effect_num_outputs
                    effect_items
         | None => True
         end.
Proof.
  split.
  - intros (w' & H). unfold create_rnbo_patch in H.
    peel H as patcher w1 E1. peel H as comment_box w2 E2.
    peel H as dsp_rnbo w3 E3. apply add_rnbo_object_returns in E3.
    split; [exact E3|].
    peel H as midi_io w4 E4. peel H as u5 w5 E5.
    peel H as effect w6 E6.
    destruct (truthy_str effect_codebox_code) as [code|]; [|exact I].
    peel E6 as l wa Ea.
    destruct effect_items_info_list as [l'|];
      [|peel Ea as plan wp Ep; unfold raise in Ea; discriminate Ea].
    injection Ea as <- <-.
    peel E6 as effect_rnbo wb Eb. apply add_rnbo_object_returns in Eb.
    exists l'. split; [reflexivity|exact Eb].
  - intros [Hd Hfx].
    destruct (truthy_str effect_codebox_code) as [code|] eqn:Hcode.
    + destruct Hfx as (l & Hl & Hok).
      destruct (create_rnbo_patch_spec dsp_name maxpat_path export_path
                  cpp_filename dsp_codebox_code dsp_items_info_list
                  dsp_num_inputs dsp_num_outputs midi nvoices
                  effect_codebox_code effect_items_info_list l
                  effect_num_inputs effect_num_outputs compile test
                  subpatcher_flag w Hd) as (w' & E & _).
      { rewrite Hcode. split; assumption. }
      exists w'. exact E.
    + destruct (create_rnbo_patch_spec dsp_name maxpat_path export_path
                  cpp_filename dsp_codebox_code dsp_items_info_list
                  dsp_num_inputs dsp_num_outputs midi nvoices
                  effect_codebox_code effect_items_info_list []
                  effect_num_inputs effect_num_outputs compile test
                  subpatcher_flag w Hd) as (w' & E & _).
      { rewrite Hcode. exact I. }
      exists w'. exact E.
Qed.

(** * The audio ports of a unit *)

Lemma only_adds_refl (w : World) : only_adds w w.
Proof. intros p. split; exists []; rewrite app_nil_r; reflexivity. Qed.

Lemma only_adds_trans (w1 w2 w3 : World) :
  only_adds w1 w2 -> only_adds w2 w3 -> only_adds w1 w3.
Proof.
  intros H1 H2 p.
  destruct (H1 p) as [(b1 & Hb1) (l1 & Hl1)].
  destruct (H2 p) as [(b2 & Hb2) (l2 & Hl2)].
  split; [exists (b1 ++ b2); rewrite Hb2, Hb1, app_assoc; reflexivity|].
  exists (l1 ++ l2). rewrite Hl2, Hl1, app_assoc. reflexivity.
Qed.

Lemma only_adds_box (p : nat) (b : Box) (w : World) :
  only_adds w (push_box p b w).
Proof.
  intros q. rewrite boxes_push_box, lines_push_box. split.
  - destruct (Nat.eqb q p); [exists [b]|exists []; rewrite app_nil_r];
      reflexivity.
  - exists []. rewrite app_nil_r. reflexivity.
Qed.

Lemma only_adds_line (p : nat) (l : Patchline) (w : World) :
  only_adds w (push_line p l w).
Proof.
  intros q. rewrite boxes_push_line, lines_push_line. split.
  - exists []. rewrite app_nil_r. reflexivity.
  - destruct (Nat.eqb q p); [exists [l]|exists []; rewrite app_nil_r];
      reflexivity.
Qed.

Lemma only_adds_alloc (path : option string) (w : World) :
  only_adds w (alloc_patcher path w).
Proof.
  intros q. rewrite boxes_alloc, lines_alloc.
  split; exists []; rewrite app_nil_r; reflexivity.
Qed.

#[local] Instance only_adds_frame : Frame only_adds := {|
  frame_ok := fun _ => True;
  frame_refl := only_adds_refl;
  frame_trans := only_adds_trans;
  frame_box := fun p b w _ => only_adds_box p b w;
  frame_line := fun p l w _ => only_adds_line p l w;
  frame_alloc := only_adds_alloc;
  frame_fresh := fun w w' H => H I
|}.

#[local] Instance only_adds_log : LogFrame only_adds :=
  fun msg w => only_adds_refl w.

#[local] Instance only_adds_save : SaveFrame only_adds :=
  fun p f w => only_adds_refl w.

Lemma port_wired_mono (sub_patch : nat) (text : string)
    (mk_line : Box -> Patchline) (w w' : World) :
  only_adds w w' ->
  port_wired sub_patch text mk_line w -> port_wired sub_patch text mk_line w'.
Proof.
  intros Ha (b & Hb & Ht & Hl).
  destruct (Ha sub_patch) as [(bs & Ebs) (ls & Els)].
  exists b. rewrite Ebs, Els.
  split; [apply in_or_app; left; exact Hb|].
  split; [exact Ht|apply in_or_app; left; exact Hl].
Qed.

(** A loop that adds one text box and one line per channel. *)
Lemma port_loop_wired (sub_patch : nat) (text : Z -> string)
    (mk_line : Z -> Box -> Patchline) (body : Z -> M unit) (l : list Z)
    (w w' : World) :
  (forall i w0,
     body i w0 =
       (let b := mkBox (next_id sub_patch w0) Textbox (text i) None None
                   NoConfig in
        Ok (tt, push_line sub_patch (mk_line i b) (push_box sub_patch b w0)))) ->
  for_each l body w = Ok (tt, w') ->
  only_adds w w'
  /\ forall i, In i l -> port_wired sub_patch (text i) (mk_line i) w'.
Proof.
  intros Hbody. revert w. induction l as [|k l IH]; intros w H.
  - injection H as <-. split; [apply only_adds_refl|intros i []].
  - cbn [for_each] in H. peel H as u w1 E. rewrite Hbody in E.
    cbn zeta in E. injection E as E. subst w1.
    destruct (IH _ H) as [Ha Hw].
    split.
    { refine (only_adds_trans _ _ _ _ Ha).
      eapply only_adds_trans; [apply only_adds_box|apply only_adds_line]. }
    intros i [<-|Hi]; [|apply Hw; exact Hi].
    eapply port_wired_mono; [exact Ha|].
    exists (mkBox (next_id sub_patch w) Textbox (text k) None None NoConfig).
    split; [|split; [split; reflexivity|]].
    + rewrite boxes_push_line, boxes_push_box_same.
      apply in_or_app. right. left. reflexivity.
    + rewrite lines_push_line_same.
      apply in_or_app. right. left. reflexivity.
Qed.

(** X15.  The audio ports of a unit that can be built.  Its sub-patch
    starts with the codebox; for every input channel [i], counted from
    0, the sub-patch has an object [in~ i+1] with a line from it to
    inlet [i] of the codebox, and for every output channel an object
    [out~ i+1] with a line to it from outlet [i] of the codebox. *)
Theorem add_rnbo_object_audio_ports
    (patcher : nat) (dsp_name codebox_code : string) (items : list Item)
    (midi : bool) (nvoices : Z) (test : bool) (num_inputs num_outputs : Z)
    (w : World) :
  (patcher < num_patchers w)%nat ->
  unit_inputs_ok midi num_inputs num_outputs items ->
  exists rnbo w',
    add_rnbo_object patcher dsp_name codebox_code items midi nvoices test
      num_inputs num_outputs w = Ok (rnbo, w')
    /\ let sub_patch := num_patchers w in
       let codebox := mkBox 1 CodeboxTilde codebox_code None None NoConfig in
       nth_error (boxes_at sub_patch w') 0 = Some codebox
       /\ (forall i, 0 <= i < num_inputs ->
             port_wired sub_patch ("in~ " ++ str_int (i + 1))
               (fun b => line_of b 0 codebox i) w')
       /\ (forall i, 0 <= i < num_outputs ->
             port_wired sub_patch ("out~ " ++ str_int (i + 1))
               (fun b => line_of codebox i b 0) w').
Proof.
  intros Hv ([[[[inlets outlets] ii] oi] Hio] & Hok).
  destruct (add_rnbo_object_spec patcher dsp_name codebox_code items midi
              nvoices test num_inputs num_outputs _ _ _ _ w Hv Hio Hok)
    as (rnbo & w' & H & _ & _ & _ & _ & (rest & Hfirst) & _).
  exists rnbo, w'. split; [exact H|]. cbn zeta.
  split; [rewrite Hfirst; reflexivity|].
  assert (Hsp : Nat.eqb (num_patchers w) patcher = false)
    by (apply Nat.eqb_neq; lia).
  unfold add_rnbo_object in H. rewrite Hio in H.
  rewrite bind_lift_ok in H. cbn beta iota in H.
  unfold add_rnbo in H. rewrite bind_assoc, bind_new_patcher in H.
  cbn beta in H.
  erewrite bind_add_box in H by reflexivity.
  unfold subpatcher at 1 in H. cbn [box_config] in H. rewrite bind_ret in H.
  unfold add_codebox_tilde in H.
  erewrite bind_add_box in H by norm_id.
  peel H as u4 w4 E4. peel H as [] w5 E5. peel H as [] w6 E6.
  set (codebox := mkBox 1 CodeboxTilde codebox_code None None NoConfig) in *.
  assert (P5 := port_loop_wired (num_patchers w)
                  (fun i => ("in~ " ++ str_int (i + 1))%string)
                  (fun i b => line_of b 0 codebox i) _ _ _ _
                  (fun _ _ => eq_refl) E5).
  assert (P6 := port_loop_wired (num_patchers w)
                  (fun i => ("out~ " ++ str_int (i + 1))%string)
                  (fun i b => line_of codebox i b 0) _ _ _ _
                  (fun _ _ => eq_refl) E6).
  clear E5 E6.
  destruct P5 as [A5 W5]. destruct P6 as [A6 W6].
  step_keeps only_adds H.
  split.
  - intros i Hi. eapply port_wired_mono; [exact H|].
    eapply port_wired_mono; [exact A6|].
    apply W5. apply in_py_range. lia.
  - intros i Hi. eapply port_wired_mono; [exact H|].
    apply W6. apply in_py_range. lia.
Qed.

Lemma add_rnbo_object_audio_ports_witness :
  exists rnbo w',
    add_rnbo_object 0 "synth" "code" voice_items true 4 false 1 2 main_only
    = Ok (rnbo, w').
Proof.
  destruct (add_rnbo_object_audio_ports 0 "synth" "code" voice_items true 4
              false 1 2 main_only) as (rnbo & w' & E & _).
  - vm_compute. lia.
  - split; [eexists; vm_compute; reflexivity|exact voice_items_ok].
  - exists rnbo, w'. exact E.
Defined.

(** * Sample runs *)

Lemma sample_patch_returns :
  exists w',
    create_rnbo_patch "synth" "out/synth.maxpat" "export" "synth.cpp"
      "dsp code" sample_items 0 2 true 4 (Some "fx code")
      (Some [sample_slider "mix" ["bar"]]) 2 2 true false true main_only
    = Ok (tt, w').
Proof. eexists. vm_compute. reflexivity. Qed.

Lemma sample_conversion_returns :
  exists w',
    load_files_create_rnbo_patch "synth" "dsp code" sample_json None None
      "out/synth.maxpat" "export" "synth.cpp" false None false false false
      main_only
    = Ok (tt, w').
Proof. eexists. vm_compute. reflexivity. Qed.

Lemma load_files_leaves_existing_patchers_witness :
  exists w',
    sample_conversion = Ok (tt, w')
    /\ boxes_at 0 w' = boxes_at 0 main_only
    /\ path_at 0 w' = Some "synth.maxpat".
Proof.
  destruct sample_conversion_returns as (w' & E). exists w'.
  split; [exact E|].
  destruct (load_files_leaves_existing_patchers "synth" "dsp code"
              sample_json None None "out/synth.maxpat" "export" "synth.cpp"
              false None false false false main_only w' E) as (_ & Hp & _).
  destruct (Hp 0%nat) as (Hb & _ & Hpath); [vm_compute; lia|].
  split; [exact Hb|]. rewrite Hpath. vm_compute. reflexivity.
Defined.

Lemma create_rnbo_patch_logs_unsupported_bindings_witness :
  exists w',
    sample_patch = Ok (tt, w')
    /\ log w' = [unsupported_message "foo"; unsupported_message "bar"].
Proof.
  destruct sample_patch_returns as (w' & E). exists w'.
  split; [exact E|].
  destruct (create_rnbo_patch_logs_unsupported_bindings "synth"
              "out/synth.maxpat" "export" "synth.cpp" "dsp code" sample_items
              0 2 true 4 (Some "fx code") (Some [sample_slider "mix" ["bar"]])
              2 2 true false true main_only w' E) as (Hlog & _).
  rewrite Hlog. vm_compute. reflexivity.
Defined.

Lemma create_rnbo_patch_saved_files_witness :
  exists w',
    sample_patch = Ok (tt, w')
    /\ map fst (saved w') =
         ["out/synth.rnbopat"; "out/synth_effect.rnbopat";
          "out/synth.maxpat"].
Proof.
  destruct sample_patch_returns as (w' & E). exists w'.
  split; [exact E|].
  destruct (create_rnbo_patch_saved_files "synth"
              "out/synth.maxpat" "export" "synth.cpp" "dsp code" sample_items
              0 2 true 4 (Some "fx code") (Some [sample_slider "mix" ["bar"]])
              2 2 true false true main_only w' E) as (Hs & _).
  rewrite Hs. vm_compute. reflexivity.
Defined.

(** * Reading the JSON description *)

Local Open Scope json_scope.

(** Induction on JSON values, through the arrays and the objects. *)
Lemma Json_nested_ind (P : Json -> Prop) :
  P JNull ->
  (forall b, P (JBool b)) ->
  (forall n, P (JNum n)) ->
  (forall s, P (JStr s)) ->
  (forall l, Forall P l -> P (JArr l)) ->
  (forall d, Forall (fun kv => P (snd kv)) d -> P (JObj d)) ->
  forall j, P j.
Proof.
  intros Hnull Hbool Hnum Hstr Harr Hobj.
  fix IH 1. intros [| b | n | s | l | d].
  - exact Hnull.
  - apply Hbool.
  - apply Hnum.
  - apply Hstr.
  - apply Harr. induction l as [|x l IHl]; constructor; [apply IH|exact IHl].
  - apply Hobj. induction d as [|[k v] d IHd]; constructor;
      [apply IH|exact IHd].
Qed.

(** ** The options of the global meta section *)

Lemma take_digits_digits (s : string) :
  forallb is_digit (list_ascii_of_string (fst (take_digits s))) = true.
Proof.
  induction s as [|c s IH]; [reflexivity|].
  cbn [take_digits]. destruct (is_digit c) eqn:Hc; [|reflexivity].
  destruct (take_digits s) as [d r]. cbn [fst list_ascii_of_string forallb] in *.
  rewrite Hc, IH. reflexivity.
Qed.

Lemma match_nvoices_digits (s d : string) :
  match_nvoices s = Some d ->
  forallb is_digit (list_ascii_of_string d) = true.
Proof.
  unfold match_nvoices. destruct (prefix "[nvoices:" s); [|discriminate].
  pose proof (take_digits_digits (skip 9 s)) as Hd.
  destruct (take_digits (skip 9 s)) as [[|c d'] r]; [discriminate|].
  destruct r as [|c' r]; [discriminate|].
  destruct (Ascii.eqb_spec c' "]") as [->|Hne].
  - intros H. injection H as <-. exact Hd.
  - intros H. exfalso.
    destruct c' as [[] [] [] [] [] [] [] []]; try discriminate.
    apply Hne. reflexivity.
Qed.

Lemma search_nvoices_digits (s d : string) :
  search_nvoices s = Some d ->
  forallb is_digit (list_ascii_of_string d) = true.
Proof.
  induction s as [|c s IH]; cbn [search_nvoices].
  - destruct (match_nvoices "") eqn:E; [|discriminate].
    intros H. injection H as <-. eapply match_nvoices_digits. exact E.
  - destruct (match_nvoices (String c s)) eqn:E; [|exact IH].
    intros H. injection H as <-. eapply match_nvoices_digits. exact E.
Qed.

Lemma py_int_acc_nonneg (l : list ascii) (acc : Z) :
  0 <= acc ->
  forallb is_digit l = true ->
  0 <= fold_left (fun a c => 10 * a + (Z.of_nat (nat_of_ascii c) - 48)) l acc.
Proof.
  revert acc. induction l as [|c l IH]; intros acc Hacc Hl; [exact Hacc|].
  cbn [forallb fold_left] in *. apply andb_prop in Hl. destruct Hl as [Hc Hl].
  apply IH; [|exact Hl].
  unfold is_digit in Hc. apply andb_prop in Hc. destruct Hc as [H1 _].
  apply Nat.leb_le in H1. lia.
Qed.

Lemma meta_loop_nonneg (l : list Json) (m : option bool) (n : Z) :
  meta_loop l = Returns (m, Some n) -> 0 <= n.
Proof.
  induction l as [|x l IH]; cbn [meta_loop]; [discriminate|].
  destruct (py_in "options" x) as [[|]|e]; cbn [outcome_bind];
    [|exact IH|discriminate].
  destruct (py_getitem x "options") as [o|e]; cbn [outcome_bind];
    [|discriminate].
  destruct (py_in "[midi:on]" o) as [b|e]; cbn [outcome_bind];
    [|discriminate].
  destruct o as [| | |s| |]; cbn [re_search_nvoices outcome_bind];
    try discriminate.
  destruct (search_nvoices s) as [d|] eqn:Hd; [|discriminate].
  intros H. injection H as _ <-.
  apply py_int_acc_nonneg; [lia|].
  eapply search_nvoices_digits. exact Hd.
Qed.

Lemma meta_loop_skips (pre : list Json) (rest : list Json) :
  Forall no_options pre -> meta_loop (pre ++ rest) = meta_loop rest.
Proof.
  induction 1 as [|x pre (d & -> & Hd) _ IH]; [reflexivity|].
  cbn [app meta_loop py_in outcome_bind]. rewrite Hd. exact IH.
Qed.

(** X16.  The options are those of the first item of the global meta
    section that has any: after items without options, the state of MIDI
    is whether its options contain [[midi:on]], and the voice count is
    the number of the leftmost [[nvoices:N]] they contain, if any; the
    items that follow are not looked at.  A meta section without options
    gives no state and no count. *)
Theorem get_midi_and_nvoices_first_options
    (fields : list (string * Json)) (pre : list Json)
    (d : list (string * Json)) (options : string) (rest : list Json) :
  dict_get "meta" fields = Some (JArr (pre ++ JObj d :: rest)) ->
  Forall no_options pre ->
  dict_get "options" d = Some (JStr options) ->
  get_midi_and_nvoices (JObj fields)
  = Returns (Some (contains "[midi:on]" options),
             option_map py_int (search_nvoices options))
  /\ forall fields',
       dict_get "meta" fields' = Some (JArr pre) ->
       get_midi_and_nvoices (JObj fields') = Returns (None, None).
Proof.
  intros Hmeta Hpre Hd. split.
  - unfold get_midi_and_nvoices.
    cbn [py_getitem]. rewrite Hmeta. cbn [outcome_bind py_iter].
    rewrite (meta_loop_skips _ _ Hpre).
    cbn [meta_loop py_in outcome_bind]. unfold has_key. rewrite Hd.
    cbn [py_getitem]. rewrite Hd.
    cbn [outcome_bind py_in re_search_nvoices].
    destruct (search_nvoices options); reflexivity.
  - intros fields' Hmeta'. unfold get_midi_and_nvoices.
    cbn [py_getitem]. rewrite Hmeta'. cbn [outcome_bind py_iter].
    rewrite <- (app_nil_r pre), (meta_loop_skips _ _ Hpre). reflexivity.
Qed.

Lemma get_midi_and_nvoices_first_options_witness :
  get_midi_and_nvoices
    (JObj [("name", JStr "synth");
           ("meta",
            JArr [JObj [("author", JStr "Grame")];
                  JObj [("options", JStr "[midi:on][nvoices:12]")];
                  JObj [("options", JStr "[nvoices:3]")]])])
  = Returns (Some true, Some 12).
Proof.
  apply (get_midi_and_nvoices_first_options
           [("name", JStr "synth");
            ("meta",
             JArr [JObj [("author", JStr "Grame")];
                   JObj [("options", JStr "[midi:on][nvoices:12]")];
                   JObj [("options", JStr "[nvoices:3]")]])]
           [JObj [("author", JStr "Grame")]]
           [("options", JStr "[midi:on][nvoices:12]")]
           "[midi:on][nvoices:12]"
           [JObj [("options", JStr "[nvoices:3]")]]).
  - reflexivity.
  - constructor; [|constructor]. eexists. split; reflexivity.
  - reflexivity.
Defined.

Lemma meta_loop_errors (l : list Json) (e : JsonError) :
  meta_loop l = Raises e -> e = JTypeError.
Proof.
  induction l as [|x l IH]; cbn [meta_loop]; [discriminate|].
  destruct x as [| | |s| l0 |d]; cbn [py_in outcome_bind];
    try (intros H; injection H as <-; reflexivity).
  - destruct (contains "options" s); [|exact IH].
    cbn [py_getitem outcome_bind]. intros H. injection H as <-. reflexivity.
  - destruct (existsb (is_str "options") l0); [|exact IH].
    cbn [py_getitem outcome_bind]. intros H. injection H as <-. reflexivity.
  - unfold has_key. cbn [py_getitem].
    destruct (dict_get "options" d) as [o|]; [|exact IH].
    cbn [outcome_bind].
    destruct o; cbn [py_in re_search_nvoices outcome_bind];
      intros H; try discriminate; injection H as <-; reflexivity.
Qed.

Lemma get_midi_and_nvoices_nonneg (json_data : Json)
    (midi_state : option bool) (n : Z) :
  get_midi_and_nvoices json_data = Returns (midi_state, Some n) -> 0 <= n.
Proof.
  unfold get_midi_and_nvoices.
  destruct (py_getitem json_data "meta") as [v|]; cbn [outcome_bind];
    [|discriminate].
  destruct (py_iter v) as [l|]; cbn [outcome_bind]; [|discriminate].
  apply meta_loop_nonneg.
Qed.

(** X17.  The errors of [get_midi_and_nvoices]: on a dict it raises
    [KeyError] exactly when the key [meta] is missing; on any JSON value
    it raises nothing but that [KeyError] and [TypeError]; and a voice
    count that it returns is never negative. *)
Theorem get_midi_and_nvoices_errors (json_data : Json) :
  (forall fields,
     json_data = JObj fields ->
     (get_midi_and_nvoices json_data = Raises (JKeyError "meta")
      <-> has_key "meta" fields = false))
  /\ (forall e,
        get_midi_and_nvoices json_data = Raises e ->
        e = JKeyError "meta" \/ e = JTypeError)
  /\ (forall midi_state n,
        get_midi_and_nvoices json_data = Returns (midi_state, Some n) ->
        0 <= n).
Proof.
  assert (Hrun :
    forall v,
      (meta_items <- py_iter v ;; meta_loop meta_items) = Raises (JKeyError "meta")
      -> False).
  { intros v H.
    destruct (py_iter v) as [l|e] eqn:Hv; cbn [outcome_bind] in H.
    - apply meta_loop_errors in H. discriminate.
    - injection H as ->. destruct v; discriminate. }
  split; [|split].
  - intros fields ->. unfold get_midi_and_nvoices, has_key.
    cbn [py_getitem].
    destruct (dict_get "meta" fields) as [v|]; cbn [outcome_bind].
    + split; [intros H; exfalso; exact (Hrun _ H)|discriminate].
    + split; reflexivity.
  - intros e. unfold get_midi_and_nvoices.
    destruct json_data as [| | | | |fields]; cbn [py_getitem outcome_bind];
      try (intros H; injection H as <-; right; reflexivity).
    destruct (dict_get "meta" fields) as [v|]; cbn [outcome_bind];
      [|intros H; injection H as <-; left; reflexivity].
    destruct (py_iter v) as [l|e'] eqn:Hv; cbn [outcome_bind].
    + intros H. right. eapply meta_loop_errors. exact H.
    + intros H. injection H as <-. right.
      destruct v; try discriminate; cbn [py_iter] in Hv;
        injection Hv as <-; reflexivity.
  - intros midi_state n. apply get_midi_and_nvoices_nonneg.
Qed.

Lemma take_digits_app (d post : string) :
  all_digits d ->
  take_digits (d ++ String "]" post) = (d, String "]" post).
Proof.
  unfold all_digits. induction d as [|c d IH]; intros H; [reflexivity|].
  cbn [list_ascii_of_string forallb] in H. apply andb_prop in H.
  destruct H as [Hc Hd].
  cbn [append take_digits]. rewrite Hc, (IH Hd). reflexivity.
Qed.

Lemma match_nvoices_other (c : ascii) (s : string) :
  c <> "["%char -> match_nvoices (String c s) = None.
Proof.
  intros Hc. unfold match_nvoices. cbn [prefix].
  destruct (ascii_dec "[" c) as [E|_]; [|reflexivity].
  exfalso. apply Hc. symmetry. exact E.
Qed.

Lemma py_int_snoc (d : string) (c : ascii) :
  py_int (d ++ String c "")
  = 10 * py_int d + (Z.of_nat (nat_of_ascii c) - 48).
Proof.
  unfold py_int. rewrite list_ascii_of_string_app, fold_left_app.
  reflexivity.
Qed.

(** X18.  The voice count option.  In options where no opening bracket
    comes before it, [[nvoices:N]] with a non-empty string of digits [N]
    is found, whatever follows, and the count read is the value of [N]
    in base ten, leading zeros allowed: not negative, and ten times the
    value of the digits before the last, plus the last. *)
Theorem search_nvoices_reads_option (pre d post : string) :
  no_bracket pre -> d <> "" -> all_digits d ->
  search_nvoices (pre ++ "[nvoices:" ++ d ++ "]" ++ post) = Some d
  /\ 0 <= py_int d
  /\ (forall d' c, d = (d' ++ String c "")%string ->
        py_int d = 10 * py_int d' + (Z.of_nat (nat_of_ascii c) - 48)).
Proof.
  intros Hpre Hne Hd. split; [|split].
  - unfold no_bracket in Hpre.
    induction pre as [|c pre IH].
    + change (("" ++ "[nvoices:" ++ d ++ "]" ++ post)%string)
        with (("[nvoices:" ++ (d ++ String "]" post))%string).
      assert (Hm : match_nvoices ("[nvoices:" ++ (d ++ String "]" post))
                   = Some d).
      { unfold match_nvoices. rewrite prefix_app_r.
        change (skip 9 ("[nvoices:" ++ (d ++ String "]" post)))
          with (d ++ String "]" post)%string.
        rewrite (take_digits_app _ _ Hd).
        destruct d as [|c d]; [contradiction|].
        reflexivity. }
      destruct ("[nvoices:" ++ (d ++ String "]" post))%string;
        cbn [search_nvoices]; rewrite Hm; reflexivity.
    + cbn [append search_nvoices list_ascii_of_string] in *.
      rewrite match_nvoices_other
        by (intros ->; apply Hpre; left; reflexivity).
      apply IH. intros Hin. apply Hpre. right. exact Hin.
  - apply py_int_acc_nonneg; [lia|exact Hd].
  - intros d' c ->. apply py_int_snoc.
Qed.

Lemma search_nvoices_reads_option_witness :
  search_nvoices "(midi:on) [nvoices:016] [nvoices:2]" = Some "016"
  /\ py_int "016" = 16.
Proof.
  destruct (search_nvoices_reads_option "(midi:on) " "016" " [nvoices:2]")
    as (Hs & _ & _).
  - unfold no_bracket. simpl. intuition discriminate.
  - discriminate.
  - reflexivity.
  - split; [exact Hs|reflexivity].
Defined.

(** X19.  The voice count that the conversion passes on, for options
    read by [get_midi_and_nvoices].  Without effect the selection never
    raises; with both effect files it makes the same choice when a voice
    count is given.  A positive given count is taken as it is; otherwise
    the count of the JSON options is taken, and -1 when there is none or
    when it is 0.  The count passed on is therefore positive or -1, never
    0. *)
Theorem selected_voice_count
    (json_data : Json) (midi_state : option bool) (json_nvoices : option Z)
    (nvoices : option Z) :
  get_midi_and_nvoices json_data = Returns (midi_state, json_nvoices) ->
  exists v,
    no_effect_branch_nvoices nvoices json_nvoices = Ok v
    /\ (0 < v \/ v = -1)
    /\ (forall n, nvoices = Some n ->
          effect_branch_nvoices nvoices json_nvoices = Ok v)
    /\ (forall n, nvoices = Some n -> 0 < n -> v = n)
    /\ ((forall n, nvoices = Some n -> n <= 0) ->
        v = json_voice_count json_nvoices).
Proof.
  intros Hj.
  assert (Hopt : 0 < json_voice_count json_nvoices
                 \/ json_voice_count json_nvoices = -1).
  { unfold json_voice_count. destruct json_nvoices as [k|]; [|right; reflexivity].
    pose proof (get_midi_and_nvoices_nonneg json_data midi_state k Hj)
      as Hk.
    destruct (Z.eqb_spec k 0); [right; reflexivity|left; lia]. }
  unfold no_effect_branch_nvoices, effect_branch_nvoices, gt_zero.
  change (options_nvoices json_nvoices) with (json_voice_count json_nvoices).
  destruct nvoices as [n|].
  - destruct (Z.ltb_spec 0 n) as [Hn|Hn].
    + exists n. split; [reflexivity|]. split; [left; exact Hn|].
      split; [reflexivity|]. split.
      * intros n' H _. injection H as <-. reflexivity.
      * intros H. specialize (H n eq_refl). lia.
    + exists (json_voice_count json_nvoices). split; [reflexivity|].
      split; [exact Hopt|]. split; [reflexivity|]. split.
      * intros n' H Hpos. injection H as <-. lia.
      * reflexivity.
  - exists (json_voice_count json_nvoices). split; [reflexivity|].
    split; [exact Hopt|]. split; [discriminate|].
    split; [discriminate|reflexivity].
Qed.

(** ** The items of the user interface *)

Lemma string_app_nil_r (s : string) : (s ++ "")%string = s.
Proof. induction s as [|c s IH]; [reflexivity|]. cbn [append]. rewrite IH. reflexivity. Qed.

Lemma split_from_word (t cur s : string) :
  no_space t -> split_from cur (t ++ s) = split_from (cur ++ t) s.
Proof.
  unfold no_space. revert cur. induction t as [|c t IH]; intros cur H.
  - cbn [append]. rewrite string_app_nil_r. reflexivity.
  - cbn [list_ascii_of_string forallb] in H. apply andb_prop in H.
    destruct H as [Hc Ht]. apply Bool.negb_true_iff in Hc.
    cbn [append split_from]. rewrite Hc, (IH _ Ht).
    f_equal. rewrite string_app_assoc. reflexivity.
Qed.

Lemma no_space_app (a b : string) :
  no_space a -> no_space b -> no_space (a ++ b).
Proof.
  unfold no_space. intros Ha Hb.
  rewrite list_ascii_of_string_app, forallb_app, Ha, Hb. reflexivity.
Qed.

Lemma split_from_clean (s cur : string) :
  no_space cur -> Forall clean_token (split_from cur s).
Proof.
  revert cur. induction s as [|c s IH]; intros cur Hcur.
  - cbn [split_from]. destruct cur as [|x cur]; [constructor|].
    constructor; [|constructor]. split; [discriminate|exact Hcur].
  - cbn [split_from]. destruct (is_space c) eqn:Hc.
    + destruct cur as [|x cur]; [apply IH; reflexivity|].
      constructor; [split; [discriminate|exact Hcur]|].
      apply IH. reflexivity.
    + apply IH. apply no_space_app; [exact Hcur|].
      unfold no_space. cbn [list_ascii_of_string forallb].
      rewrite Hc. reflexivity.
Qed.

(** X20.  White space splitting, as used for the MIDI bindings.  The
    words of a string are not empty and have no white space; a string of
    white space has no word; and splitting the words joined by single
    spaces, the way [add_midi_control] joins the arguments of a binding,
    gives the words back. *)
Theorem py_split_words (s : string) (words : list string) :
  Forall clean_token words ->
  py_split (join " " words) = words
  /\ Forall clean_token (py_split s)
  /\ (forallb is_space (list_ascii_of_string s) = true -> py_split s = []).
Proof.
  intros Hw. split; [|split].
  - unfold py_split.
    induction Hw as [|t l [Hne Ht] Hl IH]; [reflexivity|].
    destruct l as [|t2 l].
    + cbn [join]. rewrite <- (string_app_nil_r t) at 1.
      rewrite split_from_word by exact Ht.
      cbn [append split_from]. destruct t; [contradiction|reflexivity].
    + change (join " " (t :: t2 :: l))
        with (t ++ String " " (join " " (t2 :: l)))%string.
      rewrite split_from_word by exact Ht.
      cbn [append split_from]. change (is_space " ") with true. cbn iota.
      rewrite IH. destruct t; [contradiction|reflexivity].
  - apply split_from_clean. reflexivity.
  - unfold py_split. induction s as [|c s IH]; intros H; [reflexivity|].
    cbn [list_ascii_of_string forallb] in H. apply andb_prop in H.
    destruct H as [Hc Hs]. cbn [split_from]. rewrite Hc. apply IH. exact Hs.
Qed.

Lemma py_split_words_witness :
  py_split "ctrl 7 1" = ["ctrl"; "7"; "1"].
Proof.
  apply (py_split_words "" ["ctrl"; "7"; "1"]).
  repeat constructor; discriminate.
Defined.

(** The items of a group: those of its [items] entry, if any. *)
Lemma extract_from_ui_cons (d : list (string * Json)) (rest : list Json) :
  extract_from_ui (JArr (JObj d :: rest))
  = (own <- own_items d ;;
     sub <- match dict_get "items" d with
            | Some v => extract_from_ui v
            | None => Returns []
            end ;;
     others <- extract_from_ui (JArr rest) ;;
     Returns (own ++ sub ++ others)).
Proof.
  cbn [extract_from_ui].
  destruct (own_items d) as [own|e]; cbn [outcome_bind]; [|reflexivity].
  match goal with
  | |- outcome_bind ?a _ = outcome_bind ?b _ =>
      assert (Hfind : a = b); [|rewrite Hfind; reflexivity]
  end.
  induction d as [|[k v] d IH]; [reflexivity|].
  cbn [dict_get]. destruct (String.eqb "items" k); [reflexivity|exact IH].
Qed.

Lemma extract_from_ui_nil : extract_from_ui (JArr []) = Returns [].
Proof. reflexivity. Qed.

Lemma extract_from_ui_not_dict (x : Json) (rest : list Json) :
  (forall d, x <> JObj d) ->
  extract_from_ui (JArr (x :: rest)) = Raises (JAttributeError "get").
Proof.
  intros H. destruct x; try reflexivity. exfalso. eapply H. reflexivity.
Qed.

Lemma outcome_bind_assoc {A B C : Type} (m : Outcome A)
    (f : A -> Outcome B) (g : B -> Outcome C) :
  outcome_bind (outcome_bind m f) g
  = outcome_bind m (fun a => outcome_bind (f a) g).
Proof. destruct m; reflexivity. Qed.

(** X21.  The items come in the order of the document: the items of a
    list are those of its first item, then those of the rest; the items
    of a dict are the widget it describes, if it is one, followed by the
    items of its [items] entry, if it has one; an element that is not a
    dict raises [AttributeError].  The extraction of two lists one after
    the other is the extraction of their concatenation, errors
    included. *)
Theorem extract_from_ui_document_order (l1 l2 : list Json) :
  extract_from_ui (JArr (l1 ++ l2))
  = (a <- extract_from_ui (JArr l1) ;;
     b <- extract_from_ui (JArr l2) ;;
     Returns (a ++ b))
  /\ (forall d rest,
        extract_from_ui (JArr (JObj d :: rest))
        = (own <- own_items d ;;
           sub <- match dict_get "items" d with
                  | Some v => extract_from_ui v
                  | None => Returns []
                  end ;;
           others <- extract_from_ui (JArr rest) ;;
           Returns (own ++ sub ++ others)))
  /\ (forall x rest,
        (forall d, x <> JObj d) ->
        extract_from_ui (JArr (x :: rest)) = Raises (JAttributeError "get")).
Proof.
  split; [|split; [exact extract_from_ui_cons|exact extract_from_ui_not_dict]].
  induction l1 as [|x l1 IH].
  - rewrite extract_from_ui_nil. cbn [app outcome_bind].
    destruct (extract_from_ui (JArr l2)); reflexivity.
  - cbn [app].
    assert (Hx : (exists d, x = JObj d) \/ forall d, x <> JObj d).
    { destruct x; try (right; discriminate). left. eexists. reflexivity. }
    destruct Hx as [(d & ->)|Hx].
    + rewrite !extract_from_ui_cons, IH.
      destruct (own_items d) as [own|e]; cbn [outcome_bind]; [|reflexivity].
      destruct (match dict_get "items" d with
                | Some v => extract_from_ui v
                | None => Returns []
                end) as [sub|e]; cbn [outcome_bind]; [|reflexivity].
      destruct (extract_from_ui (JArr l1)) as [a|e]; cbn [outcome_bind];
        [|reflexivity].
      destruct (extract_from_ui (JArr l2)) as [b|e]; cbn [outcome_bind];
        [|reflexivity].
      rewrite <- !app_assoc. reflexivity.
    + rewrite !extract_from_ui_not_dict by exact Hx. reflexivity.
Qed.

Lemma midi_info_loop_clean (metas : list Json) (tokens : list string) :
  midi_info_loop metas = Returns tokens -> Forall clean_token tokens.
Proof.
  revert tokens. induction metas as [|x metas IH]; intros tokens H.
  - injection H as <-. constructor.
  - cbn [midi_info_loop] in H.
    destruct (py_in "midi" x) as [b|]; cbn [outcome_bind] in H;
      [|discriminate].
    assert (Hfirst : forall t,
              (if b then v <- py_getitem x "midi" ;; split_value v
               else Returns []) = Returns t ->
              Forall clean_token t).
    { intros t. destruct b.
      - destruct (py_getitem x "midi") as [v|]; cbn [outcome_bind];
          [|discriminate].
        destruct v; cbn [split_value]; try discriminate.
        intros E. injection E as <-. apply split_from_clean. reflexivity.
      - intros E. injection E as <-. constructor. }
    destruct (if b then v <- py_getitem x "midi" ;; split_value v
              else Returns []) as [t|]; cbn [outcome_bind] in H;
      [|discriminate].
    destruct (midi_info_loop metas) as [more|]; cbn [outcome_bind] in H;
      [|discriminate].
    injection H as <-. apply Forall_app. split.
    + apply Hfirst. reflexivity.
    + apply IH. reflexivity.
Qed.

Lemma own_items_normal (d : list (string * Json)) (items : list RawItem) :
  own_items d = Returns items -> Forall item_normal items.
Proof.
  unfold own_items. cbn [py_get outcome_bind].
  destruct (py_iter (get_or "meta" d (JArr []))) as [metas|] eqn:Hm;
    unfold get_or in Hm; rewrite Hm; cbn [outcome_bind]; [|discriminate].
  destruct (midi_info_loop metas) as [tokens|] eqn:Ht; cbn [outcome_bind];
    [|discriminate].
  apply midi_info_loop_clean in Ht.
  fold (is_switch match dict_get "type" d with
                  | Some v => v
                  | None => JStr ""
                  end).
  destruct (is_switch _) eqn:Hsw.
  - intros H. injection H as <-. constructor; [|constructor].
    split; [intros _; repeat split; reflexivity|exact Ht].
  - destruct (has_key "min" d && has_key "max" d && has_key "step" d).
    + cbn [py_getitem].
      destruct (dict_get "min" d); cbn [outcome_bind]; [|discriminate].
      destruct (dict_get "max" d); cbn [outcome_bind]; [|discriminate].
      destruct (dict_get "step" d); cbn [outcome_bind]; [|discriminate].
      intros H. injection H as <-. constructor; [|constructor].
      split; [cbn [raw_type]; rewrite Hsw; discriminate|exact Ht].
    + intros H. injection H as <-. constructor.
Qed.

Lemma dict_get_in {V : Type} (k : string) (d : list (string * V)) (v : V) :
  dict_get k d = Some v -> In (k, v) d.
Proof.
  induction d as [|[k' v'] d IH]; [discriminate|].
  cbn [dict_get]. destruct (String.eqb_spec k k') as [->|_].
  - intros H. injection H as ->. left. reflexivity.
  - intros H. right. apply IH. exact H.
Qed.

Lemma extract_from_ui_normal (ui_items : Json) (items : list RawItem) :
  extract_from_ui ui_items = Returns items -> Forall item_normal items.
Proof.
  revert items.
  assert (Hboth :
    (forall items,
       extract_from_ui ui_items = Returns items -> Forall item_normal items)
    /\ (forall d k v,
          ui_items = JObj d -> dict_get k d = Some v ->
          forall items,
            extract_from_ui v = Returns items -> Forall item_normal items));
    [|exact (proj1 Hboth)].
  induction ui_items as [| b | n | s | l IH | d IH] using Json_nested_ind;
    (split; [|try discriminate]).
  - discriminate.
  - discriminate.
  - discriminate.
  - intros items H. destruct s; [|discriminate].
    injection H as <-. constructor.
  - induction IH as [|x l Hx _ IHl]; intros items H.
    + injection H as <-. constructor.
    + assert (Hd : (exists d, x = JObj d) \/ forall d, x <> JObj d).
      { destruct x; try (right; discriminate). left. eexists. reflexivity. }
      destruct Hd as [(d & ->)|Hd];
        [|rewrite extract_from_ui_not_dict in H by exact Hd; discriminate].
      rewrite extract_from_ui_cons in H.
      destruct (own_items d) as [own|] eqn:Hown; cbn [outcome_bind] in H;
        [|discriminate].
      apply own_items_normal in Hown.
      destruct Hx as [_ Hval].
      destruct (match dict_get "items" d with
                | Some v => extract_from_ui v
                | None => Returns []
                end) as [sub|] eqn:Hsub; cbn [outcome_bind] in H;
        [|discriminate].
      assert (Hsubn : Forall item_normal sub).
      { destruct (dict_get "items" d) as [v|] eqn:Hv.
        - eapply Hval; [reflexivity|exact Hv|exact Hsub].
        - injection Hsub as <-. constructor. }
      destruct (extract_from_ui (JArr l)) as [others|] eqn:Ho;
        cbn [outcome_bind] in H; [|discriminate].
      injection H as <-.
      apply Forall_app. split; [exact Hown|].
      apply Forall_app. split; [exact Hsubn|].
      apply IHl. reflexivity.
  - intros items H. destruct d; [|discriminate].
    injection H as <-. constructor.
  - intros d' k v Hd Hk. injection Hd as <-.
    apply dict_get_in in Hk.
    rewrite Forall_forall in IH. exact (proj1 (IH _ Hk)).
Qed.

(** X22.  Whatever the JSON value, the entries extracted from it are
    normal: an entry whose type is [button] or [checkbox] has the initial
    value 0, the range 0 to 1 and the step 1, whatever the description
    says, and the MIDI binding of every entry is a list of words, not
    empty and without white space. *)
Theorem extract_items_info_normal (json_data : Json)
    (items : list RawItem) :
  extract_items_info json_data = Returns items -> Forall item_normal items.
Proof.
  unfold extract_items_info.
  destruct (py_in "ui" json_data) as [[|]|]; cbn [outcome_bind];
    [| |discriminate].
  - destruct (py_getitem json_data "ui") as [ui|]; cbn [outcome_bind];
      [|discriminate].
    apply extract_from_ui_normal.
  - intros H. injection H as <-. constructor.
Qed.

Lemma midi_info_loop_errors (metas : list Json) (e : JsonError) :
  midi_info_loop metas = Raises e ->
  e = JTypeError \/ e = JAttributeError "get"
  \/ e = JAttributeError "split".
Proof.
  induction metas as [|x metas IH]; [discriminate|].
  cbn [midi_info_loop].
  destruct x as [| | |s|l|d]; cbn [py_in outcome_bind];
    try (intros H; injection H as <-; left; reflexivity).
  - destruct (contains "midi" s); cbn [py_getitem outcome_bind];
      [intros H; injection H as <-; left; reflexivity|].
    destruct (midi_info_loop metas); cbn [outcome_bind];
      [discriminate|exact IH].
  - destruct (existsb (is_str "midi") l); cbn [py_getitem outcome_bind];
      [intros H; injection H as <-; left; reflexivity|].
    destruct (midi_info_loop metas); cbn [outcome_bind];
      [discriminate|exact IH].
  - unfold has_key. cbn [py_getitem].
    destruct (dict_get "midi" d) as [v|]; cbn [outcome_bind].
    + destruct v; cbn [split_value outcome_bind];
        try (intros H; injection H as <-; right; right; reflexivity).
      destruct (midi_info_loop metas); cbn [outcome_bind];
        [discriminate|exact IH].
    + destruct (midi_info_loop metas); cbn [outcome_bind];
        [discriminate|exact IH].
Qed.

Lemma own_items_errors (d : list (string * Json)) (e : JsonError) :
  own_items d = Raises e ->
  e = JTypeError \/ e = JAttributeError "get"
  \/ e = JAttributeError "split".
Proof.
  unfold own_items. cbn [py_get outcome_bind].
  destruct (py_iter match dict_get "meta" d with
                    | Some v => v
                    | None => JArr []
                    end) as [metas|e0] eqn:Hm; cbn [outcome_bind].
  2:{ intros H. injection H as <-. left.
      destruct (match dict_get "meta" d with
                | Some v => v
                | None => JArr []
                end); try discriminate; cbn [py_iter] in Hm;
        injection Hm as <-; reflexivity. }
  destruct (midi_info_loop metas) as [tokens|e0] eqn:Ht; cbn [outcome_bind].
  2:{ intros H. injection H as <-. eapply midi_info_loop_errors. exact Ht. }
  destruct (is_str "button" _ || is_str "checkbox" _); [discriminate|].
  unfold has_key. cbn [py_getitem].
  destruct (dict_get "min" d); cbn [andb outcome_bind]; [|discriminate].
  destruct (dict_get "max" d); cbn [andb outcome_bind]; [|discriminate].
  destruct (dict_get "step" d); cbn [andb outcome_bind]; discriminate.
Qed.

Lemma extract_from_ui_errors (ui_items : Json) (e : JsonError) :
  extract_from_ui ui_items = Raises e ->
  e = JTypeError \/ e = JAttributeError "get"
  \/ e = JAttributeError "split".
Proof.
  assert (Hboth :
    (extract_from_ui ui_items = Raises e ->
     e = JTypeError \/ e = JAttributeError "get"
     \/ e = JAttributeError "split")
    /\ (forall d k v,
          ui_items = JObj d -> dict_get k d = Some v ->
          extract_from_ui v = Raises e ->
          e = JTypeError \/ e = JAttributeError "get"
          \/ e = JAttributeError "split"));
    [|exact (proj1 Hboth)].
  induction ui_items as [| b | n | s | l IH | d IH] using Json_nested_ind;
    (split; [|try discriminate]);
    try (intros H; injection H as <-; left; reflexivity).
  - destruct s; [discriminate|].
    intros H. injection H as <-. right. left. reflexivity.
  - induction IH as [|x l Hx _ IHl]; intros H; [discriminate|].
    assert (Hd : (exists d, x = JObj d) \/ forall d, x <> JObj d).
    { destruct x; try (right; discriminate). left. eexists. reflexivity. }
    destruct Hd as [(d & ->)|Hd].
    2:{ rewrite extract_from_ui_not_dict in H by exact Hd.
        injection H as <-. right. left. reflexivity. }
    rewrite extract_from_ui_cons in H.
    destruct (own_items d) as [own|e0] eqn:Hown; cbn [outcome_bind] in H.
    2:{ injection H as <-. eapply own_items_errors. exact Hown. }
    destruct Hx as [_ Hval].
    destruct (match dict_get "items" d with
              | Some v => extract_from_ui v
              | None => Returns []
              end) as [sub|e0] eqn:Hsub; cbn [outcome_bind] in H.
    2:{ injection H as <-.
        destruct (dict_get "items" d) as [v|] eqn:Hv; [|discriminate].
        eapply Hval; [reflexivity|exact Hv|exact Hsub]. }
    destruct (extract_from_ui (JArr l)) as [others|e0] eqn:Ho;
      cbn [outcome_bind] in H; [discriminate|].
    injection H as <-. apply IHl. reflexivity.
  - destruct d; [discriminate|].
    intros H. injection H as <-. right. left. reflexivity.
  - intros d' k v Hd Hk. injection Hd as <-.
    apply dict_get_in in Hk.
    rewrite Forall_forall in IH. exact (proj1 (IH _ Hk)).
Qed.

(** X23.  A description without user interface has no item: on a dict
    without the key [ui] the extraction returns the empty list.  On any
    JSON value the extraction never raises [KeyError]: it raises nothing
    but [TypeError], for a value that cannot be iterated or indexed, and
    [AttributeError], for an item that is not a dict or a MIDI binding
    that is not a string. *)
Theorem extract_items_info_errors (json_data : Json) :
  (forall fields,
     json_data = JObj fields -> has_key "ui" fields = false ->
     extract_items_info json_data = Returns [])
  /\ (forall e,
        extract_items_info json_data = Raises e ->
        e = JTypeError \/ e = JAttributeError "get"
        \/ e = JAttributeError "split").
Proof.
  split.
  - intros fields -> Hui. unfold extract_items_info.
    cbn [py_in outcome_bind]. rewrite Hui. reflexivity.
  - intros e. unfold extract_items_info.
    destruct json_data as [| | |s|l|d]; cbn [py_in outcome_bind];
      try (intros H; injection H as <-; left; reflexivity).
    + destruct (contains "ui" s); [|discriminate].
      cbn [py_getitem outcome_bind].
      intros H. injection H as <-. left. reflexivity.
    + destruct (existsb (is_str "ui") l); [|discriminate].
      cbn [py_getitem outcome_bind].
      intros H. injection H as <-. left. reflexivity.
    + unfold has_key. cbn [py_getitem].
      destruct (dict_get "ui" d) as [ui|]; [|discriminate].
      cbn [outcome_bind]. apply extract_from_ui_errors.
Qed.

(** X24.  What a description without meta section gives for itself.  A
    button or a checkbox gives one entry, whatever other keys it has; any
    other description gives one entry when it has the three keys [min],
    [max] and [step], and none otherwise: a slider that lacks one of them
    is left out without error, as a group is.  A missing [shortname] or
    [type] is the empty string, a missing [init] is 0. *)
Theorem own_items_widget (d : list (string * Json)) :
  dict_get "meta" d = None ->
  let shortname := get_or "shortname" d (JStr "") in
  let item_type := get_or "type" d (JStr "") in
  own_items d =
    Returns
      (if is_switch item_type then
         [mkRawItem shortname item_type json_zero json_zero json_one
            json_one []]
       else
         match dict_get "min" d, dict_get "max" d, dict_get "step" d with
         | Some min, Some max, Some step =>
             [mkRawItem shortname item_type (get_or "init" d json_zero)
                min max step []]
         | _, _, _ => []
         end).
Proof.
  intros Hmeta. cbn zeta. unfold own_items, get_or, is_switch, has_key.
  cbn [py_get outcome_bind]. rewrite Hmeta.
  cbn [py_iter midi_info_loop outcome_bind py_getitem].
  destruct (is_str "button" _ || is_str "checkbox" _); [reflexivity|].
  destruct (dict_get "min" d); cbn [andb outcome_bind]; [|reflexivity].
  destruct (dict_get "max" d); cbn [andb outcome_bind]; [|reflexivity].
  destruct (dict_get "step" d); cbn [andb outcome_bind]; reflexivity.
Qed.

Lemma own_items_widget_witness :
  own_items [("type", JStr "hslider"); ("shortname", JStr "vol");
             ("min", JNum (NInt 0)); ("max", JNum (NInt 1))]
  = Returns [].
Proof.
  apply (own_items_widget [("type", JStr "hslider");
                           ("shortname", JStr "vol");
                           ("min", JNum (NInt 0)); ("max", JNum (NInt 1))]).
  reflexivity.
Defined.

Lemma extract_items_info_normal_witness :
  Forall item_normal
    [mkRawItem (JStr "gate") (JStr "button") json_zero json_zero json_one
       json_one ["keyon"; "60"]].
Proof.
  apply (extract_items_info_normal
           (JObj [("ui",
                   JArr [JObj [("type", JStr "vgroup");
                               ("items",
                                JArr [JObj [("type", JStr "button");
                                            ("shortname", JStr "gate");
                                            ("min", JNum (NInt 5));
                                            ("meta",
                                             JArr [JObj [("midi",
                                                          JStr " keyon  60")]])]])]])])).
  vm_compute. reflexivity.
Defined.

Lemma selected_voice_count_witness :
  exists v,
    no_effect_branch_nvoices None (Some 0) = Ok v /\ (0 < v \/ v = -1).
Proof.
  destruct (selected_voice_count
              (JObj [("meta", JArr [JObj [("options", JStr "[nvoices:0]")]])])
              (Some false) (Some 0) None) as (v & E & Hv & _).
  - vm_compute. reflexivity.
  - exists v. split; [exact E|exact Hv].
Defined.

(** * The conversion *)

(** X25.  The effect is used only when both of its files are given and
    its code is not empty: with one of the two files alone the conversion
    is the conversion without effect, whatever the voice count; with both
    files, an empty code and a voice count given, it is the conversion
    without effect too. *)
Theorem load_files_effect_needs_both_files
    (dsp_name dsp_codebox_file : string) (dsp_json_file : JsonData)
    (effect_codebox_file : string) (effect_json_file : JsonData)
    (maxpat_path export_path cpp_filename : string)
    (midi : bool) (nvoices : option Z)
    (compile test subpatcher_flag : bool) (w : World) :
  let conversion effect_code effect_json nv :=
    load_files_create_rnbo_patch dsp_name dsp_codebox_file dsp_json_file
      effect_code effect_json maxpat_path export_path cpp_filename midi nv
      compile test subpatcher_flag w in
  conversion (Some effect_codebox_file) None nvoices
    = conversion None None nvoices
  /\ conversion None (Some effect_json_file) nvoices
     = conversion None None nvoices
  /\ (forall n,
        conversion (Some "") (Some effect_json_file) (Some n)
        = conversion None None (Some n)).
Proof.
  cbn zeta. split; [reflexivity|]. split; [reflexivity|].
  intros n. unfold load_files_create_rnbo_patch.
  unfold effect_branch_nvoices, no_effect_branch_nvoices, gt_zero.
  destruct (Z.ltb 0 n); rewrite !bind_lift_ok; reflexivity.
Qed.

Lemma midi_or_true (midi : bool) (o : option bool) :
  midi_or midi o = true <-> midi = true \/ o = Some true.
Proof.
  unfold midi_or. destruct midi; [tauto|].
  destruct o as [[|]|]; split; intros H; try tauto; try discriminate;
    destruct H as [H|H]; discriminate.
Qed.

(** X26.  A conversion without effect that can be built returns, and the
    patch has the global [midiin] and [midiout] nodes exactly when MIDI
    is asked for by the argument or by the options of the JSON file; the
    MIDI-enabled patch has both nodes, the other none of them. *)
Theorem load_files_midi_nodes
    (dsp_name dsp_codebox_file : string) (dsp_json_file : JsonData)
    (maxpat_path export_path cpp_filename : string)
    (midi : bool) (nvoices : option Z)
    (compile test subpatcher_flag : bool) (w : World) :
  let midi_enabled := midi_or midi (fst (json_options dsp_json_file)) in
  unit_inputs_ok midi_enabled (json_inputs dsp_json_file)
    (json_outputs dsp_json_file) (json_items dsp_json_file) ->
  exists w',
    load_files_create_rnbo_patch dsp_name dsp_codebox_file dsp_json_file
      None None maxpat_path export_path cpp_filename midi nvoices
      compile test subpatcher_flag w = Ok (tt, w')
    /\ (midi_enabled = true <->
        midi = true \/ fst (json_options dsp_json_file) = Some true)
    /\ ((exists b, In b (boxes_at (num_patchers w) w') /\ is_midi_node b)
        <-> midi_enabled = true)
    /\ (midi_enabled = true ->
        exists midi_in midi_out,
          In midi_in (boxes_at (num_patchers w) w')
          /\ is_textbox "midiin" midi_in
          /\ In midi_out (boxes_at (num_patchers w) w')
          /\ is_textbox "midiout" midi_out).
Proof.
  cbn zeta. intros Hok.
  set (midi_enabled := midi_or midi (fst (json_options dsp_json_file))) in *.
  unfold load_files_create_rnbo_patch.
  assert (Hnv : exists nv,
            no_effect_branch_nvoices nvoices
              (snd (json_options dsp_json_file)) = Ok nv).
  { unfold no_effect_branch_nvoices, gt_zero.
    destruct nvoices as [n|]; [destruct (Z.ltb 0 n)|]; eexists; reflexivity. }
  destruct Hnv as (nv & ->). rewrite bind_lift_ok.
  destruct (create_rnbo_patch_spec dsp_name maxpat_path export_path
              cpp_filename dsp_codebox_file (json_items dsp_json_file)
              (json_inputs dsp_json_file) (json_outputs dsp_json_file)
              midi_enabled nv None None [] (-1) (-1) compile test
              subpatcher_flag w Hok I) as (w' & E & Hpatch).
  exists w'. split; [exact E|].
  split; [apply midi_or_true|].
  cbn [truthy_str] in Hpatch.
  pose proof Hpatch as Hall.
  destruct Hpatch
    as (cb & dr & wd0 & wd & ctrl_d & cl_d & mi & mo & fxb & fxl & lr & lo
        & cmpb & cmpl & tg & dac & adcb & adcl & din & dout & dii & doi
        & _ & _ & _ & _ & Hb & _ & _ & _ & Hmi & Hmo & _).
  assert (Hin : midi_enabled = true ->
                In mi (boxes_at (num_patchers w) w')
                /\ In mo (boxes_at (num_patchers w) w')).
  { intros Hm. rewrite Hb, Hm.
    split; right; right; apply in_or_app; right;
      [left|right; left]; reflexivity. }
  split; [split|].
  - intros (b & Hbin & Hnode).
    destruct midi_enabled eqn:Hm; [reflexivity|]. exfalso.
    destruct (patch_boxes_forall (fun b => ~ is_midi_node b)
                _ _ _ _ _ _ _ _ _ _ _ _ _ _ _
                textbox_only_midi_node control_not_midi_node
                machinery_not_midi_node dac_not_midi_node
                (fun H => False_ind _ (Bool.diff_false_true H)) Hall)
      as (before & adcs & Hbx & Hbefore & Hadc).
    rewrite Hbx in Hbin. apply in_app_or in Hbin.
    destruct Hbin as [Hbin|Hbin].
    + rewrite Forall_forall in Hbefore. exact (Hbefore _ Hbin Hnode).
    + destruct (Z.ltb 0 (json_inputs dsp_json_file)).
      * destruct Hadc as (adc & -> & _ & Ht).
        destruct Hbin as [<-|[]].
        destruct Hnode as [(_ & H)|(_ & H)]; rewrite Ht in H; discriminate.
      * rewrite Hadc in Hbin. destruct Hbin.
  - intros Hm. destruct (Hin Hm) as [H1 _].
    exists mi. split; [exact H1|left; exact Hmi].
  - intros Hm. destruct (Hin Hm) as [H1 H2].
    exists mi, mo. auto.
Qed.

Lemma load_files_midi_nodes_witness :
  exists w',
    load_files_create_rnbo_patch "synth" "dsp code" sample_json None None
      "out/synth.maxpat" "export" "synth.cpp" false None false false false
      main_only = Ok (tt, w').
Proof.
  destruct (load_files_midi_nodes "synth" "dsp code" sample_json
              "out/synth.maxpat" "export" "synth.cpp" false None false false
              false main_only) as (w' & E & _).
  - split; [eexists; vm_compute; reflexivity|].
    repeat constructor.
  - exists w'. exact E.
Defined.
